(** * hyperion/grid/voropp_wrap.cc: the Voronoi wrapper called from Python

    A shallow embedding of [hyperion_voropp_wrap] and [add_walls], and the
    properties of the wrapper: grid sizing, wall validation, population of
    the container, the per-cell loop with its bounding boxes, the packing of
    the ragged neighbour and vertex lists into padded rows, the conversion of
    exceptions into the returned message, and what the two file-level
    statics keep between calls.

    Conventions of the embedding.
    - [double] is IEEE 754 binary64 as specified by [SpecFloat]
      ([prec = 53], [emax = 1024]); arithmetic rounds to nearest even and
      comparisons with a NaN are false, as in the compiled code.
    - [int] is a 32-bit signed integer carried in [Z]; signed overflow and a
      conversion from [double] that does not fit are undefined behaviour.
    - Undefined behaviour (an out-of-range conversion, a read past the end of
      an array or vector, dereferencing an end iterator) is an explicit
      outcome, distinct from a thrown exception.
    - The text sent to [std::cout] when [verbose] is set is not modelled; the
      array reads made while printing are. *)

From Stdlib Require Import ZArith Ascii String Bool Lia.
From Corelib Require Import SpecFloat.
From stdpp Require Import base list.

Local Open Scope Z_scope.

(** ** Doubles *)

Module Double.

Abbreviation double := spec_float.

Definition prec : Z := 53.
Definition emax : Z := 1024.

Definition add : double -> double -> double := SFadd prec emax.
Definition sub : double -> double -> double := SFsub prec emax.
Definition mul : double -> double -> double := SFmul prec emax.
Definition div : double -> double -> double := SFdiv prec emax.

(** [a < b] and [a <= b] of the source. *)
Definition ltb : double -> double -> bool := SFltb.
Definition leb : double -> double -> bool := SFleb.

Definition nan : double := S754_nan.
Definition zero : double := S754_zero false.

Definition is_nan (x : double) : bool :=
  match x with S754_nan => true | _ => false end.

(** Conversion [int -> double]; exact for every 32-bit integer. *)
Definition of_int (n : Z) : double := binary_normalize prec emax n 0 false.

(** A dyadic literal [m * 2^e]. *)
Definition dyadic (m e : Z) : double := binary_normalize prec emax m e false.

(** The sign bit is clear, or the value is a NaN. *)
Definition sign_clear (x : double) : Prop :=
  match x with
  | S754_nan => True
  | S754_zero s | S754_infinity s | S754_finite s _ _ => s = false
  end.

(** Integer part of a finite double, rounded towards zero. *)
Definition trunc (x : double) : option Z :=
  match x with
  | S754_zero _ => Some 0
  | S754_finite s m e =>
      let t := Z.shiftl (Zpos m) e in Some (if s then - t else t)
  | _ => None
  end.

(** Integer part of a finite double, rounded towards minus infinity. *)
Definition floor (x : double) : option Z :=
  match x with
  | S754_zero _ => Some 0
  | S754_finite s m e => Some (Z.shiftl (if s then Zneg m else Zpos m) e)
  | _ => None
  end.

(** *** The order on doubles that are not NaN

    [key] sends a double to a triple of integers compared
    lexicographically; it is how the comparison facts below are proved. *)
Definition key (x : double) : Z * Z * Z :=
  match x with
  | S754_nan | S754_zero _ => (0, 0, 0)
  | S754_infinity true => (-2, 0, 0)
  | S754_infinity false => (2, 0, 0)
  | S754_finite true m e => (-1, - e, Zneg m)
  | S754_finite false m e => (1, e, Zpos m)
  end.

Definition lex_lt (a b : Z * Z * Z) : Prop :=
  let '(a1, a2, a3) := a in
  let '(b1, b2, b3) := b in
  a1 < b1 \/ (a1 = b1 /\ (a2 < b2 \/ (a2 = b2 /\ a3 < b3))).

Definition lex_le (a b : Z * Z * Z) : Prop :=
  let '(a1, a2, a3) := a in
  let '(b1, b2, b3) := b in
  a1 < b1 \/ (a1 = b1 /\ (a2 < b2 \/ (a2 = b2 /\ a3 <= b3))).

End Double.

Import Double.

(** ** Machine integers *)

Definition INT_MIN : Z := -2147483648.
Definition INT_MAX : Z := 2147483647.

Definition int_range (z : Z) : bool := (INT_MIN <=? z) && (z <=? INT_MAX).

(** The result of a signed [int] operation: [None] when it overflows. *)
Definition checked (z : Z) : option Z := if int_range z then Some z else None.

(** [(int) x] for a double [x]: the fractional part is discarded; the
    conversion is undefined when the result does not fit (NaN and the
    infinities included). *)
Definition double_to_int (x : double) : option Z :=
  match trunc x with
  | Some t => checked t
  | None => None
  end.

(** ** Outcomes of a computation inside the [try] block *)

Inductive result (A : Type) : Type :=
  | Ok (a : A)
  | Throw (what : string)     (* a [std::exception] with this [what()] *)
  | Undefined.                (* undefined behaviour *)

Arguments Ok {A} a.
Arguments Throw {A} what.
Arguments Undefined {A}.

Definition rbind {A B} (c : result A) (k : A -> result B) : result B :=
  match c with
  | Ok a => k a
  | Throw what => Throw what
  | Undefined => Undefined
  end.

Notation "'do' x <- c ; k" := (rbind c (fun x => k))
  (at level 10, x pattern, c at level 100, k at level 200).

(** In a hypothesis [H : (do x <- c; k) = Ok _], name the result of [c]. *)
Ltac bind_ok H x Eq :=
  match type of H with
  | rbind ?c _ = Ok _ =>
      destruct c as [x| |] eqn:Eq; cbn [rbind] in H; [|discriminate H|discriminate H]
  end.

(** An operation whose failure is undefined behaviour. *)
Definition defined {A} (o : option A) : result A :=
  match o with
  | Some a => Ok a
  | None => Undefined
  end.

(** [l[i]] and [l[i] = x] on an array or vector, with an [int] or [size_t]
    index: outside the bounds the behaviour is undefined. *)
Definition read {A} (l : list A) (i : Z) : result A :=
  if i <? 0 then Undefined else defined (l !! Z.to_nat i).

Definition write {A} (l : list A) (i : Z) (x : A) : result (list A) :=
  if (0 <=? i) && (i <? Z.of_nat (length l))
  then Ok (<[Z.to_nat i := x]> l)
  else Undefined.

(** [std::copy(src.begin(), src.end(), buf + off)]. *)
Definition copy_to {A} (buf : list A) (off : Z) (src : list A) : result (list A) :=
  if (0 <=? off) && (off + Z.of_nat (length src) <=? Z.of_nat (length buf))
  then Ok (take (Z.to_nat off) buf ++ src
           ++ drop (Z.to_nat off + length src) buf)
  else Undefined.

(** [std::fill(buf + first, buf + last, v)]. *)
Definition fill {A} (buf : list A) (first last : Z) (v : A) : result (list A) :=
  if (0 <=? first) && (first <=? last) && (last <=? Z.of_nat (length buf))
  then Ok (take (Z.to_nat first) buf ++ replicate (Z.to_nat (last - first)) v
           ++ drop (Z.to_nat last) buf)
  else Undefined.

(** A loop over the elements of [l], threading the loop's variables. *)
Fixpoint foreach {A S} (l : list A) (body : A -> S -> result S) (s : S) : result S :=
  match l with
  | [] => Ok s
  | x :: l' => do s' <- body x s; foreach l' body s'
  end.

(** [std::max_element(l.begin(), l.end(), lt)]: the first largest element;
    on an empty range it returns the end iterator, which the caller
    dereferences. *)
Definition max_element {A} (lt : A -> A -> bool) (l : list A) : option A :=
  match l with
  | [] => None
  | x :: l' => Some (fold_left (fun largest y => if lt largest y then y else largest) l' x)
  end.

(** [size_cmp]: the functor used to extract the max number of
    neighbours/vertices. *)
Definition size_cmp {T} (a b : list T) : bool := (length a <? length b)%nat.

(** [std::vector<T> v(n)] with an [int] [n]: [n] elements, each
    value-initialised; a negative [n] converts to a [size_type] above
    [max_size()] and the constructor throws. *)
Definition vector_n {T} (what : string) (n : Z) (x : T) : result (list T) :=
  if n <? 0 then Throw what else Ok (replicate (Z.to_nat n) x).

(** [malloc]: a block of [n] elements whose contents are indeterminate;
    [junk] is what the block happens to hold. Allocation is assumed to
    succeed. *)
Definition malloc {T} (junk : nat -> T) (n : Z) : list T :=
  junk <$> seq 0 (Z.to_nat n).

(** ** What the wrapper takes from its platform *)

(** [cbrt] of the C math library, and the [what()] of the exception thrown
    by a vector constructor given a negative size. *)
Class Platform := {
  cbrt : double -> double;
  length_error_what : string
}.

(** Contents of the blocks returned by [malloc] before they are written:
    [junk_vols], [junk_bb_m], [junk_bb_M], [junk_neighs], [junk_verts]. *)
Record heap := {
  junk_vols : nat -> double;
  junk_bb_m : nat -> double;
  junk_bb_M : nat -> double;
  junk_neighs : nat -> Z;
  junk_verts : nat -> double
}.

(** ** Grid sizing (lines 122-136) *)

(** Number of average particles per block for good performance,
    determined experimentally. *)
Definition particle_block : double := of_int 5.

(** [(int)(extent / vol_edge * block_edge) + 1]. *)
Definition grid_axis (extent vol_edge block_edge : double) : option Z :=
  match double_to_int (mul (div extent vol_edge) block_edge) with
  | Some n => checked (n + 1)
  | None => None
  end.

Section GridSizing.
Context {P : Platform}.

Definition nblocks (nsites : Z) : double := div (of_int nsites) particle_block.

Definition block_edge (nsites : Z) : double := cbrt (nblocks nsites).

Definition vol_edge (xmin xmax ymin ymax zmin zmax : double) : double :=
  cbrt (mul (mul (sub xmax xmin) (sub ymax ymin)) (sub zmax zmin)).

(** The triple [(nx, ny, nz)], when the three conversions are defined. *)
Definition grid_resolution (nsites : Z) (xmin xmax ymin ymax zmin zmax : double)
  : option (Z * Z * Z) :=
  let be := block_edge nsites in
  let ve := vol_edge xmin xmax ymin ymax zmin zmax in
  match grid_axis (sub xmax xmin) ve be with
  | Some nx =>
      match grid_axis (sub ymax ymin) ve be with
      | Some ny =>
          match grid_axis (sub zmax zmin) ve be with
          | Some nz => Some (nx, ny, nz)
          | None => None
          end
      | None => None
      end
  | None => None
  end.

(** The sizing as the design document words it: the same quantities,
    with [floor] in place of the conversion to [int]. *)
Definition floor_to_int (x : double) : option Z :=
  match floor x with
  | Some t => checked t
  | None => None
  end.

Definition grid_axis_floor (extent vol_edge block_edge : double) : option Z :=
  match floor_to_int (mul (div extent vol_edge) block_edge) with
  | Some n => checked (n + 1)
  | None => None
  end.

Definition grid_resolution_floor (nsites : Z) (xmin xmax ymin ymax zmin zmax : double)
  : option (Z * Z * Z) :=
  let nblocks := div (of_int nsites) (of_int 5) in
  let block_edge := cbrt nblocks in
  let vol_edge := cbrt (mul (mul (sub xmax xmin) (sub ymax ymin)) (sub zmax zmin)) in
  match grid_axis_floor (sub xmax xmin) vol_edge block_edge,
        grid_axis_floor (sub ymax ymin) vol_edge block_edge,
        grid_axis_floor (sub zmax zmin) vol_edge block_edge with
  | Some nx, Some ny, Some nz => Some (nx, ny, nz)
  | _, _, _ => None
  end.
End GridSizing.

(** ** The cell-geometry library, as far as the wrapper uses it *)

Module voro.

(** [wall_sphere(xc,yc,zc,rc)] and [wall_cylinder(xc,yc,zc,xa,ya,za,rc)]. *)
Inductive wall : Type :=
  | wall_sphere (xc yc zc rc : double)
  | wall_cylinder (xc yc zc xa ya za rc : double).

(** A particle stored in the container: its id and position. *)
Record particle := {
  p_id : Z;
  p_x : double;
  p_y : double;
  p_z : double
}.

(** Modelled from the spec: the container class of the bundled voro++
    library (its sources are not in [voropp_wrap.cc]). The container keeps
    the domain and grid it was constructed with, every particle inserted
    into it and every wall added to it. *)
Record container := {
  ax : double; bx : double;
  ay : double; by_ : double;
  az : double; bz : double;
  nx : Z; ny : Z; nz : Z;
  xperiodic : bool; yperiodic : bool; zperiodic : bool;
  init_mem : Z;
  particles : list particle;
  walls : list wall
}.

(** Modelled from the spec: [particle_order], the record of the particles
    inserted "tagged for retrieval", in insertion order. *)
Definition particle_order := list particle.

Definition container_new (ax bx ay by_ az bz : double) (nx ny nz : Z)
    (xperiodic yperiodic zperiodic : bool) (init_mem : Z) : container :=
  {| ax := ax; bx := bx; ay := ay; by_ := by_; az := az; bz := bz;
     nx := nx; ny := ny; nz := nz;
     xperiodic := xperiodic; yperiodic := yperiodic; zperiodic := zperiodic;
     init_mem := init_mem; particles := []; walls := [] |}.

Definition with_particle (con : container) (p : particle) : container :=
  {| ax := ax con; bx := bx con; ay := ay con; by_ := by_ con;
     az := az con; bz := bz con; nx := nx con; ny := ny con; nz := nz con;
     xperiodic := xperiodic con; yperiodic := yperiodic con;
     zperiodic := zperiodic con; init_mem := init_mem con;
     particles := particles con ++ [p]; walls := walls con |}.

(** Modelled from the spec: [con.put(n,x,y,z)] inserts the particle
    untagged. *)
Definition put (con : container) (n : Z) (x y z : double) : container :=
  with_particle con {| p_id := n; p_x := x; p_y := y; p_z := z |}.

(** Modelled from the spec: [con.put(po,n,x,y,z)] inserts the particle and
    records it in [po]. *)
Definition put_ordered (con : container) (po : particle_order) (n : Z) (x y z : double)
  : container * particle_order :=
  let p := {| p_id := n; p_x := x; p_y := y; p_z := z |} in
  (with_particle con p, po ++ [p]).

(** Modelled from the spec: [con.add_wall(w)]. *)
Definition add_wall (con : container) (w : wall) : container :=
  {| ax := ax con; bx := bx con; ay := ay con; by_ := by_ con;
     az := az con; bz := bz con; nx := nx con; ny := ny con; nz := nz con;
     xperiodic := xperiodic con; yperiodic := yperiodic con;
     zperiodic := zperiodic con; init_mem := init_mem con;
     particles := particles con; walls := walls con ++ [w] |}.

(** Modelled from the spec: [c_loop_order vl(con,po)] with [vl.start()],
    [vl.inc()] and [vl.pos(...)] visits the particles recorded in [po], in
    the order they were recorded. *)
Definition c_loop_order (con : container) (po : particle_order) : list particle := po.

(** The computation of one cell and the three queries on it. The library
    is a parameter of the wrapper: [compute_cell] returns the cell or the
    [what()] of an exception it throws, and [face_ids] are the ids the
    library puts in a neighbour list for the faces of a cell that are not
    shared with a particle (faces of the domain box or of a wall). *)
Class engine := {
  voronoicell_neighbor : Type;
  compute_cell : container -> particle -> string + voronoicell_neighbor;
  neighbors : voronoicell_neighbor -> list Z;
  volume : voronoicell_neighbor -> double;
  vertices : voronoicell_neighbor -> double -> double -> double -> list double;
  face_ids : list Z
}.

End voro.

(** ** State outside the call: the two statics and the caller's variables *)

(** [static std::string error_message] and
    [static std::auto_ptr<wall> wall_ptr]. *)
Record statics := {
  error_message : string;
  wall_ptr : option voro.wall
}.

(** What the output pointers of the call point to. *)
Record outputs := {
  neighbours : list Z;
  max_nn : Z;
  volumes : list double;
  bb_min : list double;
  bb_max : list double;
  vertices : list double;
  max_nv : Z
}.

Record world := {
  globals : statics;
  out : outputs
}.

(** Outcome of a computation that may write to the world: the world is
    kept when an exception propagates. *)
Inductive outcome (A : Type) : Type :=
  | Done (a : A) (w : world)
  | Thrown (what : string) (w : world)
  | Crashed.

Arguments Done {A} a w.
Arguments Thrown {A} what w.
Arguments Crashed {A}.

Definition M (A : Type) : Type := world -> outcome A.

Definition mret {A} (a : A) : M A := fun w => Done a w.

Definition mbind {A B} (c : M A) (k : A -> M B) : M B :=
  fun w =>
    match c w with
    | Done a w' => k a w'
    | Thrown what w' => Thrown what w'
    | Crashed => Crashed
    end.

Notation "'step' x <- c ; k" := (mbind c (fun x => k))
  (at level 10, x pattern, c at level 100, k at level 200).

Definition throw {A} (what : string) : M A := fun w => Thrown what w.

(** A computation that does not touch the world. *)
Definition pure {A} (r : result A) : M A :=
  fun w =>
    match r with
    | Ok a => Done a w
    | Throw what => Thrown what w
    | Undefined => Crashed
    end.

(** [wall_ptr.reset(new ...)] and [wall_ptr.get()]. *)
Definition wall_ptr_reset (wl : voro.wall) : M unit :=
  fun w =>
    Done tt {| globals := {| error_message := error_message (globals w);
                             wall_ptr := Some wl |};
               out := out w |}.

Definition wall_ptr_get : M voro.wall :=
  fun w =>
    match wall_ptr (globals w) with
    | Some wl => Done wl w
    | None => Crashed
    end.

Definition update_out (f : outputs -> outputs) : M unit :=
  fun w => Done tt {| globals := globals w; out := f (out w) |}.

(** The assignments through the output pointers. *)
Definition assign_max_nn (v : Z) : M unit :=
  update_out (fun o =>
    {| neighbours := neighbours o; max_nn := v; volumes := volumes o;
       bb_min := bb_min o; bb_max := bb_max o; vertices := vertices o;
       max_nv := max_nv o |}).

Definition assign_max_nv (v : Z) : M unit :=
  update_out (fun o =>
    {| neighbours := neighbours o; max_nn := max_nn o; volumes := volumes o;
       bb_min := bb_min o; bb_max := bb_max o; vertices := vertices o;
       max_nv := v |}).

Definition assign_vertices (v : list double) : M unit :=
  update_out (fun o =>
    {| neighbours := neighbours o; max_nn := max_nn o; volumes := volumes o;
       bb_min := bb_min o; bb_max := bb_max o; vertices := v;
       max_nv := max_nv o |}).

Definition assign_volumes (v : list double) : M unit :=
  update_out (fun o =>
    {| neighbours := neighbours o; max_nn := max_nn o; volumes := v;
       bb_min := bb_min o; bb_max := bb_max o; vertices := vertices o;
       max_nv := max_nv o |}).

Definition assign_bb_min (v : list double) : M unit :=
  update_out (fun o =>
    {| neighbours := neighbours o; max_nn := max_nn o; volumes := volumes o;
       bb_min := v; bb_max := bb_max o; vertices := vertices o;
       max_nv := max_nv o |}).

Definition assign_bb_max (v : list double) : M unit :=
  update_out (fun o =>
    {| neighbours := neighbours o; max_nn := max_nn o; volumes := volumes o;
       bb_min := bb_min o; bb_max := v; vertices := vertices o;
       max_nv := max_nv o |}).

Definition assign_neighbours (v : list Z) : M unit :=
  update_out (fun o =>
    {| neighbours := v; max_nn := max_nn o; volumes := volumes o;
       bb_min := bb_min o; bb_max := bb_max o; vertices := vertices o;
       max_nv := max_nv o |}).

(** ** The arguments of [hyperion_voropp_wrap]

    The seven output pointers are the fields of [outputs]. *)
Record args := {
  start : Z;
  end_ : Z;
  xmin : double; xmax : double;
  ymin : double; ymax : double;
  zmin : double; zmax : double;
  points : list double;
  nsites : Z;
  with_vertices : Z;
  wall_str : string;
  wall_args_arr : list double;
  n_wall_args : Z;
  verbose : Z
}.

(** ** [add_walls] (lines 72-112) *)

(** The reads of [wall_args_arr[i]], [i < n_wall_args], made while printing
    the parameters. *)
Definition print_wall_args (wall_args_arr : list double) (n_wall_args verbose : Z)
  : result unit :=
  if verbose =? 0 then Ok tt
  else foreach (seqZ 0 n_wall_args)
         (fun i _ => do _ <- read wall_args_arr i; Ok tt) tt.

Definition add_walls (con : voro.container) (wall_str : string)
    (wall_args_arr : list double) (n_wall_args verbose : Z) : M voro.container :=
  step _ <- pure (print_wall_args wall_args_arr n_wall_args verbose);
  (* Allowed walls: 'sphere','cylinder','cone','plane'. *)
  step con <-
    (if String.eqb wall_str "sphere" then
       (* Some checks. *)
       if negb (n_wall_args =? 4) then
         throw "invalid number of arguments for a 'sphere' wall, exactly 4 are needed"
       else
         step r <- pure (read wall_args_arr 3);
         if leb r zero then
           throw "the radius of a 'sphere' wall must be strictly positive"
         else
           step a0 <- pure (read wall_args_arr 0);
           step a1 <- pure (read wall_args_arr 1);
           step a2 <- pure (read wall_args_arr 2);
           step a3 <- pure (read wall_args_arr 3);
           step _ <- wall_ptr_reset (voro.wall_sphere a0 a1 a2 a3);
           step wl <- wall_ptr_get;
           mret (voro.add_wall con wl)
     else mret con);
  if String.eqb wall_str "cylinder" then
    (* Some checks. *)
    if negb (n_wall_args =? 7) then
      throw "invalid number of arguments for a 'cylinder' wall, exactly 7 are needed"
    else
      step r <- pure (read wall_args_arr 6);
      if leb r zero then
        throw "the radius of a 'cylinder' wall must be strictly positive"
      else
        step a0 <- pure (read wall_args_arr 0);
        step a1 <- pure (read wall_args_arr 1);
        step a2 <- pure (read wall_args_arr 2);
        step a3 <- pure (read wall_args_arr 3);
        step a4 <- pure (read wall_args_arr 4);
        step a5 <- pure (read wall_args_arr 5);
        step a6 <- pure (read wall_args_arr 6);
        step _ <- wall_ptr_reset (voro.wall_cylinder a0 a1 a2 a3 a4 a5 a6);
        step wl <- wall_ptr_get;
        mret (voro.add_wall con wl)
  else mret con.

(** ** Population of the container (lines 165-176) *)

(** [points[i*3], points[i*3 + 1], points[i*3 + 2]]. *)
Definition point_at (points : list double) (i : Z) : result (double * double * double) :=
  do i3 <- defined (checked (i * 3));
  do x <- read points i3;
  do i31 <- defined (checked (i3 + 1));
  do y <- read points i31;
  do i32 <- defined (checked (i3 + 2));
  do z <- read points i32;
  Ok (x, y, z).

Definition populate_body (a : args) (i : Z) (s : voro.container * voro.particle_order)
  : result (voro.container * voro.particle_order) :=
  let '(con, po) := s in
  if (start a <=? i) && (i <? end_ a) then
    do (x, y, z) <- point_at (points a) i;
    Ok (voro.put_ordered con po i x y z)
  else
    do (x, y, z) <- point_at (points a) i;
    Ok (voro.put con i x y z, po).

(** [for (int i = 0; i < nsites; ++i) ...], from an empty [po]. *)
Definition populate (a : args) (con : voro.container)
  : result (voro.container * voro.particle_order) :=
  foreach (seqZ 0 (nsites a)) (populate_body a) (con, []).

(** ** The bounding box of one cell (lines 203-217) *)

(** [double tmp_min[3], tmp_max[3]]. *)
Definition arr3 : Type := double * double * double.

Definition get3 (t : arr3) (j : Z) : double :=
  let '(t0, t1, t2) := t in
  if j =? 0 then t0 else if j =? 1 then t1 else t2.

Definition set3 (t : arr3) (j : Z) (v : double) : arr3 :=
  let '(t0, t1, t2) := t in
  if j =? 0 then (v, t1, t2) else if j =? 1 then (t0, v, t2) else (t0, t1, v).

Definition list3 (t : arr3) : list double :=
  let '(t0, t1, t2) := t in [t0; t1; t2].

(** [std::copy(v.begin(), v.begin() + 3, tmp)]: undefined when [v] holds
    fewer than three doubles. *)
Definition first3 (v : list double) : result arr3 :=
  match v with
  | t0 :: t1 :: t2 :: _ => Ok (t0, t1, t2)
  | _ => Undefined
  end.

(** The body of the loop over [j]. *)
Definition bb_body (tmp_vertices : list double) (i j : Z) (mm : arr3 * arr3)
  : result (arr3 * arr3) :=
  let '(tmp_min, tmp_max) := mm in
  do v <- read tmp_vertices (i * 3 + j);
  let tmp_min := if ltb v (get3 tmp_min j) then set3 tmp_min j v else tmp_min in
  let tmp_max := if ltb (get3 tmp_max j) v then set3 tmp_max j v else tmp_max in
  Ok (tmp_min, tmp_max).

Definition bounding_box (tmp_vertices : list double) : result (arr3 * arr3) :=
  (* Init min/max bb. *)
  do tmp_min <- first3 tmp_vertices;
  do tmp_max <- first3 tmp_vertices;
  foreach (seqZ 1 (Z.of_nat (length tmp_vertices) / 3 - 1))
    (fun i => foreach (seqZ 0 3) (bb_body tmp_vertices i))
    (tmp_min, tmp_max).

(** The bounding box as the design document words it: start from the first
    vertex triplet, then fold over the remaining triplets taking the
    componentwise minimum and maximum. *)
Fixpoint triplets (v : list double) : list arr3 :=
  match v with
  | t0 :: t1 :: t2 :: v' => (t0, t1, t2) :: triplets v'
  | _ => []
  end.

Definition dmin (a b : double) : double := if ltb b a then b else a.
Definition dmax (a b : double) : double := if ltb a b then b else a.

Definition min3 (m t : arr3) : arr3 :=
  let '(m0, m1, m2) := m in
  let '(t0, t1, t2) := t in (dmin m0 t0, dmin m1 t1, dmin m2 t2).

Definition max3 (m t : arr3) : arr3 :=
  let '(m0, m1, m2) := m in
  let '(t0, t1, t2) := t in (dmax m0 t0, dmax m1 t1, dmax m2 t2).

Definition bounding_box_fold (v : list double) : option (arr3 * arr3) :=
  match triplets v with
  | [] => None
  | t :: ts => Some (fold_left (fun mm t => (min3 mm.1 t, max3 mm.2 t)) ts (t, t))
  end.

(** ** The loop over the selected particles (lines 181-222) *)

(** The variables the loop writes: the two vectors of vectors, the three
    [malloc]ed arrays and the scratch vector [tmp_v]. *)
Record cells := {
  n_list : list (list Z);
  vertices_list : list (list double);
  vols : list double;
  bb_m : list double;
  bb_M : list double;
  tmp_v : list double
}.

Section Wrapper.
Context {P : Platform} {E : voro.engine}.

Definition cell_body (a : args) (con : voro.container) (p : voro.particle) (s : cells)
  : result cells :=
  (* Get the id and position of the site being considered. *)
  let idx := voro.p_id p in
  let x := voro.p_x p in
  let y := voro.p_y p in
  let z := voro.p_z p in
  do idx <- defined (checked (idx - start a));
  do _ <- (if with_vertices a =? 0 then Ok []
           else read (vertices_list s) idx);
  (* Compute the voronoi cell. *)
  do c <- match voro.compute_cell con p with
          | inl what => Throw what
          | inr c => Ok c
          end;
  (* Compute the neighbours. *)
  do n_list' <- write (n_list s) idx (voro.neighbors c);
  (* Volume. *)
  do vols' <- write (vols s) idx (voro.volume c);
  (* Compute bounding box. Start by asking for the vertices. *)
  let tmp_vertices := voro.vertices c x y z in
  do vertices_list' <- (if with_vertices a =? 0 then Ok (vertices_list s)
                        else write (vertices_list s) idx tmp_vertices);
  let tmp_v' := if with_vertices a =? 0 then tmp_vertices else tmp_v s in
  do (tmp_min, tmp_max) <- bounding_box tmp_vertices;
  (* Copy the bounding box into the output array. *)
  do idx3 <- defined (checked (idx * 3));
  do bb_m' <- copy_to (bb_m s) idx3 (list3 tmp_min);
  do bb_M' <- copy_to (bb_M s) idx3 (list3 tmp_max);
  Ok {| n_list := n_list'; vertices_list := vertices_list'; vols := vols';
        bb_m := bb_m'; bb_M := bb_M'; tmp_v := tmp_v' |}.

(** [if (vl.start()) do { ... } while (vl.inc());] *)
Definition cell_loop (a : args) (con : voro.container) (po : voro.particle_order)
    (s : cells) : result cells :=
  foreach (voro.c_loop_order con po) (cell_body a con) s.

(** ** Packing (lines 224-257) *)

(** The loop that fills a flat array of [ncells] rows of [width] slots:
    each row is copied to the start of its slots and the rest of them is
    filled with [pad]. *)
Definition pack_body {T} (rows : list (list T)) (width : Z) (pad : T)
    (idx : Z) (buf : list T) : result (list T) :=
  do off <- defined (checked (width * idx));
  do row <- read rows idx;
  do buf' <- copy_to buf off row;
  fill buf' (off + Z.of_nat (length row)) (off + width) pad.

Definition pack {T} (rows : list (list T)) (ncells width : Z) (pad : T)
    (buf : list T) : result (list T) :=
  foreach (seqZ 0 ncells) (pack_body rows width pad) buf.

(** [std::max_element(v.begin(), v.end(), size_cmp<T>)->size()], stored
    in an [int]. *)
Definition max_size {T} (v : list (list T)) : result Z :=
  do largest <- defined (max_element size_cmp v);
  defined (checked (Z.of_nat (length largest))).

(** ** The body of the [try] block (lines 120-265) *)

Definition try_block (h : heap) (a : args) : M unit :=
  step (nx, ny, nz) <-
    pure (defined (grid_resolution (nsites a) (xmin a) (xmax a)
                     (ymin a) (ymax a) (zmin a) (zmax a)));
  (* Number of cells to be computed *)
  step ncells <- pure (defined (checked (end_ a - start a)));
  (* Prepare the output quantities. *)
  step n_list0 <- pure (vector_n length_error_what ncells []);
  step vertices_list0 <-
    pure (if with_vertices a =? 0 then Ok []
          else vector_n length_error_what ncells []);
  let vols0 := malloc (junk_vols h) ncells in
  let bb_m0 := malloc (junk_bb_m h) (ncells * 3) in
  let bb_M0 := malloc (junk_bb_M h) (ncells * 3) in
  (* Initialise the voro++ container. *)
  let con := voro.container_new (xmin a) (xmax a) (ymin a) (ymax a)
               (zmin a) (zmax a) nx ny nz false false false 8 in
  step (con, po) <- pure (populate a con);
  (* Handle the walls. *)
  step con <- add_walls con (wall_str a) (wall_args_arr a) (n_wall_args a) (verbose a);
  (* Loop over the selected particles and compute the desired quantities. *)
  step cs <-
    pure (cell_loop a con po
            {| n_list := n_list0; vertices_list := vertices_list0;
               vols := vols0; bb_m := bb_m0; bb_M := bb_M0; tmp_v := [] |});
  (* Compute the max number of neighbours. *)
  step mnn <- pure (max_size (n_list cs));
  step _ <- assign_max_nn mnn;
  (* Allocate space for flat array of neighbours. Fill it in. *)
  let neighs0 := malloc (junk_neighs h) (ncells * mnn) in
  step neighs <- pure (pack (n_list cs) ncells mnn (-10) neighs0);
  step _ <-
    (if with_vertices a =? 0 then assign_max_nv 0
     else
       (* Compute the max number of vertices coordinates. *)
       step mnv <- pure (max_size (vertices_list cs));
       step _ <- assign_max_nv mnv;
       let verts0 := malloc (junk_verts h) (ncells * mnv) in
       step verts <- pure (pack (vertices_list cs) ncells mnv nan verts0);
       (* Assign the output quantity. *)
       assign_vertices verts);
  (* Assign the output quantities. *)
  step _ <- assign_volumes (vols cs);
  step _ <- assign_bb_min (bb_m cs);
  step _ <- assign_bb_max (bb_M cs);
  assign_neighbours neighs.

(** ** [hyperion_voropp_wrap] (lines 115-271) *)

(** What the call returns: [NULL], or [error_message.c_str()], a pointer
    into the static string. *)
Inductive retval : Type := NULL | error_message_c_str.

Inductive call : Type :=
  | Returned (r : retval) (w : world)
  | UndefinedBehaviour.

Definition dquote : string := String "034"%char EmptyString.

Definition what_message (what : string) : string :=
  ("A C++ exception was raised while calling the voro++ wrapper. The full error message is: "
     ++ dquote ++ what ++ dquote ++ ".")%string.

Definition set_error_message (msg : string) (w : world) : world :=
  {| globals := {| error_message := msg; wall_ptr := wall_ptr (globals w) |};
     out := out w |}.

Definition hyperion_voropp_wrap (h : heap) (a : args) (w : world) : call :=
  match try_block h a w with
  | Done _ w' => Returned NULL w'
  | Thrown what w' =>
      Returned error_message_c_str (set_error_message (what_message what) w')
  | Crashed => UndefinedBehaviour
  end.

(** The text the caller reads through the returned pointer. *)
Definition message (r : retval) (w : world) : option string :=
  match r with
  | NULL => None
  | error_message_c_str => Some (error_message (globals w))
  end.
End Wrapper.

(** ** Instances used to run the wrapper on concrete inputs *)

Module Sample.

(** Integer cube root, rounded down: the bits of the root from the top. *)
Fixpoint icbrt_bits (k : nat) (n r : Z) : Z :=
  match k with
  | O => r
  | S k' =>
      let r' := r + 2 ^ Z.of_nat k' in
      icbrt_bits k' n (if r' * r' * r' <=? n then r' else r)
  end.

Definition icbrt (n : Z) : Z := icbrt_bits (Z.to_nat (Z.log2 n / 3 + 1)) n 0.

(** A correctly rounded cube root: [cbrt] of zeros, infinities and NaN
    is the argument itself (C Annex F), and a finite [m * 2^e] is scaled
    to an integer with an exponent divisible by three whose integer cube
    root has more than [prec] bits. *)
Definition cbrt_ref (x : double) : double :=
  match x with
  | S754_finite s m e =>
      let sh := 168 + e mod 3 in
      let n := Z.shiftl (Zpos m) sh in
      let r := icbrt n in
      let l := if r * r * r =? n then loc_Exact
               else loc_Inexact (Z.compare (8 * n) ((2 * r + 1) * (2 * r + 1) * (2 * r + 1))) in
      binary_round_aux prec emax s r ((e - sh) / 3) l
  | _ => x
  end.

Definition platform : Platform :=
  {| cbrt := cbrt_ref;
     length_error_what := "cannot create std::vector larger than max_size()" |}.

(** A scripted engine: the cell of the particle with id [i] is the [i]-th
    entry of a table of (neighbours, volume, vertices); for an id outside
    the table [compute_cell] throws. Its face ids are those of voro++: -1
    to -6 for the faces of the box, -99 for a wall constructed without an
    id of its own. *)
Definition script : Type := list (list Z * double * list double).

Definition scripted (t : script) : voro.engine :=
  {| voro.voronoicell_neighbor := list Z * double * list double;
     voro.compute_cell := fun _ p =>
       if voro.p_id p <? 0 then inl "no such cell"%string
       else match t !! Z.to_nat (voro.p_id p) with
            | Some c => inr c
            | None => inl "no such cell"%string
            end;
     voro.neighbors := fun c => c.1.1;
     voro.volume := fun c => c.1.2;
     voro.vertices := fun c _ _ _ => c.2;
     voro.face_ids := [-1; -2; -3; -4; -5; -6; -99] |}.

Definition d (n : Z) : double := of_int n.

Definition no_statics : statics :=
  {| error_message := EmptyString; wall_ptr := None |}.

Definition no_outputs : outputs :=
  {| neighbours := []; max_nn := 0; volumes := []; bb_min := []; bb_max := [];
     vertices := []; max_nv := 0 |}.

Definition world0 : world := {| globals := no_statics; out := no_outputs |}.

Definition heap0 : heap :=
  {| junk_vols := fun _ => d 777; junk_bb_m := fun _ => d 777;
     junk_bb_M := fun _ => d 777; junk_neighs := fun _ => 777;
     junk_verts := fun _ => d 777 |}.

(** A second heap, holding other junk. *)
Definition heap1 : heap :=
  {| junk_vols := fun _ => d 111; junk_bb_m := fun _ => d 111;
     junk_bb_M := fun _ => d 111; junk_neighs := fun _ => 111;
     junk_verts := fun _ => d 111 |}.

(** Three particles in the box [0,4]^3; the cells of particles 1 and 2
    are requested. *)
Definition three_points : list double :=
  [d 1; d 1; d 1;  d 2; d 2; d 2;  d 3; d 3; d 3].

Definition three_cells : script :=
  [ ([1; -1; -3; -5], d 8, [d 0; d 0; d 0;  d 2; d 2; d 2]);
    ([0; 2], d 16, [d 1; d 3; d 2;  d 3; d 1; d 2;  d 2; d 2; d 0]);
    ([1; -2; -4], d 40, [d 2; d 2; d 2;  d 4; d 4; d 4]) ].

Definition call_args (start end_ nsites with_vertices : Z) (wall_str : string)
    (wall_args_arr : list double) : args :=
  {| start := start; end_ := end_;
     xmin := d 0; xmax := d 4; ymin := d 0; ymax := d 4; zmin := d 0; zmax := d 4;
     points := three_points; nsites := nsites; with_vertices := with_vertices;
     wall_str := wall_str; wall_args_arr := wall_args_arr;
     n_wall_args := Z.of_nat (length wall_args_arr); verbose := 0 |}.

End Sample.

(** ** Auxiliary definitions used in the statements *)

(** The world after [wall_ptr.reset(new ...)]. *)
Definition set_wall_ptr (wl : voro.wall) (w : world) : world :=
  {| globals := {| error_message := error_message (globals w); wall_ptr := Some wl |};
     out := out w |}.

(** The computation throws no exception. *)
Definition no_throw {A} (r : result A) : Prop := forall what, r <> Throw what.

(** The loop's variables as the [try] block sets them up, for
    [ncells >= 0]. *)
Definition initial_cells (h : heap) (a : args) (ncells : Z) : cells :=
  {| n_list := replicate (Z.to_nat ncells) [];
     vertices_list := if with_vertices a =? 0 then []
                      else replicate (Z.to_nat ncells) [];
     vols := malloc (junk_vols h) ncells;
     bb_m := malloc (junk_bb_m h) (ncells * 3);
     bb_M := malloc (junk_bb_M h) (ncells * 3);
     tmp_v := [] |}.

(** [buf] with [src] written over it from offset [off]. *)
Definition overwrite {A} (off : nat) (src buf : list A) : list A :=
  take off buf ++ src ++ drop (off + length src) buf.

(** The particle is inside the selection: it is inserted with [po]. *)
Definition tagged (a : args) (p : voro.particle) : Prop :=
  start a <= voro.p_id p < end_ a.

Global Instance tagged_dec (a : args) (p : voro.particle) : Decision (tagged a p).
Proof. unfold tagged. apply _. Defined.

(** The particle sits where [points] says. *)
Definition positioned (a : args) (p : voro.particle) : Prop :=
  0 <= voro.p_id p
  /\ voro.p_id p * 3 + 2 <= INT_MAX
  /\ points a !! Z.to_nat (voro.p_id p * 3) = Some (voro.p_x p)
  /\ points a !! Z.to_nat (voro.p_id p * 3 + 1) = Some (voro.p_y p)
  /\ points a !! Z.to_nat (voro.p_id p * 3 + 2) = Some (voro.p_z p).

(** Two containers differ only by their particles. *)
Definition same_setup (c c' : voro.container) : Prop :=
  voro.ax c' = voro.ax c /\ voro.bx c' = voro.bx c
  /\ voro.ay c' = voro.ay c /\ voro.by_ c' = voro.by_ c
  /\ voro.az c' = voro.az c /\ voro.bz c' = voro.bz c
  /\ voro.nx c' = voro.nx c /\ voro.ny c' = voro.ny c /\ voro.nz c' = voro.nz c
  /\ voro.walls c' = voro.walls c.


(** What the loop derives from one cell: the neighbour ids, the volume,
    the vertex coordinates and the two corners of the bounding box. *)
Record cell_result := {
  cr_neighbors : list Z;
  cr_volume : double;
  cr_vertices : list double;
  cr_min : arr3;
  cr_max : arr3
}.

Definition cell_of {E : voro.engine} (con : voro.container) (p : voro.particle)
  : result cell_result :=
  do c <- match voro.compute_cell con p with
          | inl what => Throw what
          | inr c => Ok c
          end;
  let v := voro.vertices c (voro.p_x p) (voro.p_y p) (voro.p_z p) in
  do (mn, mx) <- bounding_box v;
  Ok {| cr_neighbors := voro.neighbors c; cr_volume := voro.volume c;
        cr_vertices := v; cr_min := mn; cr_max := mx |}.

(** [f] on each element in turn, stopping at the first failure. *)
Fixpoint map_result {A B} (f : A -> result B) (l : list A) : result (list B) :=
  match l with
  | [] => Ok []
  | x :: l' => do y <- f x; do ys <- map_result f l'; Ok (y :: ys)
  end.

(** The loop's variables after the results [rs] are stored from slot [k]
    on. *)
Definition store_cells (a : args) (k : nat) (rs : list cell_result) (s : cells) : cells :=
  {| n_list := overwrite k (cr_neighbors <$> rs) (n_list s);
     vertices_list := if with_vertices a =? 0 then vertices_list s
                      else overwrite k (cr_vertices <$> rs) (vertices_list s);
     vols := overwrite k (cr_volume <$> rs) (vols s);
     bb_m := overwrite (k * 3) (concat ((fun r => list3 (cr_min r)) <$> rs)) (bb_m s);
     bb_M := overwrite (k * 3) (concat ((fun r => list3 (cr_max r)) <$> rs)) (bb_M s);
     tmp_v := if with_vertices a =? 0
              then default (tmp_v s) (last (cr_vertices <$> rs))
              else tmp_v s |}.

(** A row, followed by [pad] up to [width] slots. *)
Definition pad_row {T} (width : nat) (pad : T) (row : list T) : list T :=
  row ++ replicate (width - length row) pad.

(** The padded rows, one after the other. *)
Definition padded {T} (width : nat) (pad : T) (rows : list (list T)) : list T :=
  concat (pad_row width pad <$> rows).

(** Every row offset [width * idx], [idx < ncells], fits an [int]. *)
Definition offsets_fit (width : nat) (ncells : nat) : bool :=
  forallb (fun idx => int_range (Z.of_nat width * idx)) (seqZ 0 (Z.of_nat ncells)).

(** The loop's variables once every slot holds the result of its cell. *)
Definition cells_full (a : args) (rs : list cell_result) : cells :=
  {| n_list := cr_neighbors <$> rs;
     vertices_list := if with_vertices a =? 0 then [] else cr_vertices <$> rs;
     vols := cr_volume <$> rs;
     bb_m := concat ((fun r => list3 (cr_min r)) <$> rs);
     bb_M := concat ((fun r => list3 (cr_max r)) <$> rs);
     tmp_v := if with_vertices a =? 0
              then default [] (last (cr_vertices <$> rs))
              else [] |}.

(** [m] is the length of the longest row. *)
Definition widest {T} (m : nat) (rows : list (list T)) : Prop :=
  (exists row, row ∈ rows /\ length row = m)
  /\ forall row, row ∈ rows -> (length row <= m)%nat.

(** ** Walls and observations used in the statements *)

(** The wall the arguments ask for, if any. *)
Definition requested_wall (wall_str : string) (wall_args_arr : list double)
  : option voro.wall :=
  if String.eqb wall_str "sphere" then
    match wall_args_arr with
    | [a0; a1; a2; a3] => Some (voro.wall_sphere a0 a1 a2 a3)
    | _ => None
    end
  else if String.eqb wall_str "cylinder" then
    match wall_args_arr with
    | [a0; a1; a2; a3; a4; a5; a6] => Some (voro.wall_cylinder a0 a1 a2 a3 a4 a5 a6)
    | _ => None
    end
  else None.

(** The arguments name a wall type and its parameters are refused. *)
Definition bad_wall (wall_str : string) (wall_args_arr : list double) (n_wall_args : Z)
  : Prop :=
  (wall_str = "sphere"%string
   /\ (n_wall_args <> 4
       \/ exists r, wall_args_arr !! 3%nat = Some r /\ leb r zero = true))
  \/ (wall_str = "cylinder"%string
      /\ (n_wall_args <> 7
          \/ exists r, wall_args_arr !! 6%nat = Some r /\ leb r zero = true)).

(** The four [std::invalid_argument] messages of [add_walls]. *)
Definition invalid_argument_messages : list string :=
  [ "invalid number of arguments for a 'sphere' wall, exactly 4 are needed";
    "the radius of a 'sphere' wall must be strictly positive";
    "invalid number of arguments for a 'cylinder' wall, exactly 7 are needed";
    "the radius of a 'cylinder' wall must be strictly positive" ]%string.

(** The outputs the caller asked for: without [with_vertices] the vertex
    array is not one of them. *)
Definition requested (a : args) (o : outputs) : outputs :=
  {| neighbours := neighbours o; max_nn := max_nn o; volumes := volumes o;
     bb_min := bb_min o; bb_max := bb_max o;
     vertices := if with_vertices a =? 0 then [] else vertices o;
     max_nv := max_nv o |}.

(** What the caller observes of a call: the outputs it asked for, or the
    text behind the returned pointer. *)
Inductive observation : Type :=
  | Succeeded (o : outputs)
  | Failed (text : string)
  | Undetermined.

Definition observe_block (a : args) (r : outcome unit) : observation :=
  match r with
  | Done _ w => Succeeded (requested a (out w))
  | Thrown what _ => Failed what
  | Crashed => Undetermined
  end.


Definition observe (a : args) (c : call) : observation :=
  match c with
  | Returned NULL w => Succeeded (requested a (out w))
  | Returned error_message_c_str w => Failed (error_message (globals w))
  | UndefinedBehaviour => Undetermined
  end.

(** The container with the wall the arguments ask for attached. *)
Definition attach (wl : option voro.wall) (con : voro.container) : voro.container :=
  match wl with
  | Some wl => voro.add_wall con wl
  | None => con
  end.

(** The world after [add_walls] has built the wall [wl], if any. *)
Definition keep_wall (wl : option voro.wall) (w : world) : world :=
  match wl with
  | Some wl => set_wall_ptr wl w
  | None => w
  end.

(** A script in which the cell of particle 1 has no vertex. *)
Definition degenerate_cells : Sample.script :=
  [ ([1; -1; -3; -5], Sample.d 8,
     [Sample.d 0; Sample.d 0; Sample.d 0;  Sample.d 2; Sample.d 2; Sample.d 2]);
    ([0; -2], Sample.d 0, []) ].

(** What the caller observes of the call, from what the [try] block did:
    the [catch] clause wraps the text of the exception. *)
Definition reported (o : observation) : observation :=
  match o with
  | Failed what => Failed (what_message what)
  | _ => o
  end.

(** Three particles in a box of edge [2^-400], whose volume [2^-1200] is
    below the smallest positive double. *)
Definition tiny_domain : args :=
  {| start := 0; end_ := 3;
     xmin := zero; xmax := dyadic 1 (-400);
     ymin := zero; ymax := dyadic 1 (-400);
     zmin := zero; zmax := dyadic 1 (-400);
     points := [dyadic 1 (-402); dyadic 1 (-402); dyadic 1 (-402);
                dyadic 2 (-402); dyadic 2 (-402); dyadic 2 (-402);
                dyadic 3 (-402); dyadic 3 (-402); dyadic 3 (-402)];
     nsites := 3; with_vertices := 0;
     wall_str := EmptyString; wall_args_arr := []; n_wall_args := 0; verbose := 0 |}.

(** ** The last part of the [try] block, used in the statements *)

(** The [try] block from the computation of [max_nn] on (lines 224-265),
    for the variables [cs] the loop has left. *)
Definition packing (h : heap) (a : args) (cs : cells) : M unit :=
  let ncells := end_ a - start a in
  step mnn <- pure (max_size (n_list cs));
  step _ <- assign_max_nn mnn;
  let neighs0 := malloc (junk_neighs h) (ncells * mnn) in
  step neighs <- pure (pack (n_list cs) ncells mnn (-10) neighs0);
  step _ <-
    (if with_vertices a =? 0 then assign_max_nv 0
     else
       step mnv <- pure (max_size (vertices_list cs));
       step _ <- assign_max_nv mnv;
       let verts0 := malloc (junk_verts h) (ncells * mnv) in
       step verts <- pure (pack (vertices_list cs) ncells mnv nan verts0);
       assign_vertices verts);
  step _ <- assign_volumes (vols cs);
  step _ <- assign_bb_min (bb_m cs);
  step _ <- assign_bb_max (bb_M cs);
  assign_neighbours neighs.

(** The radius of a wall: its last parameter. *)
Definition radius (wl : voro.wall) : double :=
  match wl with
  | voro.wall_sphere _ _ _ rc => rc
  | voro.wall_cylinder _ _ _ _ _ _ rc => rc
  end.

(** The arguments with another [verbose] flag. *)
Definition with_verbose (v : Z) (a : args) : args :=
  {| start := start a; end_ := end_ a;
     xmin := xmin a; xmax := xmax a; ymin := ymin a; ymax := ymax a;
     zmin := zmin a; zmax := zmax a;
     points := points a; nsites := nsites a; with_vertices := with_vertices a;
     wall_str := wall_str a; wall_args_arr := wall_args_arr a;
     n_wall_args := n_wall_args a; verbose := v |}.

(** ** Allocated blocks and [ptr_raii] (lines 26-54) *)

(** A pointer to a block obtained from [malloc]: the number of the block,
    or null. *)
Abbreviation pointer := (option nat).

(** The blocks obtained from [malloc] and not given to [free] yet. *)
Abbreviation blocks := (list nat).

(** [std::malloc]: a block that is not allocated; which one does not
    matter to what follows. The allocation is assumed to succeed. *)
Definition std_malloc (m : blocks) : pointer * blocks :=
  let b := S (max_list m) in (Some b, b :: m).

(** [std::free(p)] for a pointer that is not null: undefined when the
    block is not allocated. *)
Definition std_free (b : nat) (m : blocks) : option blocks :=
  if decide (b ∈ m) then Some (filter (fun b' => b' <> b) m) else None.

(** Simple smart pointer that uses [std::free] to deallocate. *)
Record ptr_raii := { m_ptr : pointer }.

(** [explicit ptr_raii(T *ptr):m_ptr(ptr) {}] *)
Definition ptr_raii_new (ptr : pointer) : ptr_raii := {| m_ptr := ptr |}.

(** [~ptr_raii()]: [if (m_ptr) std::free(m_ptr);] *)
Definition ptr_raii_delete (p : ptr_raii) (m : blocks) : option blocks :=
  match m_ptr p with
  | Some b => std_free b m
  | None => Some m
  end.

(** [T *release()]: the pointer held, and the object holding null. *)
Definition release (p : ptr_raii) : pointer * ptr_raii :=
  let retval := m_ptr p in
  (retval, {| m_ptr := None |}).

(** [T *get()] *)
Definition get (p : ptr_raii) : pointer := m_ptr p.

(** ** The wrapper with its [ptr_raii] objects *)

(** The five [ptr_raii] variables of the [try] block. *)
Inductive local : Type := vols_ | bb_m_ | bb_M_ | neighs_ | verts_.

Global Instance local_eq_dec : EqDecision local.
Proof. solve_decision. Defined.

(** What the caller's [*neighbours], [*volumes], [*bb_min], [*bb_max] and
    [*vertices] point to. *)
Record handed := {
  neighbours_ptr : pointer;
  volumes_ptr : pointer;
  bb_min_ptr : pointer;
  bb_max_ptr : pointer;
  vertices_ptr : pointer
}.

(** The assignment [*out = x.release()] for each of the five. *)
Definition assign_ptr (x : local) (ptr : pointer) (c : handed) : handed :=
  match x with
  | vols_ =>
      {| neighbours_ptr := neighbours_ptr c; volumes_ptr := ptr;
         bb_min_ptr := bb_min_ptr c; bb_max_ptr := bb_max_ptr c;
         vertices_ptr := vertices_ptr c |}
  | bb_m_ =>
      {| neighbours_ptr := neighbours_ptr c; volumes_ptr := volumes_ptr c;
         bb_min_ptr := ptr; bb_max_ptr := bb_max_ptr c;
         vertices_ptr := vertices_ptr c |}
  | bb_M_ =>
      {| neighbours_ptr := neighbours_ptr c; volumes_ptr := volumes_ptr c;
         bb_min_ptr := bb_min_ptr c; bb_max_ptr := ptr;
         vertices_ptr := vertices_ptr c |}
  | neighs_ =>
      {| neighbours_ptr := ptr; volumes_ptr := volumes_ptr c;
         bb_min_ptr := bb_min_ptr c; bb_max_ptr := bb_max_ptr c;
         vertices_ptr := vertices_ptr c |}
  | verts_ =>
      {| neighbours_ptr := neighbours_ptr c; volumes_ptr := volumes_ptr c;
         bb_min_ptr := bb_min_ptr c; bb_max_ptr := bb_max_ptr c;
         vertices_ptr := ptr |}
  end.

(** The state of a call: the world, the allocated blocks, the [ptr_raii]
    objects in scope, the last constructed first, and the caller's
    pointers. *)
Record ostate := {
  o_world : world;
  allocated : blocks;
  scope : list (local * ptr_raii);
  caller : handed
}.

Inductive ooutcome (A : Type) : Type :=
  | ODone (a : A) (s : ostate)
  | OThrown (what : string) (s : ostate)
  | OCrashed.

Arguments ODone {A} a s.
Arguments OThrown {A} what s.
Arguments OCrashed {A}.

Definition MO (A : Type) : Type := ostate -> ooutcome A.

Definition obind {A B} (c : MO A) (k : A -> MO B) : MO B :=
  fun s =>
    match c s with
    | ODone a s' => k a s'
    | OThrown what s' => OThrown what s'
    | OCrashed => OCrashed
    end.

Notation "'run' x <- c ; k" := (obind c (fun x => k))
  (at level 10, x pattern, c at level 100, k at level 200).

Definition with_world (w : world) (s : ostate) : ostate :=
  {| o_world := w; allocated := allocated s; scope := scope s; caller := caller s |}.

(** A step of the wrapper that involves no [ptr_raii]. *)
Definition lift {A} (c : M A) : MO A :=
  fun s =>
    match c (o_world s) with
    | Done a w => ODone a (with_world w s)
    | Thrown what w => OThrown what (with_world w s)
    | Crashed => OCrashed
    end.

(** [ptr_raii<T> x(static_cast<T *>(std::malloc(...)));] *)
Definition construct (x : local) : MO unit :=
  fun s =>
    let (ptr, m) := std_malloc (allocated s) in
    ODone tt {| o_world := o_world s; allocated := m;
                scope := (x, ptr_raii_new ptr) :: scope s; caller := caller s |}.

(** The object of the variable [x], with [f] applied to it. *)
Fixpoint update_local (x : local) (f : ptr_raii -> ptr_raii)
    (sc : list (local * ptr_raii)) : list (local * ptr_raii) :=
  match sc with
  | [] => []
  | (y, p) :: sc' =>
      if decide (y = x) then (y, f p) :: sc' else (y, p) :: update_local x f sc'
  end.

Fixpoint find_local (x : local) (sc : list (local * ptr_raii)) : option ptr_raii :=
  match sc with
  | [] => None
  | (y, p) :: sc' => if decide (y = x) then Some p else find_local x sc'
  end.

(** [*out = x.release();] *)
Definition release_to (x : local) : MO unit :=
  fun s =>
    match find_local x (scope s) with
    | Some p =>
        ODone tt {| o_world := o_world s; allocated := allocated s;
                    scope := update_local x (fun p => (release p).2) (scope s);
                    caller := assign_ptr x (release p).1 (caller s) |}
    | None => OCrashed
    end.

(** The end of the block in which the last object was constructed: its
    destructor runs. *)
Definition leave_block : MO unit :=
  fun s =>
    match scope s with
    | (_, p) :: sc =>
        match ptr_raii_delete p (allocated s) with
        | Some m => ODone tt {| o_world := o_world s; allocated := m; scope := sc;
                                caller := caller s |}
        | None => OCrashed
        end
    | [] => OCrashed
    end.

(** The destructors of the objects in scope, the last constructed first:
    what happens when the [try] block is left, by [return] or by an
    exception. *)
Fixpoint unwind (sc : list (local * ptr_raii)) (m : blocks) : option blocks :=
  match sc with
  | [] => Some m
  | (_, p) :: sc' =>
      match ptr_raii_delete p m with
      | Some m' => unwind sc' m'
      | None => None
      end
  end.

Section Owned.
Context {P : Platform} {E : voro.engine}.

(** The body of the [try] block (lines 120-265) with the five [ptr_raii]
    objects: the steps are those of [try_block]. *)
Definition try_block_owned (h : heap) (a : args) : MO unit :=
  run (nx, ny, nz) <-
    lift (pure (defined (grid_resolution (nsites a) (xmin a) (xmax a)
                           (ymin a) (ymax a) (zmin a) (zmax a))));
  run ncells <- lift (pure (defined (checked (end_ a - start a))));
  run n_list0 <- lift (pure (vector_n length_error_what ncells []));
  run vertices_list0 <-
    lift (pure (if with_vertices a =? 0 then Ok []
                else vector_n length_error_what ncells []));
  (* Volumes. *)
  run _ <- construct vols_;
  let vols0 := malloc (junk_vols h) ncells in
  (* Bounding boxes. *)
  run _ <- construct bb_m_;
  let bb_m0 := malloc (junk_bb_m h) (ncells * 3) in
  run _ <- construct bb_M_;
  let bb_M0 := malloc (junk_bb_M h) (ncells * 3) in
  let con := voro.container_new (xmin a) (xmax a) (ymin a) (ymax a)
               (zmin a) (zmax a) nx ny nz false false false 8 in
  run (con, po) <- lift (pure (populate a con));
  run con <- lift (add_walls con (wall_str a) (wall_args_arr a) (n_wall_args a)
                     (verbose a));
  run cs <-
    lift (pure (cell_loop a con po
                  {| n_list := n_list0; vertices_list := vertices_list0;
                     vols := vols0; bb_m := bb_m0; bb_M := bb_M0; tmp_v := [] |}));
  run mnn <- lift (pure (max_size (n_list cs)));
  run _ <- lift (assign_max_nn mnn);
  (* Allocate space for flat array of neighbours. *)
  run _ <- construct neighs_;
  let neighs0 := malloc (junk_neighs h) (ncells * mnn) in
  run neighs <- lift (pure (pack (n_list cs) ncells mnn (-10) neighs0));
  run _ <-
    (if with_vertices a =? 0 then lift (assign_max_nv 0)
     else
       run mnv <- lift (pure (max_size (vertices_list cs)));
       run _ <- lift (assign_max_nv mnv);
       (* Allocate space for flat array of vertices. *)
       run _ <- construct verts_;
       let verts0 := malloc (junk_verts h) (ncells * mnv) in
       run verts <- lift (pure (pack (vertices_list cs) ncells mnv nan verts0));
       (* Assign the output quantity. *)
       run _ <- release_to verts_;
       run _ <- lift (assign_vertices verts);
       leave_block);
  (* Assign the output quantities. *)
  run _ <- release_to vols_;
  run _ <- lift (assign_volumes (vols cs));
  run _ <- release_to bb_m_;
  run _ <- lift (assign_bb_min (bb_m cs));
  run _ <- release_to bb_M_;
  run _ <- lift (assign_bb_max (bb_M cs));
  run _ <- release_to neighs_;
  lift (assign_neighbours neighs).

(** What a call leaves: the value returned, the world, the blocks still
    allocated and the caller's pointers. *)
Inductive ocall : Type :=
  | OReturned (r : retval) (w : world) (m : blocks) (c : handed)
  | OUndefined.

(** [hyperion_voropp_wrap] with its [ptr_raii] objects: the [try] block is
    left through the destructors of the objects in scope. *)
Definition hyperion_voropp_wrap_owned (h : heap) (a : args) (w : world) (m : blocks)
    (c : handed) : ocall :=
  match try_block_owned h a
          {| o_world := w; allocated := m; scope := []; caller := c |} with
  | ODone _ s =>
      match unwind (scope s) (allocated s) with
      | Some m' => OReturned NULL (o_world s) m' (caller s)
      | None => OUndefined
      end
  | OThrown what s =>
      match unwind (scope s) (allocated s) with
      | Some m' =>
          OReturned error_message_c_str
            (set_error_message (what_message what) (o_world s)) m' (caller s)
      | None => OUndefined
      end
  | OCrashed => OUndefined
  end.

End Owned.

(** The caller's pointers before a call of the examples. *)
Definition no_pointers : handed :=
  {| neighbours_ptr := None; volumes_ptr := None; bb_min_ptr := None;
     bb_max_ptr := None; vertices_ptr := None |}.

(** The allocated blocks after [k] more calls of [std_malloc], and the
    pointer the call after them returns. *)
Fixpoint after_mallocs (k : nat) (m : blocks) : blocks :=
  match k with
  | O => m
  | S k' => (std_malloc (after_mallocs k' m)).2
  end.

Definition next_malloc (k : nat) (m : blocks) : pointer :=
  (std_malloc (after_mallocs k m)).1.

(** ** Variations of the arguments used in the statements *)

(** The arguments with another selection. *)
Definition with_selection (s e : Z) (a : args) : args :=
  {| start := s; end_ := e;
     xmin := xmin a; xmax := xmax a; ymin := ymin a; ymax := ymax a;
     zmin := zmin a; zmax := zmax a;
     points := points a; nsites := nsites a; with_vertices := with_vertices a;
     wall_str := wall_str a; wall_args_arr := wall_args_arr a;
     n_wall_args := n_wall_args a; verbose := verbose a |}.

(** The arguments with another vertex flag. *)
Definition with_vertices_flag (v : Z) (a : args) : args :=
  {| start := start a; end_ := end_ a;
     xmin := xmin a; xmax := xmax a; ymin := ymin a; ymax := ymax a;
     zmin := zmin a; zmax := zmax a;
     points := points a; nsites := nsites a; with_vertices := v;
     wall_str := wall_str a; wall_args_arr := wall_args_arr a;
     n_wall_args := n_wall_args a; verbose := verbose a |}.

(** ** Further engines used in the examples *)



(** One cell whose first vertex has a NaN coordinate. *)
Definition nan_cells : Sample.script :=
  [ ([-1; -2], Sample.d 8,
     [nan; Sample.d 3; Sample.d 2;  Sample.d 3; Sample.d 1; Sample.d 2]) ].

(** ** Predicates on triples of doubles used in the statements *)

(** The three components are numbers (no NaN). *)
Definition number3 (t : arr3) : Prop :=
  let '(t0, t1, t2) := t in
  is_nan t0 = false /\ is_nan t1 = false /\ is_nan t2 = false.

(** Componentwise [<=]. *)
Definition le3 (a b : arr3) : Prop :=
  let '(a0, a1, a2) := a in
  let '(b0, b1, b2) := b in
  leb a0 b0 = true /\ leb a1 b1 = true /\ leb a2 b2 = true.


(** * Properties *)

(** ** Doubles: signs and integer parts *)

Lemma binary_round_aux_sign (s : bool) (m e : Z) (l : location) :
  match binary_round_aux prec emax s m e l with
  | S754_nan => True
  | S754_zero s' | S754_infinity s' | S754_finite s' _ _ => s' = s
  end.
Proof.
  unfold binary_round_aux.
  destruct (shr_fexp prec emax m e l) as [mrs' e'].
  destruct (shr_fexp prec emax _ e' loc_Exact) as [mrs'' e''].
  destruct (shr_m mrs'') as [|q|q]; [reflexivity| |exact I].
  destruct (Z.leb e'' (Z.sub emax prec)); reflexivity.
Qed.

Lemma binary_round_aux_sign_clear (m e : Z) (l : location) :
  sign_clear (binary_round_aux prec emax false m e l).
Proof.
  pose proof (binary_round_aux_sign false m e l) as H.
  unfold sign_clear. destruct (binary_round_aux prec emax false m e l); exact H.
Qed.

Lemma mul_sign_clear (x y : double) :
  sign_clear x -> sign_clear y -> sign_clear (mul x y).
Proof.
  destruct x as [sx|sx| |sx mx ex], y as [sy|sy| |sy my ey];
    simpl; intros Hx Hy; subst; try exact I; try reflexivity.
  apply binary_round_aux_sign_clear.
Qed.

Lemma div_sign_clear (x y : double) :
  sign_clear x -> sign_clear y -> sign_clear (div x y).
Proof.
  destruct x as [sx|sx| |sx mx ex], y as [sy|sy| |sy my ey];
    simpl; intros Hx Hy; subst; try exact I; try reflexivity.
  unfold div, SFdiv.
  destruct (SFdiv_core_binary prec emax (Zpos mx) ex (Zpos my) ey) as [[mz ez] lz].
  apply binary_round_aux_sign_clear.
Qed.

Lemma of_int_sign_clear (n : Z) : 0 <= n -> sign_clear (of_int n).
Proof.
  intros Hn. unfold of_int, binary_normalize.
  destruct n as [|q|q]; [reflexivity| |lia].
  unfold binary_round.
  destruct (shl_align q 0 _) as [mz ez].
  apply binary_round_aux_sign_clear.
Qed.

Lemma positive_sign_clear (x : double) : ltb zero x = true -> sign_clear x.
Proof.
  destruct x as [s|s| |s m e]; simpl; try discriminate; try (intros; exact I);
    destruct s; simpl; try discriminate; reflexivity.
Qed.

Lemma trunc_floor (x : double) : sign_clear x -> trunc x = floor x.
Proof.
  destruct x as [s|s| |s m e]; simpl; try reflexivity.
  intros ->. reflexivity.
Qed.

Lemma trunc_nonneg (x : double) (t : Z) :
  sign_clear x -> trunc x = Some t -> 0 <= t.
Proof.
  destruct x as [s|s| |s m e]; simpl; try discriminate.
  - intros _ [= <-]. lia.
  - intros -> [= <-]. apply Z.shiftl_nonneg. lia.
Qed.

(** The integer part of a zero is zero, and a finite value times a zero
    is a zero. *)
Lemma trunc_mul_zero (q : double) (s : bool) (t : Z) :
  trunc (mul q (S754_zero s)) = Some t -> t = 0.
Proof.
  destruct q as [sq|sq| |sq mq eq]; simpl; try discriminate; intros [= <-]; reflexivity.
Qed.

(** ** The reference cube root keeps the sign *)

Lemma cbrt_ref_sign_clear (x : double) :
  sign_clear x -> sign_clear (Sample.cbrt_ref x).
Proof.
  destruct x as [s|s| |s m e]; simpl; try (intros H; exact H).
  intros ->. apply binary_round_aux_sign_clear.
Qed.

(** ** Grid sizing *)

Section GridFacts.
Context {P : Platform}.

Lemma grid_axis_floor_eq (extent ve be : double) :
  sign_clear extent -> sign_clear ve -> sign_clear be ->
  grid_axis extent ve be = grid_axis_floor extent ve be.
Proof.
  intros He Hv Hb. unfold grid_axis, grid_axis_floor, double_to_int, floor_to_int.
  rewrite trunc_floor; [reflexivity|].
  apply mul_sign_clear; [apply div_sign_clear|]; assumption.
Qed.

Lemma grid_axis_at_least_one (extent ve be : double) (n : Z) :
  sign_clear extent -> sign_clear ve -> sign_clear be ->
  grid_axis extent ve be = Some n -> 1 <= n.
Proof.
  intros He Hv Hb. unfold grid_axis, double_to_int.
  destruct (trunc _) as [t|] eqn:Ht; [|discriminate].
  apply trunc_nonneg in Ht;
    [|apply mul_sign_clear; [apply div_sign_clear|]; assumption].
  unfold checked. destruct (int_range t); [|discriminate].
  destruct (int_range (t + 1)); [|discriminate].
  intros [= <-]. lia.
Qed.

Lemma grid_axis_zero_edge (extent ve : double) (s : bool) (n : Z) :
  grid_axis extent ve (S754_zero s) = Some n -> n = 1.
Proof.
  unfold grid_axis, double_to_int.
  destruct (trunc _) as [t|] eqn:Ht; [|discriminate].
  apply trunc_mul_zero in Ht. subst t. cbn. intros [= <-]. reflexivity.
Qed.
End GridFacts.

(** C7. The grid resolution is computed by [nblocks = nsites / particle_block]
    with [particle_block = 5], [block_edge = cbrt(nblocks)],
    [vol_edge = cbrt((xmax-xmin)(ymax-ymin)(zmax-zmin))] and, on each axis,
    [n_axis = floor(axis_extent / vol_edge * block_edge) + 1]: for a site
    count that is not negative and a domain whose three extents are
    positive, the conversion to [int] written in the source is the floor of
    the design document, given that [cbrt] keeps a clear sign bit. *)
Theorem grid_resolution_formula {P : Platform} (nsites : Z)
    (xmin xmax ymin ymax zmin zmax : double) :
  0 <= nsites ->
  ltb zero (sub xmax xmin) = true ->
  ltb zero (sub ymax ymin) = true ->
  ltb zero (sub zmax zmin) = true ->
  (forall x, sign_clear x -> sign_clear (cbrt x)) ->
  particle_block = of_int 5 /\
  nblocks nsites = div (of_int nsites) particle_block /\
  block_edge nsites = cbrt (nblocks nsites) /\
  vol_edge xmin xmax ymin ymax zmin zmax
    = cbrt (mul (mul (sub xmax xmin) (sub ymax ymin)) (sub zmax zmin)) /\
  grid_resolution nsites xmin xmax ymin ymax zmin zmax
    = grid_resolution_floor nsites xmin xmax ymin ymax zmin zmax.
Proof.
  intros Hn Hx Hy Hz Hc.
  repeat (split; [reflexivity|]).
  apply positive_sign_clear in Hx, Hy, Hz.
  assert (Hbe : sign_clear (block_edge nsites)).
  { apply Hc, div_sign_clear; apply of_int_sign_clear; lia. }
  assert (Hve : sign_clear (vol_edge xmin xmax ymin ymax zmin zmax)).
  { apply Hc. repeat apply mul_sign_clear; assumption. }
  unfold grid_resolution, grid_resolution_floor.
  cbv zeta. rewrite !grid_axis_floor_eq by assumption.
  unfold block_edge, vol_edge, nblocks, particle_block.
  repeat match goal with
         | |- context [match grid_axis_floor ?e ?v ?b with _ => _ end] =>
             destruct (grid_axis_floor e v b)
         end; reflexivity.
Qed.

Lemma grid_resolution_formula_witness :
  let P := Sample.platform in
  let d := Sample.d in
  (0 <= 1000
   /\ ltb zero (sub (d 4) (d 0)) = true
   /\ ltb zero (sub (d 8) (d 0)) = true
   /\ ltb zero (sub (d 4) (d 0)) = true)
  /\ grid_resolution 1000 (d 0) (d 4) (d 0) (d 8) (d 0) (d 4) = Some (5, 10, 5)
  /\ grid_resolution 1000 (d 0) (d 4) (d 0) (d 8) (d 0) (d 4)
     = grid_resolution_floor 1000 (d 0) (d 4) (d 0) (d 8) (d 0) (d 4).
Proof.
  cbv zeta.
  split; [repeat split; first [lia | reflexivity]|].
  split; [vm_compute; reflexivity|].
  apply (@grid_resolution_formula Sample.platform 1000
           (Sample.d 0) (Sample.d 4) (Sample.d 0) (Sample.d 8) (Sample.d 0) (Sample.d 4));
    first [lia | reflexivity | exact cbrt_ref_sign_clear].
Defined.

(** For a site count that is not negative and a domain whose three
    extents are positive, whenever the three conversions to [int] are
    defined each of [nx], [ny], [nz] is at least 1; with no site at all
    each of them is exactly 1. *)
Theorem grid_resolution_at_least_one {P : Platform} (nsites : Z)
    (xmin xmax ymin ymax zmin zmax : double) (nx ny nz : Z) :
  0 <= nsites ->
  ltb zero (sub xmax xmin) = true ->
  ltb zero (sub ymax ymin) = true ->
  ltb zero (sub zmax zmin) = true ->
  (forall x, sign_clear x -> sign_clear (cbrt x)) ->
  cbrt zero = zero ->
  grid_resolution nsites xmin xmax ymin ymax zmin zmax = Some (nx, ny, nz) ->
  (1 <= nx /\ 1 <= ny /\ 1 <= nz)
  /\ (nsites = 0 -> nx = 1 /\ ny = 1 /\ nz = 1).
Proof.
  intros Hn Hx Hy Hz Hc Hc0 Hg.
  apply positive_sign_clear in Hx, Hy, Hz.
  assert (Hbe : sign_clear (block_edge nsites)).
  { apply Hc, div_sign_clear; apply of_int_sign_clear; lia. }
  assert (Hve : sign_clear (vol_edge xmin xmax ymin ymax zmin zmax)).
  { apply Hc. repeat apply mul_sign_clear; assumption. }
  unfold grid_resolution in Hg.
  destruct (grid_axis (sub xmax xmin) _ _) as [nx'|] eqn:Ex; [|discriminate].
  destruct (grid_axis (sub ymax ymin) _ _) as [ny'|] eqn:Ey; [|discriminate].
  destruct (grid_axis (sub zmax zmin) _ _) as [nz'|] eqn:Ez; [|discriminate].
  injection Hg as <- <- <-.
  split.
  - pose proof (grid_axis_at_least_one _ _ _ _ Hx Hve Hbe Ex).
    pose proof (grid_axis_at_least_one _ _ _ _ Hy Hve Hbe Ey).
    pose proof (grid_axis_at_least_one _ _ _ _ Hz Hve Hbe Ez).
    lia.
  - intros ->.
    assert (Hb0 : block_edge 0 = S754_zero false) by exact Hc0.
    rewrite Hb0 in Ex, Ey, Ez.
    apply grid_axis_zero_edge in Ex, Ey, Ez. lia.
Qed.

Lemma grid_resolution_at_least_one_witness :
  let P := Sample.platform in
  let d := Sample.d in
  (0 <= 1000
   /\ ltb zero (sub (d 4) (d 0)) = true
   /\ ltb zero (sub (d 8) (d 0)) = true
   /\ ltb zero (sub (d 4) (d 0)) = true
   /\ cbrt zero = zero
   /\ grid_resolution 1000 (d 0) (d 4) (d 0) (d 8) (d 0) (d 4) = Some (5, 10, 5))
  /\ (1 <= 5 /\ 1 <= 10 /\ 1 <= 5)
  /\ (1000 = 0 -> 5 = 1 /\ 10 = 1 /\ 5 = 1).
Proof.
  cbv zeta.
  split; [repeat split; first [lia | reflexivity | vm_compute; reflexivity]|].
  apply (@grid_resolution_at_least_one Sample.platform 1000
           (Sample.d 0) (Sample.d 4) (Sample.d 0) (Sample.d 8) (Sample.d 0) (Sample.d 4));
    first [lia | reflexivity | exact cbrt_ref_sign_clear | vm_compute; reflexivity].
Defined.

(** C8. The comment of lines 131-133 says of the [+ 1] that it makes sure
    that there is always at least 1 block, and so does the design. The
    code does not achieve it: with an axis of extent 0 the volume is 0, so
    is its cube root, and the quotient [0 / 0] on that axis is a NaN whose
    conversion to [int] is undefined, before the [+ 1] is reached: no grid
    size comes out, let alone 1. The same happens on a domain with
    positive extents whose volume underflows to 0 (here [2^-400] on each
    axis). *)
Lemma grid_resolution_zero_extent :
  mul (div (sub (Sample.d 0) (Sample.d 0))
           (@vol_edge Sample.platform (Sample.d 0) (Sample.d 0) (Sample.d 0) (Sample.d 4)
              (Sample.d 0) (Sample.d 4)))
      (@block_edge Sample.platform 10) = nan
  /\ @grid_resolution Sample.platform 10 (Sample.d 0) (Sample.d 0) (Sample.d 0) (Sample.d 4)
       (Sample.d 0) (Sample.d 4) = None
  /\ ltb zero (sub (dyadic 1 (-400)) (Sample.d 0)) = true
  /\ @grid_resolution Sample.platform 10 (Sample.d 0) (dyadic 1 (-400))
       (Sample.d 0) (dyadic 1 (-400)) (Sample.d 0) (dyadic 1 (-400)) = None.
Proof. vm_compute. repeat split; reflexivity. Qed.

(** ** Doubles: the order on values that are not NaN *)

Lemma compare_key (x y : double) :
  is_nan x = false -> is_nan y = false ->
  (ltb x y = true <-> lex_lt (key x) (key y))
  /\ (leb x y = true <-> lex_le (key x) (key y)).
Proof.
  intros Hx Hy.
  destruct x as [sx|sx| |sx mx ex]; try discriminate;
    destruct y as [sy|sy| |sy my ey]; try discriminate;
    unfold ltb, leb, SFltb, SFleb, SFcompare, key, lex_lt, lex_le;
    try (destruct sx); try (destruct sy);
    try (split; split; intros; first [discriminate | lia | reflexivity]).
  - change (Pos.compare_cont Eq mx my) with (Pos.compare mx my).
    destruct (Z.compare_spec ex ey); destruct (Pos.compare_spec mx my); simpl;
     split; split; intros; first [discriminate | lia | reflexivity].
  - change (Pos.compare_cont Eq mx my) with (Pos.compare mx my).
    destruct (Z.compare_spec ex ey); destruct (Pos.compare_spec mx my); simpl;
     split; split; intros; first [discriminate | lia | reflexivity].
Qed.

Lemma leb_refl (x : double) : is_nan x = false -> leb x x = true.
Proof.
  intros Hx. apply (compare_key x x Hx Hx).
  unfold lex_le. destruct (key x) as [[a b] c]. lia.
Qed.

Lemma ltb_leb (x y : double) :
  is_nan x = false -> is_nan y = false -> ltb x y = true -> leb x y = true.
Proof.
  intros Hx Hy H. apply (compare_key x y Hx Hy). apply (compare_key x y Hx Hy) in H.
  unfold lex_le, lex_lt in *. destruct (key x) as [[a b] c], (key y) as [[a' b'] c']. lia.
Qed.

Lemma not_ltb_leb (x y : double) :
  is_nan x = false -> is_nan y = false -> ltb x y = false -> leb y x = true.
Proof.
  intros Hx Hy H. apply (compare_key y x Hy Hx).
  assert (Hn : ~ lex_lt (key x) (key y)).
  { intros Hl. apply (compare_key x y Hx Hy) in Hl. congruence. }
  unfold lex_le, lex_lt in *. destruct (key x) as [[a b] c], (key y) as [[a' b'] c']. lia.
Qed.

Lemma leb_trans (x y z : double) :
  is_nan x = false -> is_nan y = false -> is_nan z = false ->
  leb x y = true -> leb y z = true -> leb x z = true.
Proof.
  intros Hx Hy Hz H1 H2. apply (compare_key x z Hx Hz).
  apply (compare_key x y Hx Hy) in H1. apply (compare_key y z Hy Hz) in H2.
  unfold lex_le in *.
  destruct (key x) as [[a b] c], (key y) as [[a' b'] c'], (key z) as [[a'' b''] c'']. lia.
Qed.

Lemma dmin_cases (m t : double) : dmin m t = m \/ dmin m t = t.
Proof. unfold dmin. destruct (ltb t m); auto. Qed.

Lemma dmax_cases (m t : double) : dmax m t = m \/ dmax m t = t.
Proof. unfold dmax. destruct (ltb m t); auto. Qed.

Lemma dmin_le (m t : double) :
  is_nan m = false -> is_nan t = false ->
  leb (dmin m t) m = true /\ leb (dmin m t) t = true.
Proof.
  intros Hm Ht. unfold dmin. destruct (ltb t m) eqn:E.
  - split; [apply ltb_leb; assumption | apply leb_refl; assumption].
  - split; [apply leb_refl; assumption | apply not_ltb_leb; assumption].
Qed.

Lemma dmax_ge (m t : double) :
  is_nan m = false -> is_nan t = false ->
  leb m (dmax m t) = true /\ leb t (dmax m t) = true.
Proof.
  intros Hm Ht. unfold dmax. destruct (ltb m t) eqn:E.
  - split; [apply ltb_leb; assumption | apply leb_refl; assumption].
  - split; [apply leb_refl; assumption | apply not_ltb_leb; assumption].
Qed.

(** ** The bounding box is the fold of the design document *)

Lemma list_ind3 {A} (Q : list A -> Prop) :
  Q [] -> (forall a, Q [a]) -> (forall a b, Q [a; b]) ->
  (forall a b c l, Q l -> Q (a :: b :: c :: l)) ->
  forall l, Q l.
Proof.
  intros H0 H1 H2 H3 l.
  enough (Q l /\ (forall a, Q (a :: l)) /\ (forall a b, Q (a :: b :: l))) by tauto.
  induction l as [|x l (IH0 & IH1 & IH2)]; [auto|].
  repeat split; auto.
Qed.

Lemma read_app_offset {A} (pre l : list A) (i : Z) :
  0 <= i -> read (pre ++ l) (Z.of_nat (length pre) + i) = read l i.
Proof.
  intros Hi. unfold read.
  destruct (Z.ltb_spec (Z.of_nat (length pre) + i) 0); [lia|].
  destruct (Z.ltb_spec i 0); [lia|].
  replace (Z.to_nat (Z.of_nat (length pre) + i)) with (length pre + Z.to_nat i)%nat by lia.
  rewrite lookup_app_r by lia.
  replace (length pre + Z.to_nat i - length pre)%nat with (Z.to_nat i) by lia.
  reflexivity.
Qed.

Lemma bb_inner (pre rest : list double) (a b c : double) (k : Z) (mm : arr3 * arr3) :
  Z.of_nat (length pre) = 3 * k ->
  foreach (seqZ 0 3) (bb_body (pre ++ a :: b :: c :: rest) k) mm
  = Ok (min3 mm.1 (a, b, c), max3 mm.2 (a, b, c)).
Proof.
  intros Hk. change (seqZ 0 3) with [0; 1; 2].
  destruct mm as [[[m0 m1] m2] [[M0 M1] M2]].
  unfold foreach, bb_body.
  replace (k * 3 + 0) with (Z.of_nat (length pre) + 0) by lia.
  replace (k * 3 + 1) with (Z.of_nat (length pre) + 1) by lia.
  replace (k * 3 + 2) with (Z.of_nat (length pre) + 2) by lia.
  rewrite !read_app_offset by lia.
  unfold read, min3, max3, dmin, dmax. simpl.
  destruct (ltb a m0), (ltb M0 a); simpl;
    destruct (ltb b m1), (ltb M1 b); simpl;
    destruct (ltb c m2), (ltb M2 c); reflexivity.
Qed.

Lemma triplets_length (v : list double) :
  Z.of_nat (length (triplets v)) = Z.of_nat (length v) / 3.
Proof.
  induction v as [| a | a b | a b c v IH] using list_ind3; try reflexivity.
  cbn [triplets length]. rewrite !Nat2Z.inj_succ, IH.
  replace (Z.succ (Z.succ (Z.succ (Z.of_nat (length v)))))
    with (1 * 3 + Z.of_nat (length v)) by lia.
  rewrite Z.div_add_l by lia. lia.
Qed.

Lemma bb_outer (rest pre : list double) (k : Z) (mm : arr3 * arr3) :
  Z.of_nat (length pre) = 3 * k ->
  foreach (seqZ k (Z.of_nat (length rest) / 3))
    (fun i => foreach (seqZ 0 3) (bb_body (pre ++ rest) i)) mm
  = Ok (fold_left (fun mm t => (min3 mm.1 t, max3 mm.2 t)) (triplets rest) mm).
Proof.
  revert pre k mm.
  induction rest as [| a | a b | a b c rest IH] using list_ind3;
    intros pre k mm Hk; try reflexivity.
  rewrite <- triplets_length. cbn [triplets length].
  rewrite Nat2Z.inj_succ, seqZ_cons by lia.
  cbn [foreach fold_left]. rewrite bb_inner by assumption.
  cbn [rbind]. rewrite Z.pred_succ, triplets_length.
  replace (pre ++ a :: b :: c :: rest) with ((pre ++ [a; b; c]) ++ rest)
    by (rewrite <- app_assoc; reflexivity).
  apply IH. rewrite length_app. cbn [length]. lia.
Qed.

Lemma bounding_box_fold_eq (v : list double) :
  bounding_box v = defined (bounding_box_fold v).
Proof.
  unfold bounding_box, bounding_box_fold.
  destruct v as [|t0 [|t1 [|t2 rest]]]; try reflexivity.
  cbn [first3 rbind triplets defined].
  replace (Z.of_nat (length (t0 :: t1 :: t2 :: rest)) / 3 - 1)
    with (Z.of_nat (length rest) / 3).
  - apply (bb_outer rest [t0; t1; t2] 1). reflexivity.
  - cbn [length]. rewrite !Nat2Z.inj_succ.
    replace (Z.succ (Z.succ (Z.succ (Z.of_nat (length rest)))))
      with (1 * 3 + Z.of_nat (length rest)) by lia.
    rewrite Z.div_add_l by lia. lia.
Qed.

(** ** The bounding box encloses the vertices *)

Lemma le3_trans (a b c : arr3) :
  number3 a -> number3 b -> number3 c -> le3 a b -> le3 b c -> le3 a c.
Proof.
  destruct a as [[a0 a1] a2], b as [[b0 b1] b2], c as [[c0 c1] c2].
  intros (?&?&?) (?&?&?) (?&?&?) (?&?&?) (?&?&?).
  repeat split;
    [apply (leb_trans a0 b0 c0) | apply (leb_trans a1 b1 c1) | apply (leb_trans a2 b2 c2)];
    assumption.
Qed.

Lemma le3_refl (a : arr3) : number3 a -> le3 a a.
Proof.
  destruct a as [[a0 a1] a2]. intros (?&?&?).
  repeat split; apply leb_refl; assumption.
Qed.

Lemma le3_get (a b : arr3) (j : Z) : le3 a b -> leb (get3 a j) (get3 b j) = true.
Proof.
  destruct a as [[a0 a1] a2], b as [[b0 b1] b2]. intros (?&?&?).
  unfold get3. destruct (j =? 0); [assumption|]. destruct (j =? 1); assumption.
Qed.

Lemma dmin_number (m t : double) :
  is_nan m = false -> is_nan t = false -> is_nan (dmin m t) = false.
Proof. intros. destruct (dmin_cases m t) as [-> | ->]; assumption. Qed.

Lemma dmax_number (m t : double) :
  is_nan m = false -> is_nan t = false -> is_nan (dmax m t) = false.
Proof. intros. destruct (dmax_cases m t) as [-> | ->]; assumption. Qed.

Lemma min3_spec (m t : arr3) :
  number3 m -> number3 t ->
  number3 (min3 m t) /\ le3 (min3 m t) m /\ le3 (min3 m t) t.
Proof.
  destruct m as [[m0 m1] m2], t as [[t0 t1] t2]. intros (?&?&?) (?&?&?).
  unfold min3, number3, le3.
  pose proof (dmin_le m0 t0). pose proof (dmin_le m1 t1). pose proof (dmin_le m2 t2).
  pose proof (dmin_number m0 t0). pose proof (dmin_number m1 t1).
  pose proof (dmin_number m2 t2).
  intuition.
Qed.

Lemma max3_spec (m t : arr3) :
  number3 m -> number3 t ->
  number3 (max3 m t) /\ le3 m (max3 m t) /\ le3 t (max3 m t).
Proof.
  destruct m as [[m0 m1] m2], t as [[t0 t1] t2]. intros (?&?&?) (?&?&?).
  unfold max3, number3, le3.
  pose proof (dmax_ge m0 t0). pose proof (dmax_ge m1 t1). pose proof (dmax_ge m2 t2).
  pose proof (dmax_number m0 t0). pose proof (dmax_number m1 t1).
  pose proof (dmax_number m2 t2).
  intuition.
Qed.

Lemma fold_min_max_bounds (ts : list arr3) (mn0 mx0 mn mx : arr3) :
  number3 mn0 -> number3 mx0 -> Forall number3 ts ->
  fold_left (fun mm t => (min3 mm.1 t, max3 mm.2 t)) ts (mn0, mx0) = (mn, mx) ->
  number3 mn /\ number3 mx /\ le3 mn mn0 /\ le3 mx0 mx
  /\ Forall (fun t => le3 mn t /\ le3 t mx) ts.
Proof.
  revert mn0 mx0.
  induction ts as [|t ts IH]; intros mn0 mx0 Hn0 Hx0 Hts Hf.
  - injection Hf as <- <-.
    repeat split; try assumption; try apply le3_refl; try assumption.
    apply Forall_nil_2.
  - apply Forall_cons in Hts as [Ht Hts]. cbn [fold_left fst snd] in Hf.
    destruct (min3_spec mn0 t Hn0 Ht) as (Hn1 & Hl1 & Hl2).
    destruct (max3_spec mx0 t Hx0 Ht) as (Hx1 & Hg1 & Hg2).
    destruct (IH _ _ Hn1 Hx1 Hts Hf) as (Hn & Hx & Hle & Hge & Hall).
    repeat split; try assumption.
    + eapply le3_trans; [| | |exact Hle|exact Hl1]; assumption.
    + eapply le3_trans; [| | |exact Hg1|exact Hge]; assumption.
    + apply Forall_cons. split; [split|assumption].
      * eapply le3_trans; [| | |exact Hle|exact Hl2]; assumption.
      * eapply le3_trans; [| | |exact Hg2|exact Hge]; assumption.
Qed.

Lemma triplets_number (v : list double) :
  Forall (fun x => is_nan x = false) v -> Forall number3 (triplets v).
Proof.
  induction v as [| a | a b | a b c v IH] using list_ind3; intros H;
    try apply Forall_nil_2.
  apply Forall_cons in H as [Ha H]. apply Forall_cons in H as [Hb H].
  apply Forall_cons in H as [Hc H].
  cbn [triplets]. apply Forall_cons. split; [repeat split; assumption | auto].
Qed.

Lemma triplets_lookup (v : list double) (i : nat) (t : arr3) :
  triplets v !! i = Some t ->
  forall j : nat, (j < 3)%nat -> v !! (3 * i + j)%nat = Some (get3 t (Z.of_nat j)).
Proof.
  revert i.
  induction v as [| a | a b | a b c v IH] using list_ind3; intros i Hi j Hj;
    try discriminate.
  destruct i as [|i]; cbn [triplets] in Hi.
  - injection Hi as <-.
    destruct j as [|[|[|j]]]; try lia; reflexivity.
  - cbn in Hi. replace (3 * S i + j)%nat with (S (S (S (3 * i + j)))) by lia.
    cbn. apply IH; assumption.
Qed.

(** The bounds produced by the fold enclose every coordinate of every
    vertex triplet, axis by axis. *)
Lemma bounding_box_fold_encloses (v : list double) (mn mx : arr3) :
  bounding_box_fold v = Some (mn, mx) ->
  Forall (fun x => is_nan x = false) v ->
  forall j, 0 <= j < 3 ->
    leb (get3 mn j) (get3 mx j) = true
    /\ forall i x, 0 <= i < Z.of_nat (length v) / 3 ->
         v !! Z.to_nat (i * 3 + j) = Some x ->
         leb (get3 mn j) x = true /\ leb x (get3 mx j) = true.
Proof.
  unfold bounding_box_fold. intros Hf Hv j Hj.
  pose proof (triplets_number v Hv) as Hts.
  pose proof (triplets_length v) as Hlen.
  destruct (triplets v) as [|t ts] eqn:Et; [discriminate|].
  injection Hf as Hf.
  apply Forall_cons in Hts as [Ht Hts].
  destruct (fold_min_max_bounds ts t t mn mx Ht Ht Hts Hf)
    as (Hn & Hx & Hle & Hge & Hall).
  assert (Hall' : Forall (fun t => le3 mn t /\ le3 t mx) (t :: ts)).
  { apply Forall_cons. split; [split|]; assumption. }
  split.
  - apply le3_get. eapply le3_trans; [| | |exact Hle|exact Hge]; assumption.
  - intros i x Hi Hx'.
    destruct (lookup_lt_is_Some_2 (t :: ts) (Z.to_nat i)) as [ti Hti].
    { rewrite <- Hlen in Hi. lia. }
    rewrite <- Et in Hti.
    pose proof (triplets_lookup v _ _ Hti (Z.to_nat j) ltac:(lia)) as Hc.
    replace (3 * Z.to_nat i + Z.to_nat j)%nat with (Z.to_nat (i * 3 + j)) in Hc by lia.
    rewrite Z2Nat.id in Hc by lia.
    rewrite Hx' in Hc. injection Hc as ->.
    rewrite Et in Hti. apply list_elem_of_lookup_2 in Hti.
    rewrite Forall_forall in Hall'. destruct (Hall' _ Hti) as [H1 H2].
    split; apply le3_get; assumption.
Qed.

(** ** Inversion of the steps of a computation *)

Lemma defined_Ok {A} (o : option A) (a : A) : defined o = Ok a -> o = Some a.
Proof. destruct o; [intros [= ->]; reflexivity | discriminate]. Qed.

Lemma checked_Some (z z' : Z) : checked z = Some z' -> z' = z /\ int_range z = true.
Proof. unfold checked. destruct (int_range z); [intros [= <-]; auto | discriminate]. Qed.

Lemma int_range_spec (z : Z) : int_range z = true <-> INT_MIN <= z <= INT_MAX.
Proof. unfold int_range. rewrite andb_true_iff, !Z.leb_le. tauto. Qed.

Lemma checked_in_range (z : Z) : INT_MIN <= z <= INT_MAX -> checked z = Some z.
Proof. intros Hz. unfold checked. apply int_range_spec in Hz. rewrite Hz. reflexivity. Qed.

Lemma read_Ok {A} (l : list A) (i : Z) (x : A) :
  read l i = Ok x -> 0 <= i < Z.of_nat (length l) /\ l !! Z.to_nat i = Some x.
Proof.
  unfold read. destruct (Z.ltb_spec i 0) as [Hlt|Hge]; [discriminate|].
  intros Hl%defined_Ok. split; [|assumption].
  apply lookup_lt_Some in Hl. lia.
Qed.

Lemma read_in_range {A} (l : list A) (i : Z) :
  0 <= i < Z.of_nat (length l) -> exists x, read l i = Ok x /\ l !! Z.to_nat i = Some x.
Proof.
  intros Hi. unfold read. destruct (Z.ltb_spec i 0) as [Hlt|Hge]; [lia|].
  destruct (lookup_lt_is_Some_2 l (Z.to_nat i)) as [x Hx]; [lia|].
  exists x. rewrite Hx. auto.
Qed.

Lemma write_Ok {A} (l l' : list A) (i : Z) (x : A) :
  write l i x = Ok l' ->
  0 <= i < Z.of_nat (length l) /\ l' = <[Z.to_nat i := x]> l.
Proof.
  unfold write. destruct (Z.leb_spec 0 i), (Z.ltb_spec i (Z.of_nat (length l)));
    cbn; try discriminate.
  intros [= <-]. auto.
Qed.

Lemma write_in_range {A} (l : list A) (i : Z) (x : A) :
  0 <= i < Z.of_nat (length l) -> write l i x = Ok (<[Z.to_nat i := x]> l).
Proof.
  intros Hi. unfold write.
  destruct (Z.leb_spec 0 i), (Z.ltb_spec i (Z.of_nat (length l))); try lia. reflexivity.
Qed.

Lemma copy_to_Ok {A} (buf buf' src : list A) (off : Z) :
  copy_to buf off src = Ok buf' ->
  0 <= off /\ off + Z.of_nat (length src) <= Z.of_nat (length buf)
  /\ buf' = take (Z.to_nat off) buf ++ src ++ drop (Z.to_nat off + length src) buf.
Proof.
  unfold copy_to.
  destruct (Z.leb_spec 0 off),
    (Z.leb_spec (off + Z.of_nat (length src)) (Z.of_nat (length buf)));
    cbn; try discriminate.
  intros [= <-]. auto.
Qed.

Lemma copy_to_in_range {A} (buf src : list A) (off : Z) :
  0 <= off -> off + Z.of_nat (length src) <= Z.of_nat (length buf) ->
  copy_to buf off src
  = Ok (take (Z.to_nat off) buf ++ src ++ drop (Z.to_nat off + length src) buf).
Proof.
  intros H1 H2. unfold copy_to.
  destruct (Z.leb_spec 0 off),
    (Z.leb_spec (off + Z.of_nat (length src)) (Z.of_nat (length buf))); try lia.
  reflexivity.
Qed.

Lemma fill_in_range {A} (buf : list A) (first last : Z) (v : A) :
  0 <= first <= last -> last <= Z.of_nat (length buf) ->
  fill buf first last v
  = Ok (take (Z.to_nat first) buf ++ replicate (Z.to_nat (last - first)) v
        ++ drop (Z.to_nat last) buf).
Proof.
  intros H1 H2. unfold fill.
  destruct (Z.leb_spec 0 first), (Z.leb_spec first last),
    (Z.leb_spec last (Z.of_nat (length buf))); try lia.
  reflexivity.
Qed.

Section CellBody.
Context {E : voro.engine}.

Lemma list3_length (t : arr3) : length (list3 t) = 3%nat.
Proof. destruct t as [[t0 t1] t2]. reflexivity. Qed.

Lemma list3_lookup (t : arr3) (j : nat) :
  (j < 3)%nat -> list3 t !! j = Some (get3 t (Z.of_nat j)).
Proof.
  destruct t as [[t0 t1] t2]. intros Hj.
  destruct j as [|[|[|j]]]; try lia; reflexivity.
Qed.

(** What one successful iteration of the loop did. *)
Lemma cell_body_Ok (a : args) (con : voro.container) (p : voro.particle) (s s' : cells) :
  cell_body a con p s = Ok s' ->
  exists c mn mx,
    let idx := voro.p_id p - start a in
    let v := voro.vertices c (voro.p_x p) (voro.p_y p) (voro.p_z p) in
    voro.compute_cell con p = inr c
    /\ bounding_box v = Ok (mn, mx)
    /\ INT_MIN <= idx * 3 <= INT_MAX
    /\ 0 <= idx < Z.of_nat (length (n_list s))
    /\ idx < Z.of_nat (length (vols s))
    /\ (with_vertices a <> 0 -> idx < Z.of_nat (length (vertices_list s)))
    /\ idx * 3 + 3 <= Z.of_nat (length (bb_m s))
    /\ idx * 3 + 3 <= Z.of_nat (length (bb_M s))
    /\ n_list s' = <[Z.to_nat idx := voro.neighbors c]> (n_list s)
    /\ vols s' = <[Z.to_nat idx := voro.volume c]> (vols s)
    /\ vertices_list s'
       = (if with_vertices a =? 0 then vertices_list s
          else <[Z.to_nat idx := v]> (vertices_list s))
    /\ tmp_v s' = (if with_vertices a =? 0 then v else tmp_v s)
    /\ bb_m s' = take (Z.to_nat (idx * 3)) (bb_m s) ++ list3 mn
                 ++ drop (Z.to_nat (idx * 3) + 3) (bb_m s)
    /\ bb_M s' = take (Z.to_nat (idx * 3)) (bb_M s) ++ list3 mx
                 ++ drop (Z.to_nat (idx * 3) + 3) (bb_M s).
Proof.
  unfold cell_body. intros H.
  bind_ok H idx Hidx. apply defined_Ok, checked_Some in Hidx as [-> _].
  bind_ok H r Hrd.
  destruct (voro.compute_cell con p) as [what|c] eqn:Ec; cbn [rbind] in H;
    [discriminate|].
  bind_ok H nl Hn. apply write_Ok in Hn as [Hn ->].
  bind_ok H vl Hv. apply write_Ok in Hv as [Hv ->].
  bind_ok H vs Hvl.
  bind_ok H bb Hbb. destruct bb as [mn mx].
  bind_ok H i3 Hi3. apply defined_Ok, checked_Some in Hi3 as [-> Hr%int_range_spec].
  bind_ok H bm Hm. apply copy_to_Ok in Hm as (_ & Hm & ->).
  bind_ok H bM HM. apply copy_to_Ok in HM as (_ & HM & ->).
  injection H as <-. cbn [n_list vols vertices_list tmp_v bb_m bb_M].
  rewrite list3_length in Hm, HM. rewrite !list3_length.
  exists c, mn, mx. cbv zeta.
  repeat (split; [first [assumption | reflexivity | lia]|]).
  destruct (with_vertices a =? 0) eqn:Ew.
  - injection Hvl as <-.
    split; [intros Hw; apply Z.eqb_eq in Ew; contradiction|].
    repeat (split; [first [assumption | reflexivity | lia]|]). reflexivity.
  - apply write_Ok in Hvl as [Hvl ->].
    repeat (split; [first [assumption | reflexivity | lia]|]). reflexivity.
Qed.
End CellBody.

(** C5 (as amended). For every computed cell (every iteration of the loop
    that completes), the bounding box is the componentwise fold of min/max
    over the vertex triplets of the cell, starting from the first triplet,
    and it is what the iteration stores in the three slots of the cell in
    [bb_m] and [bb_M]. When no vertex coordinate of the cell is a NaN, on
    each axis the stored minimum is at most the stored maximum and every
    vertex coordinate of the cell lies between them. *)
Theorem bounding_box_of_cell {E : voro.engine} (a : args) (con : voro.container)
    (p : voro.particle) (s s' : cells) :
  cell_body a con p s = Ok s' ->
  exists c mn mx,
    let idx := voro.p_id p - start a in
    let v := voro.vertices c (voro.p_x p) (voro.p_y p) (voro.p_z p) in
    voro.compute_cell con p = inr c
    /\ bounding_box_fold v = Some (mn, mx)
    /\ (forall j, 0 <= j < 3 ->
          bb_m s' !! Z.to_nat (idx * 3 + j) = Some (get3 mn j)
          /\ bb_M s' !! Z.to_nat (idx * 3 + j) = Some (get3 mx j))
    /\ (Forall (fun x => is_nan x = false) v ->
        forall j, 0 <= j < 3 ->
          leb (get3 mn j) (get3 mx j) = true
          /\ forall i x, 0 <= i < Z.of_nat (length v) / 3 ->
               v !! Z.to_nat (i * 3 + j) = Some x ->
               leb (get3 mn j) x = true /\ leb x (get3 mx j) = true).
Proof.
  intros H. apply cell_body_Ok in H as (c & mn & mx & H). cbv zeta in H.
  destruct H as (Hc & Hbb & Hr & Hn & Hv & Hvl & Hm & HM & _ & _ & _ & _ & -> & ->).
  exists c, mn, mx. cbv zeta.
  rewrite bounding_box_fold_eq in Hbb. apply defined_Ok in Hbb.
  split; [assumption|]. split; [assumption|]. split.
  - intros j Hj.
    assert (Hlook : forall (l : list double) (t : arr3),
               voro.p_id p - start a >= 0 ->
               (voro.p_id p - start a) * 3 + 3 <= Z.of_nat (length l) ->
               (take (Z.to_nat ((voro.p_id p - start a) * 3)) l ++ list3 t
                  ++ drop (Z.to_nat ((voro.p_id p - start a) * 3) + 3) l)
                 !! Z.to_nat ((voro.p_id p - start a) * 3 + j)
               = Some (get3 t j)).
    { intros l t H0 Hl.
      rewrite lookup_app_r by (rewrite length_take; lia).
      rewrite length_take.
      replace (Z.to_nat ((voro.p_id p - start a) * 3 + j)
               - Z.to_nat ((voro.p_id p - start a) * 3) `min` length l)%nat
        with (Z.to_nat j) by lia.
      rewrite lookup_app_l by (rewrite list3_length; lia).
      rewrite list3_lookup by lia. rewrite Z2Nat.id by lia. reflexivity. }
    split; apply Hlook; lia.
  - intros Hnum. apply bounding_box_fold_encloses; assumption.
Qed.

Lemma bounding_box_of_cell_witness :
  let E := Sample.scripted Sample.three_cells in
  let d := Sample.d in
  let a := Sample.call_args 1 3 3 1 EmptyString [] in
  let con := voro.container_new (d 0) (d 4) (d 0) (d 4) (d 0) (d 4) 1 1 1
               false false false 8 in
  let p := {| voro.p_id := 1; voro.p_x := d 2; voro.p_y := d 2; voro.p_z := d 2 |} in
  let s := {| n_list := [[]; []]; vertices_list := [[]; []];
              vols := [d 777; d 777]; bb_m := replicate 6 (d 777);
              bb_M := replicate 6 (d 777); tmp_v := [] |} in
  exists s',
    cell_body a con p s = Ok s'
    /\ bb_m s' = [d 1; d 1; d 0; d 777; d 777; d 777]
    /\ bb_M s' = [d 3; d 3; d 2; d 777; d 777; d 777]
    /\ exists c mn mx,
         let idx := voro.p_id p - start a in
         let v := voro.vertices c (voro.p_x p) (voro.p_y p) (voro.p_z p) in
         voro.compute_cell con p = inr c
         /\ bounding_box_fold v = Some (mn, mx)
         /\ (forall j, 0 <= j < 3 ->
               bb_m s' !! Z.to_nat (idx * 3 + j) = Some (get3 mn j)
               /\ bb_M s' !! Z.to_nat (idx * 3 + j) = Some (get3 mx j))
         /\ (Forall (fun x => is_nan x = false) v ->
             forall j, 0 <= j < 3 ->
               leb (get3 mn j) (get3 mx j) = true
               /\ forall i x, 0 <= i < Z.of_nat (length v) / 3 ->
                    v !! Z.to_nat (i * 3 + j) = Some x ->
                    leb (get3 mn j) x = true /\ leb x (get3 mx j) = true).
Proof.
  intros E d a con p s.
  destruct (cell_body a con p s) as [s'| |] eqn:Hs;
    [|vm_compute in Hs; discriminate Hs..].
  exists s'. split; [reflexivity|].
  pose proof (bounding_box_of_cell a con p s s' Hs) as Hthm.
  vm_compute in Hs. injection Hs as <-.
  split; [reflexivity|]. split; [reflexivity|]. exact Hthm.
Defined.

(** C5 as stated fails. A cell whose first vertex has a NaN abscissa: the
    call succeeds, and on the x axis both the minimum and the maximum
    stored are that NaN, every comparison with which is false: the stored
    minimum is not at most the stored maximum, and the abscissa 3 of the
    second vertex is not between them. *)
Lemma bounding_box_unordered :
  let P := Sample.platform in
  let E := Sample.scripted nan_cells in
  let a := Sample.call_args 0 1 1 1 EmptyString [] in
  let v := [nan; Sample.d 3; Sample.d 2;  Sample.d 3; Sample.d 1; Sample.d 2] in
  (exists w',
     hyperion_voropp_wrap Sample.heap0 a Sample.world0 = Returned NULL w'
     /\ vertices (out w') = v
     /\ bb_min (out w') = [nan; Sample.d 1; Sample.d 2]
     /\ bb_max (out w') = [nan; Sample.d 3; Sample.d 2])
  /\ bounding_box_fold v
     = Some ((nan, Sample.d 1, Sample.d 2), (nan, Sample.d 3, Sample.d 2))
  /\ leb nan nan = false
  /\ v !! 3%nat = Some (Sample.d 3)
  /\ leb nan (Sample.d 3) = false /\ leb (Sample.d 3) nan = false.
Proof.
  intros P E a v. split.
  - destruct (hyperion_voropp_wrap Sample.heap0 a Sample.world0) as [[|] w'|] eqn:Hrun;
      [|vm_compute in Hrun; discriminate Hrun..].
    exists w'. vm_compute in Hrun. injection Hrun as <-. repeat split.
  - repeat split.
Qed.

(** ** Steps of a computation on the world *)

Lemma mbind_pure {A B} (r : result A) (k : A -> M B) (w : world) :
  mbind (pure r) k w
  = match r with
    | Ok a => k a w
    | Throw what => Thrown what w
    | Undefined => Crashed
    end.
Proof. unfold mbind, pure. destruct r; reflexivity. Qed.

Lemma foreach_unchanged {A S} (l : list A) (body : A -> S -> result S) (s : S) :
  (forall x, x ∈ l -> body x s = Ok s) -> foreach l body s = Ok s.
Proof.
  induction l as [|x l IH]; intros H; [reflexivity|].
  cbn [foreach]. rewrite H by apply list_elem_of_here. cbn [rbind].
  apply IH. intros y Hy. apply H. apply list_elem_of_further. exact Hy.
Qed.

(** ** [add_walls] *)

Lemma print_wall_args_ok (arr : list double) (n verbose : Z) :
  n = Z.of_nat (length arr) -> print_wall_args arr n verbose = Ok tt.
Proof.
  intros ->. unfold print_wall_args. destruct (verbose =? 0); [reflexivity|].
  apply foreach_unchanged. intros i Hi. apply elem_of_seqZ in Hi.
  destruct (read_in_range arr i) as (x & -> & _); [lia|]. reflexivity.
Qed.


Ltac run_walls :=
  repeat match goal with
         | |- context [read ?l ?i] =>
             let r := eval cbv in (read l i) in change (read l i) with r
         end;
  unfold mbind, pure, throw, mret, wall_ptr_reset, wall_ptr_get, set_wall_ptr;
  cbn -[leb].

Lemma length_4 {A} (l : list A) :
  Z.of_nat (length l) = 4 -> exists a0 a1 a2 a3, l = [a0; a1; a2; a3].
Proof.
  destruct l as [|a0 [|a1 [|a2 [|a3 [|a4 l]]]]]; cbn [length]; intros H; try lia.
  eauto.
Qed.

Lemma length_7 {A} (l : list A) :
  Z.of_nat (length l) = 7 ->
  exists a0 a1 a2 a3 a4 a5 a6, l = [a0; a1; a2; a3; a4; a5; a6].
Proof.
  destruct l as [|a0 [|a1 [|a2 [|a3 [|a4 [|a5 [|a6 [|a7 l]]]]]]]]; cbn [length];
    intros H; try lia.
  do 7 eexists. reflexivity.
Qed.

(** The outcome of [add_walls], case by case, for a parameter array that
    holds [n_wall_args] doubles. *)
Lemma add_walls_cases (con : voro.container) (ws : string) (arr : list double)
    (n verbose : Z) (w : world) :
  n = Z.of_nat (length arr) ->
  (ws = "sphere"%string /\ n <> 4
   /\ add_walls con ws arr n verbose w
      = Thrown "invalid number of arguments for a 'sphere' wall, exactly 4 are needed" w)
  \/ (exists a0 a1 a2 a3, ws = "sphere"%string /\ arr = [a0; a1; a2; a3]
        /\ leb a3 zero = true
        /\ add_walls con ws arr n verbose w
           = Thrown "the radius of a 'sphere' wall must be strictly positive" w)
  \/ (exists a0 a1 a2 a3, ws = "sphere"%string /\ arr = [a0; a1; a2; a3]
        /\ leb a3 zero = false
        /\ add_walls con ws arr n verbose w
           = Done (voro.add_wall con (voro.wall_sphere a0 a1 a2 a3))
                  (set_wall_ptr (voro.wall_sphere a0 a1 a2 a3) w))
  \/ (ws = "cylinder"%string /\ n <> 7
      /\ add_walls con ws arr n verbose w
         = Thrown "invalid number of arguments for a 'cylinder' wall, exactly 7 are needed" w)
  \/ (exists a0 a1 a2 a3 a4 a5 a6, ws = "cylinder"%string
        /\ arr = [a0; a1; a2; a3; a4; a5; a6] /\ leb a6 zero = true
        /\ add_walls con ws arr n verbose w
           = Thrown "the radius of a 'cylinder' wall must be strictly positive" w)
  \/ (exists a0 a1 a2 a3 a4 a5 a6, ws = "cylinder"%string
        /\ arr = [a0; a1; a2; a3; a4; a5; a6] /\ leb a6 zero = false
        /\ add_walls con ws arr n verbose w
           = Done (voro.add_wall con (voro.wall_cylinder a0 a1 a2 a3 a4 a5 a6))
                  (set_wall_ptr (voro.wall_cylinder a0 a1 a2 a3 a4 a5 a6) w))
  \/ (ws <> "sphere"%string /\ ws <> "cylinder"%string
      /\ add_walls con ws arr n verbose w = Done con w).
Proof.
  intros Hn. unfold add_walls.
  rewrite mbind_pure, (print_wall_args_ok arr n verbose Hn).
  destruct (String.eqb_spec ws "sphere") as [->|Hs].
  - change (String.eqb "sphere" "cylinder") with false.
    destruct (Z.eqb_spec n 4) as [H4|H4].
    + destruct (length_4 arr) as (a0 & a1 & a2 & a3 & ->); [lia|].
      right. destruct (leb a3 zero) eqn:Hr.
      * left. exists a0, a1, a2, a3. run_walls. rewrite Hr. auto.
      * right. left. exists a0, a1, a2, a3. run_walls. rewrite Hr. auto.
    + left. auto.
  - do 3 right. unfold mbind at 1. cbn [mret].
    destruct (String.eqb_spec ws "cylinder") as [->|Hc].
    + destruct (Z.eqb_spec n 7) as [H7|H7].
      * destruct (length_7 arr) as (a0 & a1 & a2 & a3 & a4 & a5 & a6 & ->); [lia|].
        right. destruct (leb a6 zero) eqn:Hr.
        -- left. exists a0, a1, a2, a3, a4, a5, a6. run_walls. rewrite Hr. auto.
        -- right. left. exists a0, a1, a2, a3, a4, a5, a6. run_walls. rewrite Hr. auto.
      * left. auto.
    + do 3 right. auto.
Qed.

Lemma add_walls_effect (con : voro.container) (ws : string) (arr : list double)
    (n verbose : Z) (w : world) :
  match add_walls con ws arr n verbose w with
  | Done con' w' =>
      out w' = out w
      /\ error_message (globals w') = error_message (globals w)
      /\ voro.particles con' = voro.particles con
  | Thrown what w' => w' = w
  | Crashed => True
  end.
Proof.
  unfold add_walls, mbind, pure, throw, mret, wall_ptr_reset, wall_ptr_get.
  destruct (String.eqb_spec ws "sphere") as [->|Hs];
    [change (String.eqb "sphere" "cylinder") with false|];
  repeat (cbn -[leb read print_wall_args String.eqb];
          match goal with
          | |- context [print_wall_args ?a ?b ?c] =>
              destruct (print_wall_args a b c) as [[]| |]
          | |- context [String.eqb ?a ?b] => destruct (String.eqb a b)
          | |- context [Z.eqb ?a ?b] => destruct (Z.eqb a b)
          | |- context [read ?a ?b] => destruct (read a b)
          | |- context [leb ?a ?b] => destruct (leb a b)
          end);
    cbn; auto.
Qed.

(** ** Steps that never throw *)


Lemma rbind_no_throw {A B} (c : result A) (k : A -> result B) :
  no_throw c -> (forall a, no_throw (k a)) -> no_throw (rbind c k).
Proof.
  intros Hc Hk what. destruct c as [a|what'|]; cbn [rbind].
  - apply Hk.
  - exfalso. exact (Hc what' eq_refl).
  - discriminate.
Qed.

Lemma Ok_no_throw {A} (a : A) : no_throw (Ok a).
Proof. intros what. discriminate. Qed.

Lemma foreach_no_throw {A S} (l : list A) (body : A -> S -> result S) (s : S) :
  (forall x s', no_throw (body x s')) -> no_throw (foreach l body s).
Proof.
  intros Hb. revert s. induction l as [|x l IH]; intros s; [apply Ok_no_throw|].
  cbn [foreach]. apply rbind_no_throw; [apply Hb|apply IH].
Qed.

Lemma defined_no_throw {A} (o : option A) : no_throw (defined o).
Proof. intros what. destruct o; discriminate. Qed.

Lemma read_no_throw {A} (l : list A) (i : Z) : no_throw (read l i).
Proof. unfold read. destruct (i <? 0); [discriminate|apply defined_no_throw]. Qed.

Lemma copy_to_no_throw {A} (buf src : list A) (off : Z) : no_throw (copy_to buf off src).
Proof. intros what. unfold copy_to. destruct (_ && _); discriminate. Qed.

Lemma fill_no_throw {A} (buf : list A) (first last : Z) (v : A) :
  no_throw (fill buf first last v).
Proof. intros what. unfold fill. destruct (_ && _); discriminate. Qed.

Ltac no_throw :=
  repeat first
    [ apply Ok_no_throw | apply defined_no_throw | apply read_no_throw
    | apply copy_to_no_throw | apply fill_no_throw
    | apply rbind_no_throw; [|intros ?]
    | apply foreach_no_throw; intros ? ? ].

Lemma populate_no_throw (a : args) (con : voro.container) : no_throw (populate a con).
Proof.
  unfold populate. apply foreach_no_throw. intros i [c po].
  unfold populate_body, point_at.
  destruct (_ && _); apply rbind_no_throw;
    try (intros [[x y] z]; apply Ok_no_throw); no_throw.
Qed.

Lemma pack_no_throw {T} (rows : list (list T)) (ncells width : Z) (pad : T)
    (buf : list T) :
  no_throw (pack rows ncells width pad buf).
Proof. unfold pack, pack_body. no_throw. Qed.

Lemma max_size_no_throw {T} (v : list (list T)) : no_throw (max_size v).
Proof. unfold max_size. no_throw. Qed.

Lemma foreach_Throw {A S} (l : list A) (body : A -> S -> result S) (s : S)
    (what : string) :
  foreach l body s = Throw what -> exists x s', x ∈ l /\ body x s' = Throw what.
Proof.
  revert s. induction l as [|x l IH]; intros s; [discriminate|].
  cbn [foreach]. destruct (body x s) as [s'|what'|] eqn:Hx; cbn [rbind].
  - intros H. destruct (IH _ H) as (y & s'' & Hy & Hb).
    exists y, s''. split; [apply list_elem_of_further; exact Hy|exact Hb].
  - intros [= ->]. exists x, s. split; [apply list_elem_of_here|exact Hx].
  - discriminate.
Qed.


Section LoopThrows.
Context {E : voro.engine}.

Lemma write_no_throw {A} (l : list A) (i : Z) (x : A) : no_throw (write l i x).
Proof. intros what. unfold write. destruct (_ && _); discriminate. Qed.

Lemma first3_no_throw (v : list double) : no_throw (first3 v).
Proof. intros what. destruct v as [|t0 [|t1 [|t2 v]]]; discriminate. Qed.

Lemma bounding_box_no_throw (v : list double) : no_throw (bounding_box v).
Proof.
  unfold bounding_box.
  apply rbind_no_throw; [apply first3_no_throw|intros tmp_min].
  apply rbind_no_throw; [apply first3_no_throw|intros tmp_max].
  apply foreach_no_throw. intros i mm.
  apply foreach_no_throw. intros j [mn mx]. unfold bb_body. no_throw.
Qed.

(** The only exception of an iteration is the one the library throws. *)
Lemma cell_body_Throw (a : args) (con : voro.container) (p : voro.particle)
    (s : cells) (what : string) :
  cell_body a con p s = Throw what -> voro.compute_cell con p = inl what.
Proof.
  unfold cell_body.
  destruct (defined (checked (voro.p_id p - start a))) as [idx|w1|] eqn:E1;
    cbn [rbind]; [|exfalso; revert E1; apply defined_no_throw|discriminate].
  destruct (if with_vertices a =? 0 then Ok [] else read (vertices_list s) idx)
    as [r|w1|] eqn:E2; cbn [rbind]; [| |discriminate].
  2:{ exfalso. revert E2. destruct (with_vertices a =? 0);
        [discriminate|apply read_no_throw]. }
  destruct (voro.compute_cell con p) as [what'|c]; cbn [rbind];
    [intros [= ->]; reflexivity|].
  intros H. exfalso. revert H.
  assert (Hq : no_throw
    (do n_list' <- write (n_list s) idx (voro.neighbors c);
     do vols' <- write (vols s) idx (voro.volume c);
     do vertices_list' <-
       (if with_vertices a =? 0 then Ok (vertices_list s)
        else write (vertices_list s) idx
               (voro.vertices c (voro.p_x p) (voro.p_y p) (voro.p_z p)));
     do (tmp_min, tmp_max) <-
       bounding_box (voro.vertices c (voro.p_x p) (voro.p_y p) (voro.p_z p));
     do idx3 <- defined (checked (idx * 3));
     do bb_m' <- copy_to (bb_m s) idx3 (list3 tmp_min);
     do bb_M' <- copy_to (bb_M s) idx3 (list3 tmp_max);
     Ok {| n_list := n_list'; vertices_list := vertices_list'; vols := vols';
           bb_m := bb_m'; bb_M := bb_M';
           tmp_v := if with_vertices a =? 0
                    then voro.vertices c (voro.p_x p) (voro.p_y p) (voro.p_z p)
                    else tmp_v s |})).
  { apply rbind_no_throw; [apply write_no_throw|intros ?].
    apply rbind_no_throw; [apply write_no_throw|intros ?].
    apply rbind_no_throw;
      [destruct (with_vertices a =? 0); [apply Ok_no_throw|apply write_no_throw]
      |intros ?].
    apply rbind_no_throw; [apply bounding_box_no_throw|intros [mn mx]].
    no_throw. }
  apply Hq.
Qed.

Lemma cell_loop_Throw (a : args) (con : voro.container) (po : voro.particle_order)
    (s : cells) (what : string) :
  cell_loop a con po s = Throw what ->
  exists p, p ∈ po /\ voro.compute_cell con p = inl what.
Proof.
  unfold cell_loop, voro.c_loop_order. intros H.
  apply foreach_Throw in H as (p & s' & Hp & Hb).
  exists p. split; [exact Hp|]. eapply cell_body_Throw. exact Hb.
Qed.

End LoopThrows.


(** ** The [try] block, stage by stage *)

Lemma mbind_Done {A B} (c : M A) (k : A -> M B) (w w' : world) (b : B) :
  mbind c k w = Done b w' -> exists a w1, c w = Done a w1 /\ k a w1 = Done b w'.
Proof. unfold mbind. destruct (c w) as [a w1| |]; [eauto|discriminate..]. Qed.

Lemma mbind_Thrown {A B} (c : M A) (k : A -> M B) (w w' : world) (what : string) :
  mbind c k w = Thrown what w' ->
  c w = Thrown what w' \/ exists a w1, c w = Done a w1 /\ k a w1 = Thrown what w'.
Proof.
  unfold mbind. destruct (c w) as [a w1|what' w1|]; [eauto| |discriminate].
  intros [= -> ->]. auto.
Qed.

Lemma mbind_update_out {B} (f : outputs -> outputs) (k : unit -> M B) (w : world) :
  mbind (update_out f) k w = k tt {| globals := globals w; out := f (out w) |}.
Proof. reflexivity. Qed.

Section TryBlock.
Context {P : Platform} {E : voro.engine}.

Lemma try_block_Done (h : heap) (a : args) (w w' : world) (u : unit) :
  try_block h a w = Done u w' ->
  exists nx ny nz con0 po con w1 cs mnn neighs mnv verts,
    let ncells := end_ a - start a in
    grid_resolution (nsites a) (xmin a) (xmax a) (ymin a) (ymax a) (zmin a) (zmax a)
      = Some (nx, ny, nz)
    /\ 0 <= ncells <= INT_MAX
    /\ populate a (voro.container_new (xmin a) (xmax a) (ymin a) (ymax a)
                     (zmin a) (zmax a) nx ny nz false false false 8) = Ok (con0, po)
    /\ add_walls con0 (wall_str a) (wall_args_arr a) (n_wall_args a) (verbose a) w
       = Done con w1
    /\ cell_loop a con po (initial_cells h a ncells) = Ok cs
    /\ max_size (n_list cs) = Ok mnn
    /\ pack (n_list cs) ncells mnn (-10) (malloc (junk_neighs h) (ncells * mnn))
       = Ok neighs
    /\ ((with_vertices a = 0 /\ mnv = 0 /\ verts = vertices (out w))
        \/ (with_vertices a <> 0
            /\ max_size (vertices_list cs) = Ok mnv
            /\ pack (vertices_list cs) ncells mnv nan
                 (malloc (junk_verts h) (ncells * mnv)) = Ok verts))
    /\ globals w' = globals w1
    /\ out w' = {| neighbours := neighs; max_nn := mnn; volumes := vols cs;
                   bb_min := bb_m cs; bb_max := bb_M cs; vertices := verts;
                   max_nv := mnv |}.
Proof.
  unfold try_block. intros H.
  rewrite mbind_pure in H.
  destruct (grid_resolution _ _ _ _ _ _ _) as [[[nx ny] nz]|] eqn:Hg;
    cbn [defined] in H; [|discriminate].
  rewrite mbind_pure in H.
  destruct (checked (end_ a - start a)) as [ncells|] eqn:Hnc;
    cbn [defined] in H; [|discriminate].
  apply checked_Some in Hnc as [-> Hr%int_range_spec].
  rewrite mbind_pure in H. unfold vector_n at 1 in H.
  destruct (Z.ltb_spec (end_ a - start a) 0) as [Hneg|Hpos]; [discriminate|].
  rewrite mbind_pure in H.
  assert (Hvl : (if with_vertices a =? 0 then Ok []
                 else vector_n length_error_what (end_ a - start a) [])
                = Ok (vertices_list (initial_cells h a (end_ a - start a)))
                  :> result (list (list double))).
  { unfold initial_cells, vector_n. cbn [vertices_list].
    destruct (with_vertices a =? 0); [reflexivity|].
    destruct (Z.ltb_spec (end_ a - start a) 0); [lia|reflexivity]. }
  rewrite Hvl in H. clear Hvl.
  rewrite mbind_pure in H.
  destruct (populate a _) as [[con0 po]|what|] eqn:Hpop; [|discriminate..].
  apply mbind_Done in H as (con & w1 & Hw & H).
  rewrite mbind_pure in H.
  change {| n_list := replicate (Z.to_nat (end_ a - start a)) [];
            vertices_list := vertices_list (initial_cells h a (end_ a - start a));
            vols := malloc (junk_vols h) (end_ a - start a);
            bb_m := malloc (junk_bb_m h) ((end_ a - start a) * 3);
            bb_M := malloc (junk_bb_M h) ((end_ a - start a) * 3);
            tmp_v := [] |}
    with (initial_cells h a (end_ a - start a)) in H.
  destruct (cell_loop a con po _) as [cs|what|] eqn:Hloop; [|discriminate..].
  rewrite mbind_pure in H.
  destruct (max_size (n_list cs)) as [mnn|what|] eqn:Hmnn; [|discriminate..].
  unfold assign_max_nn at 1 in H. rewrite mbind_update_out in H.
  rewrite mbind_pure in H.
  destruct (pack (n_list cs) _ mnn (-10) _) as [neighs|what|] eqn:Hpack;
    [|discriminate..].
  apply mbind_Done in H as ([] & w2 & Hv & H).
  unfold assign_volumes, assign_bb_min, assign_bb_max, assign_neighbours in H.
  rewrite !mbind_update_out in H. unfold update_out in H.
  injection H as _ <-. cbn [globals out neighbours max_nn volumes bb_min bb_max
                             vertices max_nv].
  destruct (Z.eqb_spec (with_vertices a) 0) as [Hwv|Hwv].
  - unfold assign_max_nv, update_out in Hv. injection Hv as <-.
    cbn [globals out neighbours max_nn volumes bb_min bb_max vertices max_nv].
    exists nx, ny, nz, con0, po, con, w1, cs, mnn, neighs, 0, (vertices (out w1)).
    pose proof (add_walls_effect con0 (wall_str a) (wall_args_arr a) (n_wall_args a)
                  (verbose a) w) as He.
    rewrite Hw in He. destruct He as (Ho & _ & _).
    cbv zeta. repeat (split; [first [assumption | reflexivity | lia]|]).
    split; [left; rewrite Ho; auto|]. split; reflexivity.
  - rewrite mbind_pure in Hv.
    destruct (max_size (vertices_list cs)) as [mnv|what|] eqn:Hmnv; [|discriminate..].
    unfold assign_max_nv at 1 in Hv. rewrite mbind_update_out in Hv.
    rewrite mbind_pure in Hv.
    destruct (pack (vertices_list cs) _ mnv nan _) as [verts|what|] eqn:Hpv;
      [|discriminate..].
    unfold assign_vertices, update_out in Hv. injection Hv as <-.
    cbn [globals out neighbours max_nn volumes bb_min bb_max vertices max_nv].
    exists nx, ny, nz, con0, po, con, w1, cs, mnn, neighs, mnv, verts.
    cbv zeta. repeat (split; [first [assumption | reflexivity | lia]|]).
    split; [right; auto|]. split; reflexivity.
Qed.

End TryBlock.

Section TryBlockThrown.
Context {P : Platform} {E : voro.engine}.

(** An exception leaves the [try] block only from the constructor of
    [n_list], from [add_walls] or from the library's [compute_cell]; in each
    case nothing was assigned through the output pointers. *)
Lemma try_block_Thrown (h : heap) (a : args) (w w' : world) (what : string) :
  try_block h a w = Thrown what w' ->
  out w' = out w
  /\ error_message (globals w') = error_message (globals w)
  /\ ((end_ a - start a < 0 /\ what = length_error_what /\ w' = w)
      \/ (exists nx ny nz con0 (po : voro.particle_order),
            grid_resolution (nsites a) (xmin a) (xmax a) (ymin a) (ymax a)
              (zmin a) (zmax a) = Some (nx, ny, nz)
            /\ populate a (voro.container_new (xmin a) (xmax a) (ymin a) (ymax a)
                             (zmin a) (zmax a) nx ny nz false false false 8)
               = Ok (con0, po)
            /\ add_walls con0 (wall_str a) (wall_args_arr a) (n_wall_args a)
                 (verbose a) w = Thrown what w' /\ w' = w)
      \/ (exists nx ny nz con0 (po : voro.particle_order) con p,
            grid_resolution (nsites a) (xmin a) (xmax a) (ymin a) (ymax a)
              (zmin a) (zmax a) = Some (nx, ny, nz)
            /\ populate a (voro.container_new (xmin a) (xmax a) (ymin a) (ymax a)
                             (zmin a) (zmax a) nx ny nz false false false 8)
               = Ok (con0, po)
            /\ add_walls con0 (wall_str a) (wall_args_arr a) (n_wall_args a)
                 (verbose a) w = Done con w'
            /\ p ∈ po /\ voro.compute_cell con p = inl what)).
Proof.
  unfold try_block. intros H.
  rewrite mbind_pure in H.
  destruct (grid_resolution _ _ _ _ _ _ _) as [[[nx ny] nz]|] eqn:Hg;
    cbn [defined] in H; [|discriminate].
  rewrite mbind_pure in H.
  destruct (checked (end_ a - start a)) as [ncells|] eqn:Hnc;
    cbn [defined] in H; [|discriminate].
  apply checked_Some in Hnc as [-> Hr%int_range_spec].
  rewrite mbind_pure in H. unfold vector_n at 1 in H.
  destruct (Z.ltb_spec (end_ a - start a) 0) as [Hneg|Hpos].
  { injection H as <- <-. auto 6. }
  rewrite mbind_pure in H.
  destruct (if with_vertices a =? 0 then Ok []
            else vector_n length_error_what (end_ a - start a) [])
    as [vl0|what'|] eqn:Hvl.
  2:{ exfalso. revert Hvl. unfold vector_n. destruct (with_vertices a =? 0);
        [discriminate|]. destruct (Z.ltb_spec (end_ a - start a) 0); [lia|discriminate]. }
  2:{ discriminate. }
  rewrite mbind_pure in H.
  destruct (populate a _) as [[con0 po]|what'|] eqn:Hpop; [| |discriminate].
  2:{ exfalso. exact (populate_no_throw _ _ _ Hpop). }
  pose proof (add_walls_effect con0 (wall_str a) (wall_args_arr a) (n_wall_args a)
                (verbose a) w) as He.
  apply mbind_Thrown in H as [Hw|(con & w1 & Hw & H)].
  { rewrite Hw in He. subst w'. split; [reflexivity|]. split; [reflexivity|].
    right. left. exists nx, ny, nz, con0, po. auto. }
  rewrite Hw in He. destruct He as (Ho & Hm & _).
  rewrite mbind_pure in H.
  destruct (cell_loop a con po _) as [cs|what'|] eqn:Hloop; [| |discriminate].
  2:{ injection H as <- <-. split; [assumption|]. split; [assumption|].
      right. right. apply cell_loop_Throw in Hloop as (p & Hp & Hc).
      exists nx, ny, nz, con0, po, con, p. auto 6. }
  exfalso.
  rewrite mbind_pure in H.
  destruct (max_size (n_list cs)) as [mnn|what'|] eqn:Hmnn; [| |discriminate].
  2:{ exact (max_size_no_throw _ _ Hmnn). }
  unfold assign_max_nn at 1 in H. rewrite mbind_update_out in H.
  rewrite mbind_pure in H.
  destruct (pack (n_list cs) _ mnn (-10) _) as [neighs|what'|] eqn:Hpack;
    [| |discriminate].
  2:{ exact (pack_no_throw _ _ _ _ _ _ Hpack). }
  apply mbind_Thrown in H as [Hv|([] & w2 & Hv & H)].
  - destruct (with_vertices a =? 0); [discriminate|].
    rewrite mbind_pure in Hv.
    destruct (max_size (vertices_list cs)) as [mnv|what'|] eqn:Hmnv; [| |discriminate].
    2:{ exact (max_size_no_throw _ _ Hmnv). }
    unfold assign_max_nv at 1 in Hv. rewrite mbind_update_out in Hv.
    rewrite mbind_pure in Hv.
    destruct (pack (vertices_list cs) _ mnv nan _) as [verts|what'|] eqn:Hpv;
      [discriminate| |discriminate].
    exact (pack_no_throw _ _ _ _ _ _ Hpv).
  - unfold assign_volumes, assign_bb_min, assign_bb_max, assign_neighbours in H.
    rewrite !mbind_update_out in H. discriminate.
Qed.

End TryBlockThrown.


(** ** Writing over an array *)

Lemma overwrite_length {A} (off : nat) (src buf : list A) :
  (off + length src <= length buf)%nat -> length (overwrite off src buf) = length buf.
Proof.
  intros H. unfold overwrite. rewrite !length_app, length_take, length_drop. lia.
Qed.

Lemma overwrite_overwrite {A} (off : nat) (x xs buf : list A) :
  (off + length x <= length buf)%nat ->
  overwrite (off + length x) xs (overwrite off x buf) = overwrite off (x ++ xs) buf.
Proof.
  intros H. unfold overwrite.
  rewrite take_app_ge by (rewrite length_take; lia).
  rewrite length_take, Nat.min_l by lia.
  rewrite take_app_ge by lia.
  replace (off + length x - off - length x)%nat with 0%nat by lia.
  rewrite take_0, app_nil_r.
  rewrite drop_app_ge by (rewrite length_take; lia).
  rewrite length_take, Nat.min_l by lia.
  rewrite drop_app_ge by lia.
  rewrite drop_drop, length_app, <- !app_assoc.
  replace (off + length x + (off + length x + length xs - off - length x))%nat
    with (off + (length x + length xs))%nat by lia.
  reflexivity.
Qed.

Lemma overwrite_all {A} (src buf : list A) :
  length src = length buf -> overwrite 0 src buf = src.
Proof.
  intros H. unfold overwrite. rewrite take_0, drop_ge by (cbn; lia).
  cbn. apply app_nil_r.
Qed.

Lemma overwrite_nil {A} (off : nat) (buf : list A) : overwrite off [] buf = buf.
Proof. unfold overwrite. cbn. rewrite Nat.add_0_r. apply take_drop. Qed.

Lemma insert_overwrite {A} (i : nat) (x : A) (l : list A) :
  (i < length l)%nat -> <[i := x]> l = overwrite i [x] l.
Proof.
  intros H. unfold overwrite. cbn [length app].
  rewrite insert_take_drop by exact H.
  replace (i + 1)%nat with (S i) by lia. reflexivity.
Qed.

Lemma copy_to_overwrite {A} (buf src : list A) (off : Z) :
  0 <= off -> off + Z.of_nat (length src) <= Z.of_nat (length buf) ->
  copy_to buf off src = Ok (overwrite (Z.to_nat off) src buf).
Proof. apply copy_to_in_range. Qed.

Lemma fill_overwrite {A} (buf : list A) (first last : Z) (v : A) :
  0 <= first <= last -> last <= Z.of_nat (length buf) ->
  fill buf first last v
  = Ok (overwrite (Z.to_nat first) (replicate (Z.to_nat (last - first)) v) buf).
Proof.
  intros H1 H2. rewrite fill_in_range by assumption. unfold overwrite.
  rewrite length_replicate.
  replace (Z.to_nat first + Z.to_nat (last - first))%nat with (Z.to_nat last) by lia.
  reflexivity.
Qed.
(** ** Population *)

Lemma point_at_Ok (pts : list double) (i : Z) (x y z : double) :
  point_at pts i = Ok (x, y, z) ->
  0 <= i /\ i * 3 + 2 <= INT_MAX
  /\ pts !! Z.to_nat (i * 3) = Some x
  /\ pts !! Z.to_nat (i * 3 + 1) = Some y
  /\ pts !! Z.to_nat (i * 3 + 2) = Some z.
Proof.
  unfold point_at. intros H.
  bind_ok H i3 H3. apply defined_Ok, checked_Some in H3 as [-> _].
  bind_ok H x' Hx. apply read_Ok in Hx as [Hx0 Hx].
  bind_ok H i31 H31. apply defined_Ok, checked_Some in H31 as [-> _].
  bind_ok H y' Hy. apply read_Ok in Hy as [_ Hy].
  bind_ok H i32 H32. apply defined_Ok, checked_Some in H32 as [-> Hr%int_range_spec].
  bind_ok H z' Hz. apply read_Ok in Hz as [_ Hz].
  injection H as -> -> ->. repeat split; first [assumption | lia].
Qed.

Lemma same_setup_refl (c : voro.container) : same_setup c c.
Proof. unfold same_setup. tauto. Qed.

Lemma populate_body_Ok (a : args) (i : Z) (con con' : voro.container)
    (po po' : voro.particle_order) :
  populate_body a i (con, po) = Ok (con', po') ->
  exists p, voro.p_id p = i /\ positioned a p
    /\ voro.particles con' = voro.particles con ++ [p]
    /\ po' = po ++ filter (tagged a) [p]
    /\ same_setup con con'.
Proof.
  unfold populate_body. intros H.
  destruct ((start a <=? i) && (i <? end_ a)) eqn:Ht.
  - bind_ok H xyz Hp. destruct xyz as [[x y] z]. apply point_at_Ok in Hp.
    unfold voro.put_ordered in H. injection H as <- <-.
    exists {| voro.p_id := i; voro.p_x := x; voro.p_y := y; voro.p_z := z |}.
    split; [reflexivity|]. split; [exact Hp|]. split; [reflexivity|].
    split; [|unfold same_setup; cbn; tauto].
    rewrite filter_cons_True, filter_nil; [reflexivity|].
    unfold tagged. cbn. apply andb_true_iff in Ht as [H1 H2]. lia.
  - bind_ok H xyz Hp. destruct xyz as [[x y] z]. apply point_at_Ok in Hp.
    unfold voro.put in H. injection H as <- <-.
    exists {| voro.p_id := i; voro.p_x := x; voro.p_y := y; voro.p_z := z |}.
    split; [reflexivity|]. split; [exact Hp|]. split; [reflexivity|].
    split; [|unfold same_setup; cbn; tauto].
    rewrite filter_cons_False, filter_nil; [rewrite app_nil_r; reflexivity|].
    unfold tagged. cbn. apply andb_false_iff in Ht as [H1|H1]; lia.
Qed.

Lemma populate_foreach (a : args) (l : list Z) (con con' : voro.container)
    (po po' : voro.particle_order) :
  foreach l (populate_body a) (con, po) = Ok (con', po') ->
  exists ps, voro.p_id <$> ps = l
    /\ Forall (positioned a) ps
    /\ voro.particles con' = voro.particles con ++ ps
    /\ po' = po ++ filter (tagged a) ps
    /\ same_setup con con'.
Proof.
  revert con po. induction l as [|i l IH]; intros con po H.
  - injection H as <- <-. exists []. rewrite filter_nil, !app_nil_r.
    repeat split; try reflexivity. apply Forall_nil_2.
  - cbn [foreach] in H. bind_ok H s1 H1. destruct s1 as [con1 po1].
    apply populate_body_Ok in H1 as (p & Hid & Hpos & Hps & Hpo & Hs1).
    apply IH in H as (ps & Hids & Hall & Hps' & Hpo' & Hs').
    exists (p :: ps). split; [cbn; congruence|].
    split; [apply Forall_cons; auto|].
    split; [rewrite Hps', Hps, <- app_assoc; reflexivity|].
    split.
    + rewrite Hpo', Hpo, <- app_assoc. f_equal.
      change (p :: ps) with ([p] ++ ps). rewrite filter_app. reflexivity.
    + unfold same_setup in *. intuition congruence.
Qed.

(** The tagged ids among [k, k+1, ...] are the ids of the selection. *)
Lemma tagged_ids (a : args) (ps : list voro.particle) (k m : Z) :
  voro.p_id <$> ps = seqZ k m ->
  voro.p_id <$> filter (tagged a) ps
  = seqZ (Z.max (start a) k) (Z.min (end_ a) (k + m) - Z.max (start a) k).
Proof.
  revert k m. induction ps as [|p ps IH]; intros k m H.
  - rewrite filter_nil. cbn. symmetry. apply seqZ_nil.
    destruct (Z.le_gt_cases m 0) as [Hm|Hm]; [lia|].
    rewrite seqZ_cons in H by lia. discriminate.
  - destruct (Z.le_gt_cases m 0) as [Hm|Hm].
    { rewrite seqZ_nil in H by lia. discriminate. }
    rewrite seqZ_cons in H by lia. cbn in H. injection H as Hp Hps.
    apply IH in Hps.
    replace (Z.succ k + Z.pred m) with (k + m) in Hps by lia.
    destruct (decide (tagged a p)) as [Ht|Ht].
    + rewrite filter_cons_True by exact Ht. unfold tagged in Ht.
      cbn [fmap list_fmap]. rewrite Hps.
      rewrite (seqZ_cons (Z.max (start a) k)) by lia.
      f_equal; [lia|]. f_equal; lia.
    + rewrite filter_cons_False by exact Ht. unfold tagged in Ht.
      rewrite Hps.
      destruct (Z.lt_ge_cases k (start a)) as [Hk|Hk].
      * f_equal; lia.
      * rewrite !seqZ_nil by lia. reflexivity.
Qed.

(** ** The loop over the selected particles is a map *)

Section LoopMap.
Context {E : voro.engine}.

Lemma store_cells_nil (a : args) (k : nat) (s : cells) : store_cells a k [] s = s.
Proof.
  unfold store_cells. cbn [fmap list_fmap concat last default].
  rewrite !overwrite_nil. destruct s, (with_vertices a =? 0); reflexivity.
Qed.

Lemma default_last_cons {A} (d x : A) (l : list A) :
  default d (last (x :: l)) = default x (last l).
Proof.
  revert d x. induction l as [|y l IH]; intros d x; [reflexivity|].
  change (last (x :: y :: l)) with (last (y :: l)).
  rewrite (IH d y), (IH x y). reflexivity.
Qed.

Lemma overwrite_insert {A} (k : nat) (x : A) (xs l : list A) :
  (k < length l)%nat -> overwrite (S k) xs (<[k := x]> l) = overwrite k (x :: xs) l.
Proof.
  intros H. rewrite insert_overwrite by exact H.
  replace (S k) with (k + length [x])%nat by (cbn; lia).
  apply (overwrite_overwrite k [x] xs l). cbn. lia.
Qed.

Lemma overwrite_list3 (k : nat) (t : arr3) (xs l : list double) :
  (k * 3 + 3 <= length l)%nat ->
  overwrite (S k * 3) xs (overwrite (k * 3) (list3 t) l)
  = overwrite (k * 3) (list3 t ++ xs) l.
Proof.
  intros H.
  replace (S k * 3)%nat with (k * 3 + length (list3 t))%nat
    by (rewrite list3_length; lia).
  apply overwrite_overwrite. rewrite list3_length. exact H.
Qed.

Lemma store_cells_cons (a : args) (k : nat) (r : cell_result) (rs : list cell_result)
    (s : cells) :
  (k < length (n_list s))%nat -> (k < length (vols s))%nat ->
  (with_vertices a <> 0 -> (k < length (vertices_list s))%nat) ->
  (k * 3 + 3 <= length (bb_m s))%nat -> (k * 3 + 3 <= length (bb_M s))%nat ->
  store_cells a (S k) rs
    {| n_list := <[k := cr_neighbors r]> (n_list s);
       vertices_list := if with_vertices a =? 0 then vertices_list s
                        else <[k := cr_vertices r]> (vertices_list s);
       vols := <[k := cr_volume r]> (vols s);
       bb_m := overwrite (k * 3) (list3 (cr_min r)) (bb_m s);
       bb_M := overwrite (k * 3) (list3 (cr_max r)) (bb_M s);
       tmp_v := if with_vertices a =? 0 then cr_vertices r else tmp_v s |}
  = store_cells a k (r :: rs) s.
Proof.
  intros Hn Hv Hvl Hm HM. unfold store_cells.
  cbn [n_list vertices_list vols bb_m bb_M tmp_v fmap list_fmap concat].
  rewrite !overwrite_insert by assumption.
  rewrite !overwrite_list3 by assumption.
  destruct (Z.eqb_spec (with_vertices a) 0) as [Hw|Hw].
  - f_equal. symmetry. apply default_last_cons.
  - rewrite overwrite_insert by auto. reflexivity.
Qed.

Lemma cell_loop_map (a : args) (con : voro.container) (n : nat)
    (rest : list voro.particle) (k : nat) (s : cells) :
  voro.p_id <$> rest = seqZ (start a + Z.of_nat k) (Z.of_nat (length rest)) ->
  (k + length rest <= n)%nat ->
  Z.of_nat n * 3 <= INT_MAX + 1 ->
  length (n_list s) = n -> length (vols s) = n ->
  length (bb_m s) = (n * 3)%nat -> length (bb_M s) = (n * 3)%nat ->
  (with_vertices a <> 0 -> length (vertices_list s) = n) ->
  foreach rest (cell_body a con) s
  = do rs <- map_result (cell_of con) rest; Ok (store_cells a k rs s).
Proof.
  revert k s. induction rest as [|p rest IH]; intros k s Hids Hk Hn Hnl Hvo Hbm HbM Hvl.
  - cbn. rewrite store_cells_nil. reflexivity.
  - cbn [length] in Hids, Hk. rewrite Nat2Z.inj_succ, seqZ_cons in Hids by lia.
    cbn in Hids. injection Hids as Hp Hids. rewrite Z.pred_succ in Hids.
    cbn [foreach map_result]. unfold cell_body at 1. unfold cell_of at 1.
    rewrite Hp. replace (start a + Z.of_nat k - start a) with (Z.of_nat k) by lia.
    unfold INT_MAX in Hn.
    rewrite checked_in_range by (unfold INT_MIN, INT_MAX; lia). cbn [defined rbind].
    assert (Hrd : (if with_vertices a =? 0 then Ok []
                   else read (vertices_list s) (Z.of_nat k))
                  = Ok (if with_vertices a =? 0 then []
                        else default [] (vertices_list s !! k))).
    { destruct (Z.eqb_spec (with_vertices a) 0) as [Hw|Hw]; [reflexivity|].
      destruct (read_in_range (vertices_list s) (Z.of_nat k)) as (x & -> & Hx);
        [rewrite Hvl by exact Hw; lia|].
      rewrite Nat2Z.id in Hx. rewrite Hx. reflexivity. }
    rewrite Hrd. cbn [rbind]. clear Hrd.
    destruct (voro.compute_cell con p) as [what|c]; cbn [rbind]; [reflexivity|].
    rewrite !write_in_range by lia. cbn [rbind].
    assert (Hwv : (if with_vertices a =? 0 then Ok (vertices_list s)
                   else write (vertices_list s) (Z.of_nat k)
                          (voro.vertices c (voro.p_x p) (voro.p_y p) (voro.p_z p)))
                  = Ok (if with_vertices a =? 0 then vertices_list s
                        else <[k := voro.vertices c (voro.p_x p) (voro.p_y p)
                                      (voro.p_z p)]> (vertices_list s))).
    { destruct (Z.eqb_spec (with_vertices a) 0) as [Hw|Hw]; [reflexivity|].
      rewrite write_in_range by (rewrite Hvl by exact Hw; lia).
      rewrite Nat2Z.id. reflexivity. }
    rewrite Hwv. cbn [rbind]. clear Hwv.
    destruct (bounding_box _) as [[mn mx]|what|]; cbn [rbind]; [|reflexivity..].
    rewrite checked_in_range by (unfold INT_MIN, INT_MAX; lia). cbn [defined rbind].
    rewrite !copy_to_overwrite by (rewrite ?list3_length; lia). cbn [rbind].
    rewrite !Nat2Z.id. replace (Z.to_nat (Z.of_nat k * 3)) with (k * 3)%nat by lia.
    rewrite (IH (S k)).
    + destruct (map_result (cell_of con) rest) as [rs|what|]; cbn [rbind];
        [|reflexivity..].
      f_equal.
      apply (store_cells_cons a k
               {| cr_neighbors := voro.neighbors c; cr_volume := voro.volume c;
                  cr_vertices := voro.vertices c (voro.p_x p) (voro.p_y p) (voro.p_z p);
                  cr_min := mn; cr_max := mx |} rs s);
        first [lia | intros Hw; rewrite Hvl by exact Hw; lia].
    + rewrite Hids. f_equal. lia.
    + lia.
    + exact Hn.
    + cbn [n_list]. rewrite length_insert. exact Hnl.
    + cbn [vols]. rewrite length_insert. exact Hvo.
    + cbn [bb_m]. rewrite overwrite_length by (rewrite list3_length; lia). exact Hbm.
    + cbn [bb_M]. rewrite overwrite_length by (rewrite list3_length; lia). exact HbM.
    + cbn [vertices_list]. intros Hw.
      destruct (Z.eqb_spec (with_vertices a) 0); [contradiction|].
      rewrite length_insert. auto.
Qed.

End LoopMap.

(** ** The widest row *)

Lemma fold_largest {T} (l : list (list T)) (x y : list T) :
  fold_left (fun largest z => if size_cmp largest z then z else largest) l x = y ->
  (y = x \/ y ∈ l)
  /\ (length x <= length y)%nat
  /\ forall z, z ∈ l -> (length z <= length y)%nat.
Proof.
  revert x. induction l as [|z l IH]; intros x H.
  - cbn in H. subst y. split; [auto|]. split; [lia|].
    intros z Hz. apply elem_of_nil in Hz. contradiction.
  - cbn [fold_left] in H. apply IH in H as (Hin & Hle & Hall).
    unfold size_cmp in Hin, Hle.
    destruct (Nat.ltb_spec (length x) (length z)) as [Hlt|Hge].
    + split; [right; destruct Hin as [->|Hin];
              [apply list_elem_of_here|apply list_elem_of_further; exact Hin]|].
      split; [lia|].
      intros z' [->|Hz']%elem_of_cons; [lia|auto].
    + split; [destruct Hin as [->|Hin];
              [auto|right; apply list_elem_of_further; exact Hin]|].
      split; [lia|].
      intros z' [->|Hz']%elem_of_cons; [lia|auto].
Qed.

(** [max_size] is the length of the longest element. *)
Lemma max_size_Ok {T} (v : list (list T)) (m : Z) :
  max_size v = Ok m ->
  exists width : nat,
    m = Z.of_nat width /\ m <= INT_MAX
    /\ (exists row, row ∈ v /\ length row = width)
    /\ forall row, row ∈ v -> (length row <= width)%nat.
Proof.
  unfold max_size, max_element. intros H.
  destruct v as [|x l]; [discriminate|]. cbn [defined rbind] in H.
  apply defined_Ok, checked_Some in H as [-> Hr%int_range_spec].
  remember (fold_left _ l x) as y eqn:Hy. symmetry in Hy.
  apply fold_largest in Hy as (Hin & Hle & Hall).
  exists (length y). split; [reflexivity|]. split; [lia|]. split.
  - exists y. split; [|reflexivity].
    destruct Hin as [->|Hin]; [apply list_elem_of_here|apply list_elem_of_further; exact Hin].
  - intros row [->|Hrow]%elem_of_cons; auto.
Qed.

(** ** Packing writes the padded rows *)

Lemma pad_row_length {T} (width : nat) (pad : T) (row : list T) :
  (length row <= width)%nat -> length (pad_row width pad row) = width.
Proof. intros H. unfold pad_row. rewrite length_app, length_replicate. lia. Qed.

Lemma padded_length {T} (width : nat) (pad : T) (rows : list (list T)) :
  (forall row, row ∈ rows -> (length row <= width)%nat) ->
  length (padded width pad rows) = (length rows * width)%nat.
Proof.
  unfold padded. induction rows as [|row rows IH]; intros H; [reflexivity|].
  cbn [fmap list_fmap concat length]. rewrite length_app, pad_row_length.
  - change (list_fmap _ _ (pad_row width pad) rows) with (pad_row width pad <$> rows).
    rewrite IH; [lia|]. intros r Hr. apply H. apply list_elem_of_further. exact Hr.
  - apply H. apply list_elem_of_here.
Qed.

Lemma pack_foreach {T} (rows : list (list T)) (width : nat) (pad : T) (m k : nat)
    (buf : list T) :
  (k + m <= length rows)%nat ->
  (forall row, row ∈ rows -> (length row <= width)%nat) ->
  length buf = (length rows * width)%nat ->
  foreach (seqZ (Z.of_nat k) (Z.of_nat m)) (pack_body rows (Z.of_nat width) pad) buf
  = if forallb (fun idx => int_range (Z.of_nat width * idx))
         (seqZ (Z.of_nat k) (Z.of_nat m))
    then Ok (overwrite (k * width) (padded width pad (take m (drop k rows))) buf)
    else Undefined.
Proof.
  revert k buf. induction m as [|m IH]; intros k buf Hk Hrows Hbuf.
  - change (seqZ (Z.of_nat k) (Z.of_nat 0)) with (@nil Z).
    cbn [foreach forallb]. unfold padded. rewrite take_0.
    cbn [fmap list_fmap concat]. rewrite overwrite_nil. reflexivity.
  - rewrite Nat2Z.inj_succ, seqZ_cons by lia. rewrite Z.pred_succ.
    cbn [foreach forallb]. unfold pack_body at 1. unfold checked.
    destruct (int_range (Z.of_nat width * Z.of_nat k)) eqn:Hr; [|reflexivity].
    cbn [defined rbind andb].
    destruct (read_in_range rows (Z.of_nat k)) as (row & -> & Hrow); [lia|].
    rewrite Nat2Z.id in Hrow. cbn [rbind].
    assert (Hlen : (length row <= width)%nat).
    { apply Hrows. eapply list_elem_of_lookup_2. exact Hrow. }
    rewrite copy_to_overwrite by nia. cbn [rbind].
    rewrite fill_overwrite
      by (rewrite ?overwrite_length by nia; nia).
    replace (Z.to_nat (Z.of_nat width * Z.of_nat k)) with (k * width)%nat by lia.
    replace (Z.to_nat (Z.of_nat width * Z.of_nat k + Z.of_nat (length row)))
      with (k * width + length row)%nat by lia.
    replace (Z.to_nat (Z.of_nat width * Z.of_nat k + Z.of_nat width
                       - (Z.of_nat width * Z.of_nat k + Z.of_nat (length row))))
      with (width - length row)%nat by lia.
    rewrite overwrite_overwrite by nia.
    change (row ++ replicate (width - length row) pad) with (pad_row width pad row).
    replace (Z.succ (Z.of_nat k)) with (Z.of_nat (S k)) by lia.
    cbn [rbind].
    rewrite IH; [|lia|exact Hrows|rewrite overwrite_length; [exact Hbuf|]].
    + destruct (forallb _ _); [|reflexivity]. f_equal.
      replace (S k * width)%nat with (k * width + length (pad_row width pad row))%nat
        by (rewrite pad_row_length by exact Hlen; lia).
      rewrite overwrite_overwrite by (rewrite pad_row_length by exact Hlen; nia).
      rewrite (drop_S rows row k Hrow). reflexivity.
    + rewrite pad_row_length by exact Hlen. nia.
Qed.

Lemma pack_padded {T} (rows : list (list T)) (width : nat) (pad : T) (buf : list T) :
  (forall row, row ∈ rows -> (length row <= width)%nat) ->
  length buf = (length rows * width)%nat ->
  pack rows (Z.of_nat (length rows)) (Z.of_nat width) pad buf
  = if offsets_fit width (length rows) then Ok (padded width pad rows) else Undefined.
Proof.
  intros Hrows Hbuf. unfold pack, offsets_fit.
  change 0 with (Z.of_nat 0).
  rewrite (pack_foreach rows width pad (length rows) 0 buf) by (assumption || lia).
  destruct (forallb _ _); [|reflexivity].
  rewrite drop_0, firstn_all. cbn [Nat.mul].
  rewrite overwrite_all; [reflexivity|].
  rewrite padded_length by exact Hrows. lia.
Qed.

(** ** From the arguments to the results of the cells *)

Lemma map_result_length {A B} (f : A -> result B) (l : list A) (rs : list B) :
  map_result f l = Ok rs -> length rs = length l.
Proof.
  revert rs. induction l as [|x l IH]; intros rs H.
  - injection H as <-. reflexivity.
  - cbn [map_result] in H. bind_ok H y Hy. bind_ok H ys Hys.
    injection H as <-. cbn. f_equal. apply IH. reflexivity.
Qed.

Lemma map_result_lookup {A B} (f : A -> result B) (l : list A) (rs : list B)
    (i : nat) (x : A) :
  map_result f l = Ok rs -> l !! i = Some x ->
  exists y, rs !! i = Some y /\ f x = Ok y.
Proof.
  revert rs i. induction l as [|x' l IH]; intros rs i H Hi; [discriminate|].
  cbn [map_result] in H. bind_ok H y Hy. bind_ok H ys Hys. injection H as <-.
  destruct i as [|i].
  - injection Hi as ->. exists y. auto.
  - cbn in Hi. destruct (IH ys i eq_refl Hi) as (y' & Hy' & Hf). exists y'. auto.
Qed.

Lemma malloc_length {T} (junk : nat -> T) (n : Z) : length (malloc junk n) = Z.to_nat n.
Proof. unfold malloc. rewrite length_fmap, length_seq. reflexivity. Qed.

Lemma concat_list3_length {A} (f : A -> arr3) (l : list A) :
  length (concat ((fun r => list3 (f r)) <$> l)) = (length l * 3)%nat.
Proof.
  induction l as [|x l IH]; [reflexivity|].
  cbn [fmap list_fmap concat length]. rewrite length_app, list3_length.
  change (list_fmap _ _ (fun r => list3 (f r)) l) with ((fun r => list3 (f r)) <$> l).
  rewrite IH. lia.
Qed.

Lemma store_cells_initial (h : heap) (a : args) (n : nat) (rs : list cell_result) :
  length rs = n ->
  store_cells a 0 rs (initial_cells h a (Z.of_nat n)) = cells_full a rs.
Proof.
  intros Hn. unfold store_cells, initial_cells, cells_full.
  cbn [n_list vertices_list vols bb_m bb_M tmp_v Nat.mul].
  destruct (with_vertices a =? 0);
    rewrite !overwrite_all;
    rewrite ?length_fmap, ?length_replicate, ?malloc_length, ?concat_list3_length;
    first [lia | reflexivity].
Qed.

Section FromArguments.
Context {E : voro.engine}.

(** With every requested cell existing ([0 <= start], [end <= nsites]),
    the loop is the map of [cell_of] over the tagged particles, whatever the
    arrays held before. *)
Lemma cell_loop_initial (h : heap) (a : args) (con : voro.container)
    (po : voro.particle_order) (n : nat) :
  voro.p_id <$> po = seqZ (start a) (Z.of_nat n) ->
  Z.of_nat n * 3 <= INT_MAX + 1 ->
  cell_loop a con po (initial_cells h a (Z.of_nat n))
  = do rs <- map_result (cell_of con) po; Ok (cells_full a rs).
Proof.
  intros Hids Hn.
  assert (Hlen : length po = n).
  { rewrite <- (length_fmap voro.p_id), Hids, length_seqZ. lia. }
  unfold cell_loop, voro.c_loop_order.
  rewrite (cell_loop_map a con n po 0 (initial_cells h a (Z.of_nat n))).
  - destruct (map_result (cell_of con) po) as [rs|what|] eqn:Hrs; [|reflexivity..].
    cbn [rbind]. f_equal. apply store_cells_initial.
    apply map_result_length in Hrs. lia.
  - rewrite Hlen, Z.add_0_r. exact Hids.
  - lia.
  - exact Hn.
  - unfold initial_cells. cbn. rewrite length_replicate. lia.
  - unfold initial_cells. cbn. rewrite malloc_length. lia.
  - unfold initial_cells. cbn. rewrite malloc_length. lia.
  - unfold initial_cells. cbn. rewrite malloc_length. lia.
  - intros Hw. unfold initial_cells. cbn.
    destruct (Z.eqb_spec (with_vertices a) 0); [contradiction|].
    rewrite length_replicate. lia.
Qed.

End FromArguments.

(** What a completed population put into an empty container, for a
    selection inside the particle set. *)
Lemma populate_valid (a : args) (con con0 : voro.container) (po : voro.particle_order) :
  voro.particles con = [] ->
  0 <= start a -> end_ a <= nsites a -> 0 <= end_ a - start a ->
  populate a con = Ok (con0, po) ->
  voro.p_id <$> voro.particles con0 = seqZ 0 (nsites a)
  /\ Forall (positioned a) (voro.particles con0)
  /\ po = filter (tagged a) (voro.particles con0)
  /\ voro.p_id <$> po = seqZ (start a) (end_ a - start a)
  /\ (end_ a - start a) * 3 <= INT_MAX + 1
  /\ same_setup con con0.
Proof.
  intros Hemp Hs He Hn H. unfold populate in H.
  apply populate_foreach in H as (ps & Hids & Hpos & Hps & Hpo & Hset).
  rewrite Hemp in Hps. cbn in Hps, Hpo. subst po. rewrite Hps.
  split; [exact Hids|]. split; [exact Hpos|]. split; [reflexivity|].
  assert (Htag : voro.p_id <$> filter (tagged a) ps
                 = seqZ (start a) (end_ a - start a)).
  { rewrite (tagged_ids a ps 0 (nsites a) Hids).
    destruct (Z.eq_dec (end_ a - start a) 0) as [H0|H0].
    - rewrite !seqZ_nil by lia. reflexivity.
    - f_equal; lia. }
  split; [exact Htag|]. split; [|exact Hset].
  destruct (Z.eq_dec (end_ a - start a) 0) as [H0|H0]; [unfold INT_MAX; lia|].
  assert (Hlast : (voro.p_id <$> ps) !! Z.to_nat (end_ a - 1) = Some (end_ a - 1)).
  { rewrite Hids. rewrite lookup_seqZ. split; lia. }
  apply list_lookup_fmap_Some in Hlast as (p & Hpid & Hp).
  rewrite Forall_forall in Hpos.
  destruct (Hpos p (list_elem_of_lookup_2 _ _ _ Hp)) as (_ & Hr & _).
  rewrite <- Hpid in Hr. lia.
Qed.

(** ** A call that returns [NULL] *)

Section Success.
Context {P : Platform} {E : voro.engine}.

Lemma container_new_particles (ax bx ay by_ az bz : double) (nx ny nz : Z)
    (xp yp zp : bool) (im : Z) :
  voro.particles (voro.container_new ax bx ay by_ az bz nx ny nz xp yp zp im) = [].
Proof. reflexivity. Qed.

(** The outputs of a call that returns [NULL], for a selection inside the
    particle set, in terms of the results of the cells of the tagged
    particles. *)
Lemma successful_call (h : heap) (a : args) (w w' : world) (u : unit) :
  0 <= start a -> end_ a <= nsites a ->
  try_block h a w = Done u w' ->
  exists nx ny nz con0 con w1 rs (mnn mnv : nat),
    let ncells := end_ a - start a in
    let po := filter (tagged a) (voro.particles con0) in
    grid_resolution (nsites a) (xmin a) (xmax a) (ymin a) (ymax a) (zmin a) (zmax a)
      = Some (nx, ny, nz)
    /\ 1 <= ncells <= INT_MAX
    /\ populate a (voro.container_new (xmin a) (xmax a) (ymin a) (ymax a)
                     (zmin a) (zmax a) nx ny nz false false false 8) = Ok (con0, po)
    /\ voro.p_id <$> voro.particles con0 = seqZ 0 (nsites a)
    /\ Forall (positioned a) (voro.particles con0)
    /\ voro.p_id <$> po = seqZ (start a) ncells
    /\ add_walls con0 (wall_str a) (wall_args_arr a) (n_wall_args a) (verbose a) w
       = Done con w1
    /\ map_result (cell_of con) po = Ok rs
    /\ length rs = Z.to_nat ncells
    /\ widest mnn (cr_neighbors <$> rs)
    /\ (with_vertices a <> 0 -> widest mnv (cr_vertices <$> rs))
    /\ globals w' = globals w1
    /\ out w' = {| neighbours := padded mnn (-10) (cr_neighbors <$> rs);
                   max_nn := Z.of_nat mnn;
                   volumes := cr_volume <$> rs;
                   bb_min := concat ((fun r => list3 (cr_min r)) <$> rs);
                   bb_max := concat ((fun r => list3 (cr_max r)) <$> rs);
                   vertices := if with_vertices a =? 0 then vertices (out w)
                               else padded mnv nan (cr_vertices <$> rs);
                   max_nv := if with_vertices a =? 0 then 0 else Z.of_nat mnv |}.
Proof.
  intros Hs He H.
  apply try_block_Done in H
    as (nx & ny & nz & con0 & po & con & w1 & cs & mnn & neighs & mnv & verts & H).
  cbv zeta in H.
  destruct H as (Hg & Hn & Hpop & Hw & Hloop & Hmnn & Hpack & Hv & Hgl & Hout).
  destruct (populate_valid a _ con0 po (container_new_particles _ _ _ _ _ _ _ _ _ _ _ _ _)
              Hs He (proj1 Hn) Hpop) as (Hids & Hpos & Hpo & Htag & H3 & _).
  set (n := Z.to_nat (end_ a - start a)).
  assert (Hnn : Z.of_nat n = end_ a - start a) by (unfold n; lia).
  rewrite <- Hnn in Hloop, Htag, H3, Hpack, Hv.
  rewrite (cell_loop_initial h a con po n Htag H3) in Hloop.
  bind_ok Hloop rs Hrs. injection Hloop as <-.
  pose proof (map_result_length _ _ _ Hrs) as Hlen.
  assert (Hpolen : length po = n).
  { rewrite <- (length_fmap voro.p_id), Htag, length_seqZ. lia. }
  cbn [n_list vols bb_m bb_M] in Hmnn, Hpack, Hout.
  apply max_size_Ok in Hmnn as (width & -> & Hwr & Hwid).
  replace (Z.of_nat n) with (Z.of_nat (length (cr_neighbors <$> rs))) in Hpack at 1
    by (rewrite length_fmap; lia).
  rewrite pack_padded in Hpack;
    [|apply Hwid|rewrite malloc_length, length_fmap; nia].
  destruct (offsets_fit width _); [|discriminate]. injection Hpack as <-.
  assert (Hne : 1 <= end_ a - start a).
  { destruct Hwid as [(row & Hrow & _) _]. destruct rs; [inversion Hrow|].
    cbn in Hlen. lia. }
  destruct Hv as [(Hwv & -> & ->)|(Hwv & Hmnv & Hpv)].
  - exists nx, ny, nz, con0, con, w1, rs, width, 0%nat. cbv zeta.
    rewrite <- Hpo, <- Hnn.
    apply Z.eqb_eq in Hwv as Hwv'. rewrite Hwv'.
    pose proof (add_walls_effect con0 (wall_str a) (wall_args_arr a) (n_wall_args a)
                  (verbose a) w) as Hef.
    rewrite Hw in Hef. destruct Hef as (Ho & _ & _).
    repeat (split; [first [assumption | reflexivity | lia | contradiction]|]).
    exact Hout.
  - apply Z.eqb_neq in Hwv as Hwv'. cbn [vertices_list cells_full] in Hmnv, Hpv.
    rewrite Hwv' in Hmnv, Hpv.
    apply max_size_Ok in Hmnv as (vwidth & -> & Hvr & Hvwid).
    replace (Z.of_nat n) with (Z.of_nat (length (cr_vertices <$> rs))) in Hpv at 1
      by (rewrite length_fmap; lia).
    rewrite pack_padded in Hpv;
      [|apply Hvwid|rewrite malloc_length, length_fmap; nia].
    destruct (offsets_fit vwidth _); [|discriminate]. injection Hpv as <-.
    exists nx, ny, nz, con0, con, w1, rs, width, vwidth. cbv zeta.
    rewrite <- Hpo, <- Hnn, Hwv'.
    repeat (split; [first [assumption | reflexivity | lia | intros _; exact Hvwid]|]).
    exact Hout.
Qed.

End Success.

(** ** Reading the packed channels *)

Lemma concat_block_lookup {A} (blocks : list (list A)) (width idx k : nat) (b : list A) :
  (forall b', b' ∈ blocks -> length b' = width) ->
  blocks !! idx = Some b -> (k < width)%nat ->
  concat blocks !! (idx * width + k)%nat = b !! k.
Proof.
  revert idx. induction blocks as [|b0 blocks IH]; intros idx Hlen Hb Hk; [discriminate|].
  pose proof (Hlen b0 (list_elem_of_here _ _)) as H0.
  destruct idx as [|idx]; cbn [concat].
  - injection Hb as ->. cbn [Nat.mul Nat.add]. apply lookup_app_l. lia.
  - cbn in Hb. rewrite lookup_app_r by lia.
    replace (S idx * width + k - length b0)%nat with (idx * width + k)%nat by lia.
    apply IH; [|exact Hb|exact Hk].
    intros b' Hb'. apply Hlen. apply list_elem_of_further. exact Hb'.
Qed.

Lemma concat_block_length {A} (blocks : list (list A)) (width : nat) :
  (forall b', b' ∈ blocks -> length b' = width) ->
  length (concat blocks) = (length blocks * width)%nat.
Proof.
  induction blocks as [|b0 blocks IH]; intros Hlen; [reflexivity|].
  cbn [concat length]. rewrite length_app, (Hlen b0 (list_elem_of_here _ _)), IH; [lia|].
  intros b' Hb'. apply Hlen. apply list_elem_of_further. exact Hb'.
Qed.

(** In the packed array, the slots of row [idx] hold the row, left-aligned,
    then [pad]. *)
Lemma padded_lookup {T} (width : nat) (pad : T) (rows : list (list T)) (idx : nat)
    (row : list T) :
  (forall r, r ∈ rows -> (length r <= width)%nat) ->
  rows !! idx = Some row ->
  (forall k, (k < length row)%nat ->
     padded width pad rows !! (idx * width + k)%nat = row !! k)
  /\ (forall k, (length row <= k < width)%nat ->
        padded width pad rows !! (idx * width + k)%nat = Some pad).
Proof.
  intros Hw Hrow.
  assert (Hlen : (length row <= width)%nat).
  { apply Hw. eapply list_elem_of_lookup_2. exact Hrow. }
  assert (Hblocks : forall b', b' ∈ pad_row width pad <$> rows -> length b' = width).
  { intros b' (r & -> & Hr)%list_elem_of_fmap. apply pad_row_length. auto. }
  assert (Hb : (pad_row width pad <$> rows) !! idx = Some (pad_row width pad row)).
  { rewrite list_lookup_fmap, Hrow. reflexivity. }
  unfold padded. split; intros k Hk.
  - rewrite (concat_block_lookup _ width idx k _ Hblocks Hb) by lia.
    unfold pad_row. apply lookup_app_l. lia.
  - rewrite (concat_block_lookup _ width idx k _ Hblocks Hb) by lia.
    unfold pad_row. rewrite lookup_app_r by lia.
    apply lookup_replicate_2. lia.
Qed.

Lemma list3_blocks_lookup {A} (f : A -> arr3) (l : list A) (idx : nat) (x : A) (j : nat) :
  l !! idx = Some x -> (j < 3)%nat ->
  concat ((fun r => list3 (f r)) <$> l) !! (idx * 3 + j)%nat
  = Some (get3 (f x) (Z.of_nat j)).
Proof.
  intros Hx Hj.
  rewrite (concat_block_lookup _ 3 idx j (list3 (f x))).
  - apply list3_lookup. exact Hj.
  - intros b' (r & -> & _)%list_elem_of_fmap. apply list3_length.
  - rewrite list_lookup_fmap, Hx. reflexivity.
  - exact Hj.
Qed.

Section CellOf.
Context {E : voro.engine}.

Lemma cell_of_Ok (con : voro.container) (p : voro.particle) (r : cell_result) :
  cell_of con p = Ok r ->
  exists c,
    voro.compute_cell con p = inr c
    /\ cr_neighbors r = voro.neighbors c
    /\ cr_volume r = voro.volume c
    /\ cr_vertices r = voro.vertices c (voro.p_x p) (voro.p_y p) (voro.p_z p)
    /\ bounding_box_fold (cr_vertices r) = Some (cr_min r, cr_max r).
Proof.
  unfold cell_of. intros H.
  destruct (voro.compute_cell con p) as [what|c]; cbn [rbind] in H; [discriminate|].
  bind_ok H bb Hbb. destruct bb as [mn mx]. injection H as <-.
  cbn [cr_neighbors cr_volume cr_vertices cr_min cr_max].
  rewrite bounding_box_fold_eq in Hbb. apply defined_Ok in Hbb.
  exists c. auto.
Qed.

End CellOf.

Section Outputs.
Context {P : Platform} {E : voro.engine}.

Lemma wrap_NULL (h : heap) (a : args) (w w' : world) :
  hyperion_voropp_wrap h a w = Returned NULL w' -> try_block h a w = Done tt w'.
Proof.
  unfold hyperion_voropp_wrap.
  destruct (try_block h a w) as [[] w1|what w1|]; [|discriminate..].
  intros [= ->]. reflexivity.
Qed.

Lemma tagged_lookup (a : args) (po : voro.particle_order) (n : Z) (p : voro.particle) :
  voro.p_id <$> po = seqZ (start a) n -> p ∈ po ->
  po !! Z.to_nat (voro.p_id p - start a) = Some p.
Proof.
  intros Hids Hp. apply list_elem_of_lookup_1 in Hp as [i Hi].
  assert (Hid : (voro.p_id <$> po) !! i = Some (voro.p_id p)).
  { rewrite list_lookup_fmap, Hi. reflexivity. }
  rewrite Hids in Hid. apply lookup_seqZ in Hid as [Hid _].
  replace (Z.to_nat (voro.p_id p - start a)) with i by lia. exact Hi.
Qed.

(** C1 (as amended). For every valid input ([0 <= start < end <= nsites])
    on which the call returns [NULL]: every particle index in [0, nsites)
    is inserted into the container, at the position [points] gives it, and
    it is tagged (recorded in [po]) exactly when [start <= i < end]; the
    loop visits the tagged particles, each once; each tagged particle has
    its result at the local index [id - start] of the output arrays: its
    volume, its bounding box, its neighbour row and, when vertices were
    requested, its vertex row; and the arrays have exactly
    [ncells = end - start] slots or rows, so no other particle yields
    output. Without vertices no vertex array is handed over. *)
Theorem selected_cells_computed (h : heap) (a : args) (w w' : world) :
  0 <= start a -> start a < end_ a -> end_ a <= nsites a ->
  hyperion_voropp_wrap h a w = Returned NULL w' ->
  exists nx ny nz con0 con w1,
    let ncells := Z.to_nat (end_ a - start a) in
    let mnn := Z.to_nat (max_nn (out w')) in
    let mnv := Z.to_nat (max_nv (out w')) in
    let po := filter (tagged a) (voro.particles con0) in
    populate a (voro.container_new (xmin a) (xmax a) (ymin a) (ymax a)
                  (zmin a) (zmax a) nx ny nz false false false 8) = Ok (con0, po)
    /\ add_walls con0 (wall_str a) (wall_args_arr a) (n_wall_args a) (verbose a) w
       = Done con w1
    /\ voro.p_id <$> voro.particles con0 = seqZ 0 (nsites a)
    /\ Forall (positioned a) (voro.particles con0)
    /\ voro.particles con = voro.particles con0
    /\ (forall p, p ∈ po <-> p ∈ voro.particles con0 /\ start a <= voro.p_id p < end_ a)
    /\ voro.c_loop_order con po = po
    /\ NoDup po
    /\ voro.p_id <$> po = seqZ (start a) (end_ a - start a)
    /\ length (volumes (out w')) = ncells
    /\ length (bb_min (out w')) = (ncells * 3)%nat
    /\ length (bb_max (out w')) = (ncells * 3)%nat
    /\ length (neighbours (out w')) = (ncells * mnn)%nat
    /\ (with_vertices a <> 0 -> length (vertices (out w')) = (ncells * mnv)%nat)
    /\ (with_vertices a = 0 ->
        max_nv (out w') = 0 /\ vertices (out w') = vertices (out w))
    /\ forall p, p ∈ po ->
         exists c mn mx,
           let idx := Z.to_nat (voro.p_id p - start a) in
           let v := voro.vertices c (voro.p_x p) (voro.p_y p) (voro.p_z p) in
           voro.compute_cell con p = inr c
           /\ bounding_box_fold v = Some (mn, mx)
           /\ volumes (out w') !! idx = Some (voro.volume c)
           /\ (forall j, (j < 3)%nat ->
                 bb_min (out w') !! (idx * 3 + j)%nat = Some (get3 mn (Z.of_nat j))
                 /\ bb_max (out w') !! (idx * 3 + j)%nat = Some (get3 mx (Z.of_nat j)))
           /\ (forall k, (k < length (voro.neighbors c))%nat ->
                 neighbours (out w') !! (idx * mnn + k)%nat = voro.neighbors c !! k)
           /\ (with_vertices a <> 0 ->
               forall k, (k < length v)%nat ->
                 vertices (out w') !! (idx * mnv + k)%nat = v !! k).
Proof.
  intros Hs Hlt He H. apply wrap_NULL in H.
  apply (successful_call h a w w' tt Hs He) in H
    as (nx & ny & nz & con0 & con & w1 & rs & mnn & mnv & H).
  cbv zeta in H.
  destruct H as (Hg & Hn & Hpop & Hids & Hpos & Htag & Hw & Hrs & Hlen & Hwid & Hvwid
                   & _ & Hout).
  exists nx, ny, nz, con0, con, w1. cbv zeta.
  pose proof (add_walls_effect con0 (wall_str a) (wall_args_arr a) (n_wall_args a)
                (verbose a) w) as Hef.
  rewrite Hw in Hef. destruct Hef as (_ & _ & Hps).
  rewrite Hout. cbn [neighbours max_nn volumes bb_min bb_max vertices max_nv].
  rewrite Nat2Z.id.
  split; [exact Hpop|]. split; [exact Hw|]. split; [exact Hids|].
  split; [exact Hpos|]. split; [exact Hps|].
  split.
  { intros p. rewrite list_elem_of_filter. unfold tagged. tauto. }
  split; [reflexivity|].
  split.
  { apply (NoDup_fmap_1 voro.p_id). rewrite Htag. apply NoDup_seqZ. }
  split; [exact Htag|].
  split; [rewrite length_fmap; exact Hlen|].
  split; [rewrite concat_list3_length, Hlen; reflexivity|].
  split; [rewrite concat_list3_length, Hlen; reflexivity|].
  split.
  { rewrite padded_length by (intros row Hrow; apply Hwid; exact Hrow).
    rewrite length_fmap, Hlen. reflexivity. }
  split.
  { intros Hwv. apply Z.eqb_neq in Hwv as Hwv'. rewrite Hwv', Nat2Z.id.
    rewrite padded_length by (intros row Hrow; apply (Hvwid Hwv); exact Hrow).
    rewrite length_fmap, Hlen. reflexivity. }
  split.
  { intros Hwv. apply Z.eqb_eq in Hwv. rewrite Hwv. auto. }
  intros p Hp.
  pose proof (tagged_lookup a _ _ p Htag Hp) as Hi.
  destruct (map_result_lookup _ _ _ _ _ Hrs Hi) as (r & Hr & Hcell).
  apply cell_of_Ok in Hcell as (c & Hc & Hnb & Hvol & Hv & Hbb).
  exists c, (cr_min r), (cr_max r).
  split; [exact Hc|]. split; [rewrite <- Hv; exact Hbb|].
  split; [rewrite list_lookup_fmap, Hr, <- Hvol; reflexivity|].
  split.
  { intros j Hj. split; apply list3_blocks_lookup; assumption. }
  split.
  { intros k Hk. rewrite <- Hnb in *.
    apply (padded_lookup mnn (-10) (cr_neighbors <$> rs) _ (cr_neighbors r)).
    - intros row Hrow. apply Hwid. exact Hrow.
    - rewrite list_lookup_fmap, Hr. reflexivity.
    - exact Hk. }
  intros Hwv k Hk. apply Z.eqb_neq in Hwv as Hwv'. rewrite Hwv', Nat2Z.id.
  rewrite <- Hv in *.
  apply (padded_lookup mnv nan (cr_vertices <$> rs) _ (cr_vertices r)).
  - intros row Hrow. apply (Hvwid Hwv). exact Hrow.
  - rewrite list_lookup_fmap, Hr. reflexivity.
  - exact Hk.
Qed.


End Outputs.

Lemma selected_cells_computed_witness :
  let P := Sample.platform in
  let E := Sample.scripted Sample.three_cells in
  let h := Sample.heap0 in
  let a := Sample.call_args 1 3 3 1 EmptyString [] in
  let w := Sample.world0 in
  exists w',
    (0 <= start a /\ start a < end_ a /\ end_ a <= nsites a
     /\ hyperion_voropp_wrap h a w = Returned NULL w')
    /\ volumes (out w') = [Sample.d 16; Sample.d 40]
    /\ max_nv (out w') = 9
    /\ length (volumes (out w')) = Z.to_nat (end_ a - start a)
    /\ (with_vertices a <> 0 ->
        length (vertices (out w'))
        = (Z.to_nat (end_ a - start a) * Z.to_nat (max_nv (out w')))%nat).
Proof.
  intros P E h a w.
  destruct (hyperion_voropp_wrap h a w) as [[|] w'|] eqn:Hrun;
    [|vm_compute in Hrun; discriminate Hrun..].
  exists w'.
  assert (H0 : 0 <= start a) by (cbn; lia).
  assert (H1 : start a < end_ a) by (cbn; lia).
  assert (H2 : end_ a <= nsites a) by (cbn; lia).
  destruct (selected_cells_computed h a w w' H0 H1 H2 Hrun)
    as (nx & ny & nz & con0 & con & w1 & Hthm).
  cbv zeta in Hthm.
  destruct Hthm as (_ & _ & _ & _ & _ & _ & _ & _ & _ & Hvol & _ & _ & _ & Hvert & _).
  split; [auto|].
  split; [vm_compute in Hrun; injection Hrun as <-; reflexivity|].
  split; [vm_compute in Hrun; injection Hrun as <-; reflexivity|].
  split; [exact Hvol|exact Hvert].
Defined.

(** C1 as stated fails. Two calls on a valid selection that produce no
    result at all: one with a wall that [add_walls] refuses, one in which
    the library throws on a selected particle. Each returns the error
    message and leaves the outputs as they were found. *)
Lemma valid_range_no_result :
  let P := Sample.platform in
  let refused := Sample.call_args 1 3 3 1 "sphere"
                   [Sample.d 2; Sample.d 2; Sample.d 2; Sample.d 0] in
  let plain := Sample.call_args 1 3 3 1 EmptyString [] in
  (0 <= start refused /\ start refused < end_ refused
   /\ end_ refused <= nsites refused)
  /\ (exists w',
        @hyperion_voropp_wrap P (Sample.scripted Sample.three_cells)
          Sample.heap0 refused Sample.world0 = Returned error_message_c_str w'
        /\ out w' = out Sample.world0
        /\ volumes (out w') = [] /\ neighbours (out w') = []
        /\ bb_min (out w') = [] /\ bb_max (out w') = [])
  /\ (0 <= start plain /\ start plain < end_ plain /\ end_ plain <= nsites plain)
  /\ (exists w',
        @hyperion_voropp_wrap P (Sample.scripted (take 2 Sample.three_cells))
          Sample.heap0 plain Sample.world0 = Returned error_message_c_str w'
        /\ out w' = out Sample.world0
        /\ volumes (out w') = [] /\ neighbours (out w') = []
        /\ bb_min (out w') = [] /\ bb_max (out w') = []).
Proof.
  intros P refused plain. split; [cbn; lia|]. split.
  { destruct (hyperion_voropp_wrap Sample.heap0 refused Sample.world0)
      as [[|] w'|] eqn:Hrun;
      [vm_compute in Hrun; discriminate Hrun| |vm_compute in Hrun; discriminate Hrun].
    exists w'. vm_compute in Hrun. injection Hrun as <-. repeat split. }
  split; [cbn; lia|].
  destruct (hyperion_voropp_wrap Sample.heap0 plain Sample.world0)
    as [[|] w'|] eqn:Hrun;
    [vm_compute in Hrun; discriminate Hrun| |vm_compute in Hrun; discriminate Hrun].
  exists w'. vm_compute in Hrun. injection Hrun as <-. repeat split.
Qed.



(** ** Independence of the statics and of the allocated blocks *)

(** ** The loop completes only on cells with a first vertex *)

Lemma foreach_Ok_each {A S} (l : list A) (body : A -> S -> result S) (s s' : S) (x : A) :
  foreach l body s = Ok s' -> x ∈ l -> exists s1 s2, body x s1 = Ok s2.
Proof.
  revert s. induction l as [|y l IH]; intros s H Hx; [inversion Hx|].
  cbn [foreach] in H. bind_ok H s1 H1.
  apply elem_of_cons in Hx as [->|Hx]; [eauto|]. eapply IH; eauto.
Qed.

Lemma first3_Ok (v : list double) (t : arr3) : first3 v = Ok t -> (3 <= length v)%nat.
Proof. destruct v as [|t0 [|t1 [|t2 v]]]; try discriminate. intros _. cbn. lia. Qed.

Section LoopOk.
Context {E : voro.engine}.

Lemma cell_loop_Ok_each (a : args) (con : voro.container) (po : voro.particle_order)
    (s s' : cells) (p : voro.particle) :
  cell_loop a con po s = Ok s' -> p ∈ po ->
  exists c, voro.compute_cell con p = inr c
    /\ (3 <= length (voro.vertices c (voro.p_x p) (voro.p_y p) (voro.p_z p)))%nat.
Proof.
  unfold cell_loop, voro.c_loop_order. intros H Hp.
  destruct (foreach_Ok_each _ _ _ _ _ H Hp) as (s1 & s2 & Hb).
  apply cell_body_Ok in Hb as (c & mn & mx & Hb). cbv zeta in Hb.
  destruct Hb as (Hc & Hbb & _). exists c. split; [exact Hc|].
  unfold bounding_box in Hbb. bind_ok Hbb t Ht. eapply first3_Ok. exact Ht.
Qed.

End LoopOk.

(** ** The world does not steer the call *)

Lemma mbind_unfold {A B} (c : M A) (k : A -> M B) (w : world) :
  mbind c k w
  = match c w with
    | Done a w' => k a w'
    | Thrown what w' => Thrown what w'
    | Crashed => Crashed
    end.
Proof. reflexivity. Qed.

(** [add_walls] decides what to do from its arguments alone. *)
Lemma add_walls_world (con : voro.container) (ws : string) (arr : list double)
    (n verbose : Z) :
  exists r : result (option voro.wall),
    forall w, add_walls con ws arr n verbose w
              = match r with
                | Ok None => Done con w
                | Ok (Some wl) => Done (voro.add_wall con wl) (set_wall_ptr wl w)
                | Throw what => Thrown what w
                | Undefined => Crashed
                end.
Proof.
  unfold add_walls, mbind, pure, throw, mret, wall_ptr_reset, wall_ptr_get.
  destruct (String.eqb_spec ws "sphere") as [->|Hs];
    [change (String.eqb "sphere" "cylinder") with false|];
  repeat (cbn -[leb read print_wall_args String.eqb];
          match goal with
          | |- context [print_wall_args ?a ?b ?c] =>
              destruct (print_wall_args a b c) as [[]| |]
          | |- context [String.eqb ?a ?b] => destruct (String.eqb a b)
          | |- context [Z.eqb ?a ?b] => destruct (Z.eqb a b)
          | |- context [read ?a ?b] => destruct (read a b)
          | |- context [leb ?a ?b] => destruct (leb a b)
          end);
    cbn;
    first [ (exists (Ok None); intros w; reflexivity)
          | (eexists (Ok (Some _)); intros w; reflexivity)
          | (eexists (Throw _); intros w; reflexivity)
          | (exists Undefined; intros w; reflexivity) ].
Qed.

Section Blind.
Context {P : Platform} {E : voro.engine}.

(** What the [try] block does to the outputs it was asked for, and the
    exception it lets out, do not depend on the world it starts in. *)
Lemma try_block_world (h : heap) (a : args) (w1 w2 : world) :
  observe_block a (try_block h a w1) = observe_block a (try_block h a w2).
Proof.
  unfold try_block.
  rewrite !mbind_pure.
  destruct (grid_resolution _ _ _ _ _ _ _) as [[[nx ny] nz]|];
    cbn [defined]; [|reflexivity].
  rewrite !mbind_pure.
  destruct (checked (end_ a - start a)) as [ncells|]; cbn [defined]; [|reflexivity].
  rewrite !mbind_pure.
  destruct (vector_n length_error_what ncells []) as [nl0|what|]; [|reflexivity..].
  rewrite !mbind_pure.
  destruct (if with_vertices a =? 0 then Ok [] else vector_n length_error_what ncells [])
    as [vl0|what|]; [|reflexivity..].
  rewrite !mbind_pure.
  destruct (populate a _) as [[con0 po]|what|]; [|reflexivity..].
  rewrite !(mbind_unfold (add_walls _ _ _ _ _)).
  destruct (add_walls_world con0 (wall_str a) (wall_args_arr a) (n_wall_args a)
              (verbose a)) as [r Hr].
  rewrite !Hr.
  assert (Htail : forall con u1 u2,
    out u1 = out w1 -> out u2 = out w2 ->
    observe_block a
      ((step cs <- pure (cell_loop a con po
                           {| n_list := nl0; vertices_list := vl0;
                              vols := malloc (junk_vols h) ncells;
                              bb_m := malloc (junk_bb_m h) (ncells * 3);
                              bb_M := malloc (junk_bb_M h) (ncells * 3);
                              tmp_v := [] |});
        step mnn <- pure (max_size (n_list cs));
        step _ <- assign_max_nn mnn;
        step neighs <- pure (pack (n_list cs) ncells mnn (-10)
                               (malloc (junk_neighs h) (ncells * mnn)));
        step _ <- (if with_vertices a =? 0 then assign_max_nv 0
                   else
                     step mnv <- pure (max_size (vertices_list cs));
                     step _ <- assign_max_nv mnv;
                     step verts <- pure (pack (vertices_list cs) ncells mnv nan
                                           (malloc (junk_verts h) (ncells * mnv)));
                     assign_vertices verts);
        step _ <- assign_volumes (vols cs);
        step _ <- assign_bb_min (bb_m cs);
        step _ <- assign_bb_max (bb_M cs);
        assign_neighbours neighs) u1)
    = observe_block a
      ((step cs <- pure (cell_loop a con po
                           {| n_list := nl0; vertices_list := vl0;
                              vols := malloc (junk_vols h) ncells;
                              bb_m := malloc (junk_bb_m h) (ncells * 3);
                              bb_M := malloc (junk_bb_M h) (ncells * 3);
                              tmp_v := [] |});
        step mnn <- pure (max_size (n_list cs));
        step _ <- assign_max_nn mnn;
        step neighs <- pure (pack (n_list cs) ncells mnn (-10)
                               (malloc (junk_neighs h) (ncells * mnn)));
        step _ <- (if with_vertices a =? 0 then assign_max_nv 0
                   else
                     step mnv <- pure (max_size (vertices_list cs));
                     step _ <- assign_max_nv mnv;
                     step verts <- pure (pack (vertices_list cs) ncells mnv nan
                                           (malloc (junk_verts h) (ncells * mnv)));
                     assign_vertices verts);
        step _ <- assign_volumes (vols cs);
        step _ <- assign_bb_min (bb_m cs);
        step _ <- assign_bb_max (bb_M cs);
        assign_neighbours neighs) u2)).
  { intros con u1 u2 _ _.
    rewrite !mbind_pure.
    destruct (cell_loop a con po _) as [cs|what|]; [|reflexivity..].
    rewrite !mbind_pure.
    destruct (max_size (n_list cs)) as [mnn|what|]; [|reflexivity..].
    unfold assign_max_nn. rewrite !mbind_update_out.
    rewrite !mbind_pure.
    destruct (pack (n_list cs) ncells mnn (-10) _) as [neighs|what|]; [|reflexivity..].
    unfold assign_volumes, assign_bb_min, assign_bb_max, assign_neighbours.
    destruct (with_vertices a =? 0) eqn:Hwv.
    - unfold assign_max_nv. rewrite !mbind_update_out. unfold update_out.
      cbn [observe_block out]. unfold requested. cbn. rewrite Hwv. reflexivity.
    - cbv [mbind pure assign_max_nv assign_vertices update_out].
      destruct (max_size (vertices_list cs)) as [mnv|what|]; [|reflexivity..].
      destruct (pack (vertices_list cs) ncells mnv nan _) as [verts|what|];
        [|reflexivity..].
      cbn [observe_block out]. unfold requested. cbn.
      rewrite Hwv. reflexivity. }
  destruct r as [[wl|]|what|]; [apply Htail; reflexivity..|reflexivity|reflexivity].
Qed.

End Blind.

Section HeapBlind.
Context {P : Platform} {E : voro.engine}.

(** For a selection inside the particle set every slot of the arrays
    obtained from [malloc] is written before it is handed over: what the
    blocks held does not show. *)
Lemma try_block_heap (h1 h2 : heap) (a : args) (w : world) :
  0 <= start a -> end_ a <= nsites a ->
  try_block h1 a w = try_block h2 a w.
Proof.
  intros Hs He. unfold try_block.
  rewrite !mbind_pure.
  destruct (grid_resolution _ _ _ _ _ _ _) as [[[nx ny] nz]|];
    cbn [defined]; [|reflexivity].
  rewrite !mbind_pure.
  destruct (checked (end_ a - start a)) as [ncells|] eqn:Hnc;
    cbn [defined]; [|reflexivity].
  apply checked_Some in Hnc as [-> _].
  rewrite !mbind_pure. unfold vector_n at 1 3.
  destruct (Z.ltb_spec (end_ a - start a) 0) as [Hneg|Hpos]; [reflexivity|].
  rewrite !mbind_pure.
  assert (Hvl : forall h, (if with_vertices a =? 0 then Ok []
                 else vector_n length_error_what (end_ a - start a) [])
                = Ok (vertices_list (initial_cells h a (end_ a - start a)))
                  :> result (list (list double))).
  { intros h. unfold initial_cells, vector_n. cbn [vertices_list].
    destruct (with_vertices a =? 0); [reflexivity|].
    destruct (Z.ltb_spec (end_ a - start a) 0); [lia|reflexivity]. }
  rewrite (Hvl h1) at 1. rewrite (Hvl h2).
  rewrite !mbind_pure.
  destruct (populate a _) as [[con0 po]|what|] eqn:Hpop; [|reflexivity..].
  destruct (populate_valid a _ con0 po (container_new_particles _ _ _ _ _ _ _ _ _ _ _ _ _)
              Hs He Hpos Hpop) as (_ & _ & _ & Htag & H3 & _).
  rewrite !(mbind_unfold (add_walls _ _ _ _ _)).
  destruct (add_walls con0 _ _ _ _ w) as [con w1|what w1|]; [|reflexivity..].
  rewrite !mbind_pure.
  change {| n_list := replicate (Z.to_nat (end_ a - start a)) [];
            vertices_list := vertices_list (initial_cells h1 a (end_ a - start a));
            vols := malloc (junk_vols h1) (end_ a - start a);
            bb_m := malloc (junk_bb_m h1) ((end_ a - start a) * 3);
            bb_M := malloc (junk_bb_M h1) ((end_ a - start a) * 3);
            tmp_v := [] |}
    with (initial_cells h1 a (end_ a - start a)).
  change {| n_list := replicate (Z.to_nat (end_ a - start a)) [];
            vertices_list := vertices_list (initial_cells h2 a (end_ a - start a));
            vols := malloc (junk_vols h2) (end_ a - start a);
            bb_m := malloc (junk_bb_m h2) ((end_ a - start a) * 3);
            bb_M := malloc (junk_bb_M h2) ((end_ a - start a) * 3);
            tmp_v := [] |}
    with (initial_cells h2 a (end_ a - start a)).
  set (n := Z.to_nat (end_ a - start a)).
  assert (Hnn : end_ a - start a = Z.of_nat n) by (unfold n; lia).
  rewrite Hnn in Htag, H3 |- *.
  rewrite !(cell_loop_initial _ a con po n Htag H3).
  destruct (map_result (cell_of con) po) as [rs|what|] eqn:Hrs; cbn [rbind];
    [|reflexivity..].
  pose proof (map_result_length _ _ _ Hrs) as Hlen.
  assert (Hpolen : length po = n).
  { rewrite <- (length_fmap voro.p_id), Htag, length_seqZ. lia. }
  rewrite !mbind_pure.
  destruct (max_size (n_list (cells_full a rs))) as [mnn|what|] eqn:Hmnn;
    [|reflexivity..].
  apply max_size_Ok in Hmnn as (width & -> & _ & Hwid).
  unfold assign_max_nn. rewrite !mbind_update_out. rewrite !mbind_pure.
  cbn [n_list cells_full] in Hwid |- *.
  replace (Z.of_nat n) with (Z.of_nat (length (cr_neighbors <$> rs)))
    by (rewrite length_fmap; lia).
  rewrite !pack_padded;
    try (apply Hwid); try (rewrite malloc_length, !length_fmap; nia).
  destruct (offsets_fit width _); [|reflexivity].
  destruct (with_vertices a =? 0) eqn:Hwv; [reflexivity|].
  rewrite !(mbind_unfold (mbind _ _)). rewrite !mbind_pure.
  cbn [vertices_list cells_full]. rewrite Hwv.
  destruct (max_size _) as [mnv|what|] eqn:Hmnv; [|reflexivity..].
  apply max_size_Ok in Hmnv as (vwidth & -> & _ & Hvwid).
  unfold assign_max_nv. rewrite !mbind_update_out. rewrite !mbind_pure.
  rewrite length_fmap.
  replace (Z.of_nat (length rs)) with (Z.of_nat (length (cr_vertices <$> rs)))
    by (rewrite length_fmap; lia).
  rewrite !pack_padded;
    try (apply Hvwid); try (rewrite malloc_length, !length_fmap; nia).
  reflexivity.
Qed.

End HeapBlind.

(** ** Wall validation *)

Ltac in_messages :=
  unfold invalid_argument_messages;
  repeat first [apply list_elem_of_here | apply list_elem_of_further].

Lemma add_walls_validation (con : voro.container) (ws : string) (arr : list double)
    (n verbose : Z) (w : world) :
  n = Z.of_nat (length arr) ->
  (bad_wall ws arr n
   /\ exists what, what ∈ invalid_argument_messages
        /\ add_walls con ws arr n verbose w = Thrown what w)
  \/ (~ bad_wall ws arr n
      /\ add_walls con ws arr n verbose w
         = Done (attach (requested_wall ws arr) con) (keep_wall (requested_wall ws arr) w)).
Proof.
  intros Hn.
  destruct (add_walls_cases con ws arr n verbose w Hn)
    as [(-> & H4 & H)
       |[(a0 & a1 & a2 & a3 & -> & -> & Hr & H)
       |[(a0 & a1 & a2 & a3 & -> & -> & Hr & H)
       |[(-> & H7 & H)
       |[(a0 & a1 & a2 & a3 & a4 & a5 & a6 & -> & -> & Hr & H)
       |[(a0 & a1 & a2 & a3 & a4 & a5 & a6 & -> & -> & Hr & H)
       |(Hs & Hc & H)]]]]]].
  - left. split; [left; auto|]. eexists. split; [|exact H].
    in_messages.
  - left. split; [left; split; [reflexivity|right; exists a3; auto]|].
    eexists. split; [|exact H]. in_messages.
  - right. split; [|exact H].
    intros [(_ & [Hb|(r & Hl & Hb)])|(Hb & _)]; [cbn in Hn; lia| |discriminate].
    cbn in Hl. injection Hl as <-. congruence.
  - left. split; [right; auto|]. eexists. split; [|exact H].
    in_messages.
  - left. split; [right; split; [reflexivity|right; exists a6; auto]|].
    eexists. split; [|exact H]. in_messages.
  - right. split; [|exact H].
    intros [(Hb & _)|(_ & [Hb|(r & Hl & Hb)])]; [discriminate|cbn in Hn; lia|].
    cbn in Hl. injection Hl as <-. congruence.
  - right. split; [intros [(Hb & _)|(Hb & _)]; contradiction|].
    rewrite H. unfold requested_wall.
    destruct (String.eqb_spec ws "sphere"); [contradiction|].
    destruct (String.eqb_spec ws "cylinder"); [contradiction|]. reflexivity.
Qed.

Section Walls.
Context {P : Platform} {E : voro.engine}.

(** C3. [add_walls] throws if and only if the wall name is "sphere" with a
    parameter count other than 4 or a radius (4th parameter) [<= 0], or
    "cylinder" with a count other than 7 or a radius (7th parameter)
    [<= 0]; what it throws is one of the four [std::invalid_argument]
    errors and nothing has been changed. Otherwise it raises nothing and
    returns the container with the requested wall attached; for every
    other wall name that is the container as it was. On a successful call
    every cell is computed on the container that has the wall attached. *)
Theorem wall_validation (h : heap) (a : args) (w : world) :
  n_wall_args a = Z.of_nat (length (wall_args_arr a)) ->
  let add con := add_walls con (wall_str a) (wall_args_arr a) (n_wall_args a)
                   (verbose a) w in
  let wl := requested_wall (wall_str a) (wall_args_arr a) in
  (forall con,
     (exists what w', add con = Thrown what w')
     <-> bad_wall (wall_str a) (wall_args_arr a) (n_wall_args a))
  /\ (forall con what w',
        add con = Thrown what w' -> what ∈ invalid_argument_messages /\ w' = w)
  /\ (forall con,
        ~ bad_wall (wall_str a) (wall_args_arr a) (n_wall_args a) ->
        add con = Done (attach wl con) (keep_wall wl w))
  /\ (wall_str a <> "sphere"%string -> wall_str a <> "cylinder"%string ->
      forall con, add con = Done con w)
  /\ (forall w' u, try_block h a w = Done u w' ->
        exists nx ny nz con0 (po : voro.particle_order),
          grid_resolution (nsites a) (xmin a) (xmax a) (ymin a) (ymax a)
            (zmin a) (zmax a) = Some (nx, ny, nz)
          /\ populate a (voro.container_new (xmin a) (xmax a) (ymin a) (ymax a)
                           (zmin a) (zmax a) nx ny nz false false false 8)
             = Ok (con0, po)
          /\ forall p, p ∈ po ->
               exists c, voro.compute_cell (attach wl con0) p = inr c).
Proof.
  intros Hn add wl. subst add wl.
  assert (Hv := fun con => add_walls_validation con (wall_str a) (wall_args_arr a)
                             (n_wall_args a) (verbose a) w Hn).
  split; [|split; [|split; [|split]]].
  - intros con. destruct (Hv con) as [(Hb & what & _ & H)|(Hb & H)].
    + split; [intros _; exact Hb|]. intros _. exists what, w. exact H.
    + split; [|intros Hb'; contradiction]. intros (what & w' & H').
      rewrite H in H'. discriminate.
  - intros con what w' H'. destruct (Hv con) as [(Hb & what0 & Hin & H)|(Hb & H)];
      rewrite H in H'; [|discriminate]. injection H' as <- <-. auto.
  - intros con Hb. destruct (Hv con) as [(Hb' & _)|(_ & H)]; [contradiction|exact H].
  - intros Hs Hc con. destruct (Hv con) as [([(Hb & _)|(Hb & _)] & _)|(_ & H)];
      [contradiction..|].
    rewrite H. unfold requested_wall.
    destruct (String.eqb_spec (wall_str a) "sphere"); [contradiction|].
    destruct (String.eqb_spec (wall_str a) "cylinder"); [contradiction|]. reflexivity.
  - intros w' u H.
    apply try_block_Done in H
      as (nx & ny & nz & con0 & po & con & w1 & cs & mnn & neighs & mnv & verts & H).
    cbv zeta in H. destruct H as (Hg & _ & Hpop & Hw & Hloop & _).
    exists nx, ny, nz, con0, po. split; [exact Hg|]. split; [exact Hpop|].
    intros p Hp. destruct (Hv con0) as [(_ & what & _ & H)|(_ & H)];
      rewrite H in Hw; [discriminate|]. injection Hw as <- _.
    destruct (cell_loop_Ok_each _ _ _ _ _ p Hloop Hp) as (c & Hc & _).
    exists c. exact Hc.
Qed.

End Walls.

Lemma wall_validation_witness :
  let a := Sample.call_args 1 3 3 1 "sphere" [Sample.d 2; Sample.d 2; Sample.d 2; Sample.d 0] in
  n_wall_args a = Z.of_nat (length (wall_args_arr a))
  /\ forall con what w',
       add_walls con (wall_str a) (wall_args_arr a) (n_wall_args a) (verbose a)
         Sample.world0 = Thrown what w' ->
       what ∈ invalid_argument_messages /\ w' = Sample.world0.
Proof.
  intros a. split; [reflexivity|].
  exact (proj1 (proj2 (@wall_validation Sample.platform
                         (Sample.scripted Sample.three_cells)
                         Sample.heap0 a Sample.world0 eq_refl))).
Defined.

(** ** Cells without vertices *)

Lemma populate_tagged (a : args) (con con0 : voro.container)
    (po : voro.particle_order) (p : voro.particle) :
  populate a con = Ok (con0, po) -> p ∈ po -> tagged a p.
Proof.
  unfold populate. intros H Hp.
  apply populate_foreach in H as (ps & _ & _ & _ & -> & _).
  cbn [app] in Hp. apply list_elem_of_filter in Hp as [Ht _]. exact Ht.
Qed.

(** ** A cell without vertices *)

(** C6 as stated fails. For the engine scripted with [degenerate_cells]
    the cell of the selected particle 1 has no vertex, and the call does
    not return an error: it reads the first triplet of an empty vector,
    which is undefined. *)
Lemma zero_vertex_cell_no_error :
  let P := Sample.platform in
  let E := Sample.scripted degenerate_cells in
  let a := Sample.call_args 0 2 2 1 EmptyString [] in
  let p := {| voro.p_id := 1; voro.p_x := Sample.d 2; voro.p_y := Sample.d 2;
              voro.p_z := Sample.d 2 |} in
  tagged a p
  /\ (forall con,
        exists c, voro.compute_cell con p = inr c
          /\ voro.vertices c (voro.p_x p) (voro.p_y p) (voro.p_z p) = [])
  /\ hyperion_voropp_wrap Sample.heap0 a Sample.world0 = UndefinedBehaviour.
Proof.
  intros P E a p. split; [unfold tagged; cbn; lia|]. split.
  - intros con. exists ([0; -2], Sample.d 0, []). split; reflexivity.
  - vm_compute. reflexivity.
Qed.

(** ** The call as its caller sees it *)

Lemma print_wall_args_no_throw (arr : list double) (n verbose : Z) :
  no_throw (print_wall_args arr n verbose).
Proof. unfold print_wall_args. destruct (verbose =? 0); no_throw. Qed.

Lemma add_walls_Thrown (con : voro.container) (ws : string) (arr : list double)
    (n verbose : Z) (w w' : world) (what : string) :
  add_walls con ws arr n verbose w = Thrown what w' ->
  what ∈ invalid_argument_messages.
Proof.
  unfold add_walls, mbind, pure, throw, mret, wall_ptr_reset, wall_ptr_get.
  destruct (String.eqb_spec ws "sphere") as [->|Hs];
    [change (String.eqb "sphere" "cylinder") with false|];
  repeat (cbn -[leb read print_wall_args String.eqb];
          match goal with
          | |- context [print_wall_args ?a ?b ?c] =>
              let Hp := fresh "Hp" in
              destruct (print_wall_args a b c) as [[]| |] eqn:Hp;
              [|exfalso; exact (print_wall_args_no_throw _ _ _ _ Hp)|]
          | |- context [String.eqb ?a ?b] => destruct (String.eqb a b)
          | |- context [Z.eqb ?a ?b] => destruct (Z.eqb a b)
          | |- context [read ?a ?b] =>
              let Hr := fresh "Hr" in
              destruct (read a b) eqn:Hr;
              [|exfalso; exact (read_no_throw _ _ _ Hr)|]
          | |- context [leb ?a ?b] => destruct (leb a b)
          end);
    cbn; intros H; first [discriminate H | injection H as <- _; in_messages].
Qed.

Section Boundary.
Context {P : Platform} {E : voro.engine}.

Lemma observe_wrap (h : heap) (a : args) (w : world) :
  observe a (hyperion_voropp_wrap h a w) = reported (observe_block a (try_block h a w)).
Proof.
  unfold hyperion_voropp_wrap. destruct (try_block h a w); reflexivity.
Qed.

(** C10. For a selection inside the particle set ([0 <= start] and
    [end <= nsites]) two calls with the same arguments give the same
    result, whatever the statics and the freshly allocated blocks hold
    when each starts: both succeed with the same requested outputs
    ([max_nn], [max_nv] and the neighbour, volume, bounding-box and vertex
    arrays, element by element), or both return the same message, or both
    run into undefined behaviour. *)
Theorem call_deterministic (h1 h2 : heap) (a : args) (w1 w2 : world) :
  0 <= start a -> end_ a <= nsites a ->
  observe a (hyperion_voropp_wrap h1 a w1) = observe a (hyperion_voropp_wrap h2 a w2).
Proof.
  intros Hs He. rewrite !observe_wrap.
  rewrite (try_block_heap h1 h2 a w1 Hs He), (try_block_world h2 a w1 w2).
  reflexivity.
Qed.

(** C9. After a call has returned, the statics hold what it wrote: after
    [NULL] the error text is the one found and [wall_ptr] owns the wall
    this call built, if it built one; after an error the text is the
    message of this call, and [wall_ptr] owns the wall of this call or
    what it owned before. None of it influences a later call: what a later
    call returns and assigns is the same as if it had started from the
    statics found by the first. *)
Theorem statics_after_call (h : heap) (a : args) (w w' : world) (r : retval) :
  n_wall_args a = Z.of_nat (length (wall_args_arr a)) ->
  hyperion_voropp_wrap h a w = Returned r w' ->
  let wl := requested_wall (wall_str a) (wall_args_arr a) in
  match r with
  | NULL => globals w' = globals (keep_wall wl w)
  | error_message_c_str =>
      (exists what, error_message (globals w') = what_message what)
      /\ (wall_ptr (globals w') = wall_ptr (globals w)
          \/ wall_ptr (globals w') = wall_ptr (globals (keep_wall wl w)))
  end
  /\ forall h' b,
       observe b (hyperion_voropp_wrap h' b w') = observe b (hyperion_voropp_wrap h' b w).
Proof.
  intros Hn Hrun wl. split.
  - unfold hyperion_voropp_wrap in Hrun.
    destruct (try_block h a w) as [u w1|what w1|] eqn:Hb; [| |discriminate].
    + injection Hrun as <- <-.
      apply try_block_Done in Hb
        as (nx & ny & nz & con0 & po & con & w2 & cs & mnn & neighs & mnv & verts & H).
      cbv zeta in H. destruct H as (_ & _ & _ & Hw & _ & _ & _ & _ & Hgl & _).
      rewrite Hgl.
      destruct (add_walls_validation con0 (wall_str a) (wall_args_arr a)
                  (n_wall_args a) (verbose a) w Hn) as [(_ & what & _ & H)|(_ & H)];
        rewrite H in Hw; [discriminate|]. injection Hw as _ <-. reflexivity.
    + injection Hrun as <- <-. split; [exists what; reflexivity|].
      cbn [set_error_message globals wall_ptr].
      apply try_block_Thrown in Hb as (_ & _ & Hsrc).
      destruct Hsrc as [(_ & _ & ->)
                       |[(nx & ny & nz & con0 & po & _ & _ & _ & ->)
                        |(nx & ny & nz & con0 & po & con & q & _ & _ & Hw & _)]];
        [left; reflexivity..|].
      destruct (add_walls_validation con0 (wall_str a) (wall_args_arr a)
                  (n_wall_args a) (verbose a) w Hn) as [(_ & what' & _ & H)|(_ & H)];
        rewrite H in Hw; [discriminate|]. injection Hw as _ <-. right. reflexivity.
  - intros h' b. rewrite !observe_wrap, (try_block_world h' b w' w). reflexivity.
Qed.

(** C2. Whenever the behaviour of the call is defined it either returns
    [NULL], having assigned every output it was asked for from what the
    loop and the packing computed, or returns the error message, having
    assigned none. Every exception is converted into the message: the
    length error of a negative cell count, the invalid argument of
    [add_walls], and what the engine throws while computing a cell. *)
Theorem call_outcome (h : heap) (a : args) (w : world) :
  match hyperion_voropp_wrap h a w with
  | Returned NULL w' =>
      message NULL w' = None
      /\ error_message (globals w') = error_message (globals w)
      /\ exists nx ny nz con0 po con w1 cs mnn neighs mnv verts,
           let ncells := end_ a - start a in
           grid_resolution (nsites a) (xmin a) (xmax a) (ymin a) (ymax a)
             (zmin a) (zmax a) = Some (nx, ny, nz)
           /\ populate a (voro.container_new (xmin a) (xmax a) (ymin a) (ymax a)
                            (zmin a) (zmax a) nx ny nz false false false 8)
              = Ok (con0, po)
           /\ add_walls con0 (wall_str a) (wall_args_arr a) (n_wall_args a)
                (verbose a) w = Done con w1
           /\ cell_loop a con po (initial_cells h a ncells) = Ok cs
           /\ max_size (n_list cs) = Ok mnn
           /\ pack (n_list cs) ncells mnn (-10) (malloc (junk_neighs h) (ncells * mnn))
              = Ok neighs
           /\ ((with_vertices a = 0 /\ mnv = 0 /\ verts = vertices (out w))
               \/ (with_vertices a <> 0
                   /\ max_size (vertices_list cs) = Ok mnv
                   /\ pack (vertices_list cs) ncells mnv nan
                        (malloc (junk_verts h) (ncells * mnv)) = Ok verts))
           /\ out w' = {| neighbours := neighs; max_nn := mnn; volumes := vols cs;
                          bb_min := bb_m cs; bb_max := bb_M cs; vertices := verts;
                          max_nv := mnv |}
  | Returned error_message_c_str w' =>
      out w' = out w
      /\ exists what,
           message error_message_c_str w' = Some (what_message what)
           /\ ((end_ a - start a < 0 /\ what = length_error_what)
               \/ (what ∈ invalid_argument_messages
                   /\ exists con0,
                        add_walls con0 (wall_str a) (wall_args_arr a) (n_wall_args a)
                          (verbose a) w = Thrown what w)
               \/ (exists con (p : voro.particle),
                     tagged a p /\ voro.compute_cell con p = inl what))
  | UndefinedBehaviour => True
  end.
Proof.
  unfold hyperion_voropp_wrap.
  destruct (try_block h a w) as [u w'|what w'|] eqn:Hb; [| |exact I].
  - split; [reflexivity|].
    apply try_block_Done in Hb
      as (nx & ny & nz & con0 & po & con & w1 & cs & mnn & neighs & mnv & verts & H).
    cbv zeta in H.
    destruct H as (Hg & _ & Hpop & Hw & Hloop & Hmnn & Hpack & Hv & Hgl & Hout).
    split.
    { rewrite Hgl.
      pose proof (add_walls_effect con0 (wall_str a) (wall_args_arr a) (n_wall_args a)
                    (verbose a) w) as He.
      rewrite Hw in He. destruct He as (_ & He & _). exact He. }
    exists nx, ny, nz, con0, po, con, w1, cs, mnn, neighs, mnv, verts. cbv zeta.
    auto 10.
  - apply try_block_Thrown in Hb as (Hout & _ & Hsrc).
    split; [exact Hout|]. exists what. split; [reflexivity|].
    destruct Hsrc as [(Hneg & -> & _)
                     |[(nx & ny & nz & con0 & po & _ & _ & Hw & ->)
                      |(nx & ny & nz & con0 & po & con & p & _ & Hpop & _ & Hp & Hc)]].
    + left. auto.
    + right. left. split; [exact (add_walls_Thrown _ _ _ _ _ _ _ _ Hw)|].
      exists con0. exact Hw.
    + right. right. exists con, p. split; [|exact Hc].
      exact (populate_tagged _ _ _ _ _ Hpop Hp).
Qed.

End Boundary.

Lemma call_deterministic_witness :
  let P := Sample.platform in
  let E := Sample.scripted Sample.three_cells in
  let a := Sample.call_args 1 3 3 1 EmptyString [] in
  let w2 := {| globals := {| error_message := "stale";
                             wall_ptr := Some (voro.wall_sphere zero zero zero zero) |};
               out := out Sample.world0 |} in
  (0 <= start a /\ end_ a <= nsites a)
  /\ observe a (hyperion_voropp_wrap Sample.heap0 a Sample.world0)
     = observe a (hyperion_voropp_wrap Sample.heap1 a w2).
Proof.
  intros P E a w2.
  assert (H0 : 0 <= start a) by (cbn; lia).
  assert (H1 : end_ a <= nsites a) by (cbn; lia).
  split; [auto|].
  exact (call_deterministic Sample.heap0 Sample.heap1 a Sample.world0 w2 H0 H1).
Defined.

(** With [end] beyond the number of particles the slots of the particles
    that do not exist are never written: the volumes handed over by two
    calls with the same arguments differ with what [malloc] returned. *)
Lemma call_not_deterministic :
  let P := Sample.platform in
  let E := Sample.scripted Sample.three_cells in
  let a := Sample.call_args 0 2 1 0 EmptyString [] in
  exists w1 w2,
    hyperion_voropp_wrap Sample.heap0 a Sample.world0 = Returned NULL w1
    /\ hyperion_voropp_wrap Sample.heap1 a Sample.world0 = Returned NULL w2
    /\ volumes (out w1) = [Sample.d 8; Sample.d 777]
    /\ volumes (out w2) = [Sample.d 8; Sample.d 111]
    /\ observe a (hyperion_voropp_wrap Sample.heap0 a Sample.world0)
       <> observe a (hyperion_voropp_wrap Sample.heap1 a Sample.world0).
Proof.
  intros P E a.
  destruct (hyperion_voropp_wrap Sample.heap0 a Sample.world0) as [[|] w1|] eqn:H1;
    [|vm_compute in H1; discriminate H1..].
  destruct (hyperion_voropp_wrap Sample.heap1 a Sample.world0) as [[|] w2|] eqn:H2;
    [|vm_compute in H2; discriminate H2..].
  exists w1, w2. vm_compute in H1, H2. injection H1 as <-. injection H2 as <-.
  split; [reflexivity|]. split; [reflexivity|].
  split; [reflexivity|]. split; [reflexivity|].
  cbn. intros H. discriminate H.
Qed.

Lemma statics_after_call_witness :
  let P := Sample.platform in
  let E := Sample.scripted Sample.three_cells in
  let a := Sample.call_args 1 3 3 1 "sphere"
             [Sample.d 2; Sample.d 2; Sample.d 2; Sample.d 1] in
  exists w',
    (n_wall_args a = Z.of_nat (length (wall_args_arr a))
     /\ hyperion_voropp_wrap Sample.heap0 a Sample.world0 = Returned NULL w')
    /\ globals w'
       = {| error_message := EmptyString;
            wall_ptr := Some (voro.wall_sphere (Sample.d 2) (Sample.d 2) (Sample.d 2)
                                (Sample.d 1)) |}
    /\ forall h' b,
         observe b (hyperion_voropp_wrap h' b w')
         = observe b (hyperion_voropp_wrap h' b Sample.world0).
Proof.
  intros P E a.
  destruct (hyperion_voropp_wrap Sample.heap0 a Sample.world0) as [[|] w'|] eqn:Hrun;
    [|vm_compute in Hrun; discriminate Hrun..].
  exists w'.
  assert (Hn : n_wall_args a = Z.of_nat (length (wall_args_arr a))) by reflexivity.
  destruct (statics_after_call Sample.heap0 a Sample.world0 w' NULL Hn Hrun)
    as [Hgl Hlater].
  split; [auto|]. split; [exact Hgl|exact Hlater].
Defined.

(** The wall built by a call is still owned by [wall_ptr] after a later
    call that asks for no wall, and the text of a failed call is still in
    [error_message] after a later call that succeeds. *)
Lemma statics_persist :
  let P := Sample.platform in
  let E := Sample.scripted Sample.three_cells in
  let sphere := Sample.call_args 1 3 3 1 "sphere"
                  [Sample.d 2; Sample.d 2; Sample.d 2; Sample.d 1] in
  let refused := Sample.call_args 1 3 3 1 "sphere"
                   [Sample.d 2; Sample.d 2; Sample.d 2; Sample.d 0] in
  let plain := Sample.call_args 1 3 3 1 EmptyString [] in
  exists w1 w2 w3 w4,
    hyperion_voropp_wrap Sample.heap0 sphere Sample.world0 = Returned NULL w1
    /\ hyperion_voropp_wrap Sample.heap0 plain w1 = Returned NULL w2
    /\ wall_ptr (globals Sample.world0) = None
    /\ wall_ptr (globals w2)
       = Some (voro.wall_sphere (Sample.d 2) (Sample.d 2) (Sample.d 2) (Sample.d 1))
    /\ hyperion_voropp_wrap Sample.heap0 refused w2 = Returned error_message_c_str w3
    /\ hyperion_voropp_wrap Sample.heap0 plain w3 = Returned NULL w4
    /\ error_message (globals Sample.world0) = EmptyString
    /\ error_message (globals w4)
       = what_message "the radius of a 'sphere' wall must be strictly positive".
Proof.
  intros P E sphere refused plain.
  pose (after := fun (c : call) => match c with
                                   | Returned _ w => w
                                   | UndefinedBehaviour => Sample.world0
                                   end).
  pose (w1 := after (hyperion_voropp_wrap Sample.heap0 sphere Sample.world0)).
  pose (w2 := after (hyperion_voropp_wrap Sample.heap0 plain w1)).
  pose (w3 := after (hyperion_voropp_wrap Sample.heap0 refused w2)).
  pose (w4 := after (hyperion_voropp_wrap Sample.heap0 plain w3)).
  exists w1, w2, w3, w4.
  do 7 (split; [vm_compute; reflexivity|]). vm_compute. reflexivity.
Qed.

(** A domain that satisfies [min < max] on every axis and a selection
    inside the particle set on which the call neither returns [NULL] nor
    the message: the volume of the box underflows to 0, the quotient by
    its cube root is infinite and its conversion to [int] is undefined. *)
Lemma tiny_domain_undefined :
  let P := Sample.platform in
  let E := Sample.scripted Sample.three_cells in
  let a := tiny_domain in
  (0 <= start a /\ start a < end_ a /\ end_ a <= nsites a)
  /\ (ltb (xmin a) (xmax a) = true /\ ltb (ymin a) (ymax a) = true
      /\ ltb (zmin a) (zmax a) = true)
  /\ Z.of_nat (length (points a)) = nsites a * 3
  /\ hyperion_voropp_wrap Sample.heap0 a Sample.world0 = UndefinedBehaviour.
Proof.
  intros P E a. split; [cbn; lia|]. split; [repeat split|].
  split; [reflexivity|]. vm_compute. reflexivity.
Qed.

(** * Further properties of the wrapper *)

(** ** The [try] block from its stages *)

Section Stages.
Context {P : Platform} {E : voro.engine}.

Lemma try_block_stages (h : heap) (a : args) (w : world) (nx ny nz : Z)
    (con0 : voro.container) (po : voro.particle_order) :
  grid_resolution (nsites a) (xmin a) (xmax a) (ymin a) (ymax a) (zmin a) (zmax a)
    = Some (nx, ny, nz) ->
  0 <= end_ a - start a <= INT_MAX ->
  populate a (voro.container_new (xmin a) (xmax a) (ymin a) (ymax a)
                (zmin a) (zmax a) nx ny nz false false false 8) = Ok (con0, po) ->
  try_block h a w
  = match add_walls con0 (wall_str a) (wall_args_arr a) (n_wall_args a) (verbose a) w with
    | Done con w1 =>
        match cell_loop a con po (initial_cells h a (end_ a - start a)) with
        | Ok cs => packing h a cs w1
        | Throw what => Thrown what w1
        | Undefined => Crashed
        end
    | Thrown what w' => Thrown what w'
    | Crashed => Crashed
    end.
Proof.
  intros Hg Hn Hpop. unfold try_block.
  rewrite mbind_pure, Hg. cbn [defined].
  rewrite mbind_pure.
  assert (Hc : checked (end_ a - start a) = Some (end_ a - start a)).
  { unfold checked, int_range, INT_MIN. unfold INT_MAX in Hn.
    destruct (Z.leb_spec (-2147483648) (end_ a - start a)); [|lia].
    destruct (Z.leb_spec (end_ a - start a) INT_MAX); [reflexivity|].
    unfold INT_MAX in *. lia. }
  rewrite Hc. cbn [defined].
  rewrite mbind_pure. unfold vector_n at 1.
  destruct (Z.ltb_spec (end_ a - start a) 0) as [Hneg|_]; [lia|].
  rewrite mbind_pure.
  assert (Hvl : (if with_vertices a =? 0 then Ok []
                 else vector_n length_error_what (end_ a - start a) [])
                = Ok (vertices_list (initial_cells h a (end_ a - start a)))
                  :> result (list (list double))).
  { unfold initial_cells, vector_n. cbn [vertices_list].
    destruct (with_vertices a =? 0); [reflexivity|].
    destruct (Z.ltb_spec (end_ a - start a) 0); [lia|reflexivity]. }
  rewrite Hvl. rewrite mbind_pure, Hpop.
  rewrite (mbind_unfold (add_walls _ _ _ _ _)).
  destruct (add_walls con0 _ _ _ _ w) as [con w1|what w1|]; [|reflexivity..].
  rewrite mbind_pure.
  reflexivity.
Qed.

(** X1. A selection with [end < start]: when the grid sizing is defined
    the call returns the message of the length error thrown by the
    constructor of [n_list], before the container is populated and before
    the wall is looked at; nothing else is changed. *)
Theorem negative_range (h : heap) (a : args) (w : world) :
  INT_MIN <= end_ a - start a < 0 ->
  hyperion_voropp_wrap h a w
  = match grid_resolution (nsites a) (xmin a) (xmax a) (ymin a) (ymax a)
            (zmin a) (zmax a) with
    | Some _ => Returned error_message_c_str
                  (set_error_message (what_message length_error_what) w)
    | None => UndefinedBehaviour
    end.
Proof.
  intros Hn. unfold hyperion_voropp_wrap, try_block.
  rewrite mbind_pure.
  destruct (grid_resolution _ _ _ _ _ _ _) as [[[nx ny] nz]|];
    cbn [defined]; [|reflexivity].
  rewrite mbind_pure.
  assert (Hc : checked (end_ a - start a) = Some (end_ a - start a)).
  { unfold checked, int_range, INT_MAX. unfold INT_MIN in Hn.
    destruct (Z.leb_spec INT_MIN (end_ a - start a)) as [|Hlt];
      [|unfold INT_MIN in Hlt; lia].
    destruct (Z.leb_spec (end_ a - start a) 2147483647); [reflexivity|lia]. }
  rewrite Hc. cbn [defined].
  rewrite mbind_pure. unfold vector_n at 1.
  destruct (Z.ltb_spec (end_ a - start a) 0) as [_|Hpos]; [reflexivity|lia].
Qed.

(** X2. An empty selection ([start = end]) never succeeds: the call
    returns the message of a refused wall, leaving everything else as it
    was, or its behaviour is undefined ([max_element] of the empty
    [n_list] is dereferenced). *)
Theorem empty_selection (h : heap) (a : args) (w : world) :
  start a = end_ a ->
  match hyperion_voropp_wrap h a w with
  | Returned NULL _ => False
  | Returned error_message_c_str w' =>
      exists what, what ∈ invalid_argument_messages
        /\ w' = set_error_message (what_message what) w
  | UndefinedBehaviour => True
  end.
Proof.
  intros Hse. unfold hyperion_voropp_wrap.
  destruct (try_block h a w) as [u w'|what w'|] eqn:Hb; [| |exact I].
  - apply try_block_Done in Hb
      as (nx & ny & nz & con0 & po & con & w1 & cs & mnn & neighs & mnv & verts & H).
    cbv zeta in H. destruct H as (_ & _ & Hpop & _ & Hloop & Hmnn & _).
    assert (Hpo : po = []).
    { destruct po as [|p po]; [reflexivity|]. exfalso.
      pose proof (populate_tagged _ _ _ _ p Hpop (list_elem_of_here _ _)) as Ht.
      unfold tagged in Ht. lia. }
    subst po. unfold cell_loop, voro.c_loop_order in Hloop. cbn [foreach] in Hloop.
    injection Hloop as <-. replace (end_ a - start a) with 0 in Hmnn by lia.
    discriminate Hmnn.
  - apply try_block_Thrown in Hb as (_ & _ & Hsrc).
    destruct Hsrc as [(Hneg & _)
                     |[(nx & ny & nz & con0 & po & _ & _ & Hw & ->)
                      |(nx & ny & nz & con0 & po & con & p & _ & Hpop & _ & Hp & _)]].
    + lia.
    + exists what. split; [exact (add_walls_Thrown _ _ _ _ _ _ _ _ Hw)|reflexivity].
    + exfalso. pose proof (populate_tagged _ _ _ _ p Hpop Hp) as Ht.
      unfold tagged in Ht. lia.
Qed.

(** X3. A refused wall is reported before any cell is computed: when the
    grid sizing and the population are defined and [add_walls] throws,
    the call returns the message of that exception whatever the library
    would do with the cells, and changes nothing else. *)
Theorem refused_wall_reported (h : heap) (a : args) (w w' : world) (nx ny nz : Z)
    (con0 : voro.container) (po : voro.particle_order) (what : string) :
  grid_resolution (nsites a) (xmin a) (xmax a) (ymin a) (ymax a) (zmin a) (zmax a)
    = Some (nx, ny, nz) ->
  0 <= end_ a - start a <= INT_MAX ->
  populate a (voro.container_new (xmin a) (xmax a) (ymin a) (ymax a)
                (zmin a) (zmax a) nx ny nz false false false 8) = Ok (con0, po) ->
  add_walls con0 (wall_str a) (wall_args_arr a) (n_wall_args a) (verbose a) w
    = Thrown what w' ->
  hyperion_voropp_wrap h a w
  = Returned error_message_c_str (set_error_message (what_message what) w).
Proof.
  intros Hg Hn Hpop Hw. unfold hyperion_voropp_wrap.
  rewrite (try_block_stages h a w nx ny nz con0 po Hg Hn Hpop), Hw.
  pose proof (add_walls_effect con0 (wall_str a) (wall_args_arr a) (n_wall_args a)
                (verbose a) w) as He.
  rewrite Hw in He. subst w'. reflexivity.
Qed.

End Stages.

(** ** More on [add_walls] *)

Lemma leb_zero_false (r : double) :
  leb r zero = false <-> ltb zero r = true \/ is_nan r = true.
Proof.
  destruct r as [[|]|[|]| |[|] m e]; cbn; split;
    try (intros [H|H]; discriminate H); try discriminate; auto.
Qed.

Lemma requested_wall_Some (ws : string) (arr : list double) (wl : voro.wall) :
  requested_wall ws arr = Some wl ->
  (ws = "sphere"%string
   /\ exists a0 a1 a2 a3, arr = [a0; a1; a2; a3] /\ wl = voro.wall_sphere a0 a1 a2 a3)
  \/ (ws = "cylinder"%string
      /\ exists a0 a1 a2 a3 a4 a5 a6,
           arr = [a0; a1; a2; a3; a4; a5; a6]
           /\ wl = voro.wall_cylinder a0 a1 a2 a3 a4 a5 a6).
Proof.
  unfold requested_wall.
  destruct (String.eqb_spec ws "sphere") as [->|Hs].
  - destruct arr as [|a0 [|a1 [|a2 [|a3 [|a4 arr]]]]]; try discriminate.
    intros [= <-]. left. split; [reflexivity|]. exists a0, a1, a2, a3. auto.
  - destruct (String.eqb_spec ws "cylinder") as [->|Hc]; [|discriminate].
    destruct arr as [|a0 [|a1 [|a2 [|a3 [|a4 [|a5 [|a6 [|a7 arr]]]]]]]];
      try discriminate.
    intros [= <-]. right. split; [reflexivity|].
    exists a0, a1, a2, a3, a4, a5, a6. auto.
Qed.

(** X4. Whenever [add_walls] returns, the particles of the container are
    untouched and either nothing has changed, or exactly one wall has
    been added to the container and [wall_ptr] owns that very wall: the
    wall the container refers to is alive when [add_walls] returns. *)
Theorem attached_wall_owned (con con' : voro.container) (ws : string)
    (arr : list double) (n verbose : Z) (w w' : world) :
  add_walls con ws arr n verbose w = Done con' w' ->
  voro.particles con' = voro.particles con
  /\ ((con' = con /\ w' = w)
      \/ exists wl, voro.walls con' = voro.walls con ++ [wl]
           /\ wall_ptr (globals w') = Some wl
           /\ error_message (globals w') = error_message (globals w)
           /\ out w' = out w).
Proof.
  intros H. destruct (add_walls_world con ws arr n verbose) as [r Hr].
  rewrite Hr in H. destruct r as [[wl|]|what|]; try discriminate H.
  - injection H as <- <-. split; [reflexivity|]. right. exists wl. auto.
  - injection H as <- <-. auto.
Qed.

(** X5. With the right number of parameters a sphere or a cylinder is
    accepted exactly when its radius is positive or is not a number: the
    test [radius <= 0.] is false for a NaN, and true for both zeros. *)
Theorem wall_radius_accepted (con : voro.container) (ws : string) (arr : list double)
    (n verbose : Z) (w : world) (wl : voro.wall) :
  requested_wall ws arr = Some wl ->
  n = Z.of_nat (length arr) ->
  (ltb zero (radius wl) = true \/ is_nan (radius wl) = true
   -> add_walls con ws arr n verbose w = Done (voro.add_wall con wl) (set_wall_ptr wl w))
  /\ (~ (ltb zero (radius wl) = true \/ is_nan (radius wl) = true)
      -> exists what, what ∈ invalid_argument_messages
           /\ add_walls con ws arr n verbose w = Thrown what w).
Proof.
  intros Hwl Hn.
  assert (Hbad : bad_wall ws arr n <-> leb (radius wl) zero = true).
  { apply requested_wall_Some in Hwl
      as [(-> & a0 & a1 & a2 & a3 & -> & ->)
         |(-> & a0 & a1 & a2 & a3 & a4 & a5 & a6 & -> & ->)];
      cbn [radius]; cbn in Hn; subst n; unfold bad_wall; split.
    - intros [(_ & [Hb|(r & Hl & Hb)])|(Hb & _)]; [lia| |discriminate].
      cbn in Hl. injection Hl as <-. exact Hb.
    - intros Hb. left. split; [reflexivity|]. right. exists a3. auto.
    - intros [(Hb & _)|(_ & [Hb|(r & Hl & Hb)])]; [discriminate|lia|].
      cbn in Hl. injection Hl as <-. exact Hb.
    - intros Hb. right. split; [reflexivity|]. right. exists a6. auto. }
  destruct (add_walls_validation con ws arr n verbose w Hn)
    as [(Hb & what & Hin & H)|(Hb & H)].
  - apply Hbad in Hb. split.
    + intros Hok. apply leb_zero_false in Hok. congruence.
    + intros _. exists what. auto.
  - rewrite Hwl in H. cbn [attach keep_wall] in H. split; [intros _; exact H|].
    intros Hno. exfalso. apply Hno. apply leb_zero_false.
    destruct (leb (radius wl) zero) eqn:Hr; [|reflexivity].
    exfalso. apply Hb, Hbad. reflexivity.
Qed.

(** ** The [verbose] flag *)

Lemma foreach_app {A S} (l1 l2 : list A) (body : A -> S -> result S) (s : S) :
  foreach (l1 ++ l2) body s = do s' <- foreach l1 body s; foreach l2 body s'.
Proof.
  revert s. induction l1 as [|x l1 IH]; intros s; [reflexivity|].
  cbn [app foreach]. destruct (body x s) as [s'| |]; cbn [rbind]; [apply IH|reflexivity..].
Qed.

Lemma print_wall_args_past (arr : list double) (n verbose : Z) :
  verbose <> 0 -> Z.of_nat (length arr) < n ->
  print_wall_args arr n verbose = Undefined.
Proof.
  intros Hv Hn. unfold print_wall_args.
  destruct (Z.eqb_spec verbose 0) as [|_]; [contradiction|].
  replace n with (Z.of_nat (length arr) + (n - Z.of_nat (length arr))) by lia.
  rewrite seqZ_app by lia. rewrite foreach_app.
  rewrite foreach_unchanged.
  - cbn [rbind]. rewrite Z.add_0_l.
    replace (n - Z.of_nat (length arr)) with (Z.succ (n - Z.of_nat (length arr) - 1))
      by lia.
    rewrite seqZ_cons by lia. cbn [foreach].
    unfold read at 1. destruct (Z.ltb_spec (Z.of_nat (length arr)) 0); [reflexivity|].
    rewrite Nat2Z.id, lookup_ge_None_2 by lia. reflexivity.
  - intros i Hi. apply elem_of_seqZ in Hi.
    destruct (read_in_range arr i) as (x & -> & _); [lia|]. reflexivity.
Qed.

(** X6. With [verbose] set the parameters are printed before the wall
    name is looked at: a parameter count larger than the array makes
    [add_walls] read past its end, whatever the wall name. *)
Theorem verbose_reads_every_parameter (con : voro.container) (ws : string)
    (arr : list double) (n verbose : Z) (w : world) :
  verbose <> 0 -> Z.of_nat (length arr) < n ->
  add_walls con ws arr n verbose w = Crashed.
Proof.
  intros Hv Hn. unfold add_walls.
  rewrite mbind_pure, (print_wall_args_past arr n verbose Hv Hn). reflexivity.
Qed.

Lemma add_walls_verbose (con : voro.container) (ws : string) (arr : list double)
    (n v v' : Z) (w : world) :
  n = Z.of_nat (length arr) ->
  add_walls con ws arr n v w = add_walls con ws arr n v' w.
Proof.
  intros Hn. unfold add_walls.
  rewrite !mbind_pure, !(print_wall_args_ok arr n _ Hn). reflexivity.
Qed.

Section Verbose.
Context {P : Platform} {E : voro.engine}.

(** X7. With a parameter count that is the length of the parameter
    array, the [verbose] flag changes nothing of what the call returns,
    assigns and leaves in the statics. *)
Theorem verbose_changes_nothing (h : heap) (a : args) (w : world) (v : Z) :
  n_wall_args a = Z.of_nat (length (wall_args_arr a)) ->
  hyperion_voropp_wrap h (with_verbose v a) w = hyperion_voropp_wrap h a w.
Proof.
  intros Hn. unfold hyperion_voropp_wrap.
  assert (Hb : try_block h (with_verbose v a) w = try_block h a w).
  { unfold try_block.
    cbn [with_verbose start end_ xmin xmax ymin ymax zmin zmax points nsites
         with_vertices wall_str wall_args_arr n_wall_args verbose].
    rewrite !mbind_pure.
    destruct (grid_resolution _ _ _ _ _ _ _) as [[[nx ny] nz]|];
      cbn [defined]; [|reflexivity].
    rewrite !mbind_pure.
    destruct (checked (end_ a - start a)) as [ncells|]; cbn [defined]; [|reflexivity].
    rewrite !mbind_pure.
    destruct (vector_n _ ncells _) as [nl| |]; [|reflexivity..].
    rewrite !mbind_pure.
    destruct (if with_vertices a =? 0 then _ else _) as [vl| |]; [|reflexivity..].
    rewrite !mbind_pure.
    change (populate (with_verbose v a)) with (populate a).
    destruct (populate a _) as [[con0 po]| |]; [|reflexivity..].
    rewrite !(mbind_unfold (add_walls _ _ _ _ _)).
    rewrite (add_walls_verbose con0 _ _ _ v (verbose a) w Hn).
    reflexivity. }
  rewrite Hb. reflexivity.
Qed.

End Verbose.

Lemma negative_range_witness :
  let P := Sample.platform in
  let E := Sample.scripted Sample.three_cells in
  let a := Sample.call_args 2 1 3 0 "sphere" [] in
  INT_MIN <= end_ a - start a < 0
  /\ hyperion_voropp_wrap Sample.heap0 a Sample.world0
     = Returned error_message_c_str
         (set_error_message
            (what_message "cannot create std::vector larger than max_size()")
            Sample.world0).
Proof.
  intros P E a.
  assert (Hn : INT_MIN <= end_ a - start a < 0) by (cbn; unfold INT_MIN; lia).
  split; [exact Hn|].
  rewrite (negative_range Sample.heap0 a Sample.world0 Hn).
  destruct (grid_resolution (nsites a) (xmin a) (xmax a) (ymin a) (ymax a)
              (zmin a) (zmax a)) as [g|] eqn:Hg; [reflexivity|].
  vm_compute in Hg. discriminate Hg.
Defined.

Lemma empty_selection_witness :
  let P := Sample.platform in
  let E := Sample.scripted Sample.three_cells in
  let a := Sample.call_args 1 1 3 0 EmptyString [] in
  start a = end_ a
  /\ match hyperion_voropp_wrap Sample.heap0 a Sample.world0 with
     | Returned NULL _ => False
     | Returned error_message_c_str w' =>
         exists what, what ∈ invalid_argument_messages
           /\ w' = set_error_message (what_message what) Sample.world0
     | UndefinedBehaviour => True
     end.
Proof.
  intros P E a. split; [reflexivity|].
  pose proof (@empty_selection P E Sample.heap0 a Sample.world0 eq_refl) as H.
  exact H.
Defined.

Lemma refused_wall_reported_witness :
  let P := Sample.platform in
  let E := Sample.scripted [] in
  let a := Sample.call_args 1 3 3 1 "cylinder" [Sample.d 2] in
  (exists nx ny nz con0 po what w',
     grid_resolution (nsites a) (xmin a) (xmax a) (ymin a) (ymax a) (zmin a) (zmax a)
       = Some (nx, ny, nz)
     /\ 0 <= end_ a - start a <= INT_MAX
     /\ populate a (voro.container_new (xmin a) (xmax a) (ymin a) (ymax a)
                      (zmin a) (zmax a) nx ny nz false false false 8) = Ok (con0, po)
     /\ add_walls con0 (wall_str a) (wall_args_arr a) (n_wall_args a) (verbose a)
          Sample.world0 = Thrown what w')
  /\ hyperion_voropp_wrap Sample.heap0 a Sample.world0
     = Returned error_message_c_str
         (set_error_message
            (what_message
               "invalid number of arguments for a 'cylinder' wall, exactly 7 are needed")
            Sample.world0).
Proof.
  intros P E a.
  assert (Hg : grid_resolution (nsites a) (xmin a) (xmax a) (ymin a) (ymax a)
                 (zmin a) (zmax a) = Some (1, 1, 1)) by (vm_compute; reflexivity).
  assert (Hn : 0 <= end_ a - start a <= INT_MAX) by (cbn; unfold INT_MAX; lia).
  destruct (populate a (voro.container_new (xmin a) (xmax a) (ymin a) (ymax a)
                          (zmin a) (zmax a) 1 1 1 false false false 8))
    as [[con0 po]|what|] eqn:Hpop; [|vm_compute in Hpop; discriminate Hpop..].
  assert (Hw : add_walls con0 (wall_str a) (wall_args_arr a) (n_wall_args a)
                 (verbose a) Sample.world0
               = Thrown "invalid number of arguments for a 'cylinder' wall, exactly 7 are needed"
                   Sample.world0) by reflexivity.
  split.
  - exists 1, 1, 1, con0, po. eexists _, _.
    exact (conj Hg (conj Hn (conj Hpop Hw))).
  - exact (refused_wall_reported Sample.heap0 a Sample.world0 Sample.world0 1 1 1
             con0 po _ Hg Hn Hpop Hw).
Defined.

Lemma attached_wall_owned_witness :
  let con := voro.container_new zero (Sample.d 4) zero (Sample.d 4) zero (Sample.d 4)
               1 1 1 false false false 8 in
  let arr := [Sample.d 2; Sample.d 2; Sample.d 2; Sample.d 1] in
  exists con' w',
    add_walls con "sphere" arr 4 0 Sample.world0 = Done con' w'
    /\ voro.walls con' = [voro.wall_sphere (Sample.d 2) (Sample.d 2) (Sample.d 2)
                            (Sample.d 1)]
    /\ voro.particles con' = voro.particles con
    /\ ((con' = con /\ w' = Sample.world0)
        \/ exists wl, voro.walls con' = voro.walls con ++ [wl]
             /\ wall_ptr (globals w') = Some wl
             /\ error_message (globals w') = error_message (globals Sample.world0)
             /\ out w' = out Sample.world0).
Proof.
  intros con arr. eexists _, _.
  assert (H : add_walls con "sphere" arr 4 0 Sample.world0
              = Done (voro.add_wall con (voro.wall_sphere (Sample.d 2) (Sample.d 2)
                                           (Sample.d 2) (Sample.d 1)))
                  (set_wall_ptr (voro.wall_sphere (Sample.d 2) (Sample.d 2)
                                   (Sample.d 2) (Sample.d 1)) Sample.world0))
    by reflexivity.
  split; [exact H|]. split; [reflexivity|].
  exact (attached_wall_owned con _ "sphere" arr 4 0 Sample.world0 _ H).
Defined.

Lemma wall_radius_accepted_witness :
  let con := voro.container_new zero (Sample.d 4) zero (Sample.d 4) zero (Sample.d 4)
               1 1 1 false false false 8 in
  let arr := [Sample.d 2; Sample.d 2; Sample.d 2; nan] in
  let wl := voro.wall_sphere (Sample.d 2) (Sample.d 2) (Sample.d 2) nan in
  (requested_wall "sphere" arr = Some wl /\ 4 = Z.of_nat (length arr)
   /\ (ltb zero (radius wl) = true \/ is_nan (radius wl) = true))
  /\ add_walls con "sphere" arr 4 0 Sample.world0
     = Done (voro.add_wall con wl) (set_wall_ptr wl Sample.world0).
Proof.
  intros con arr wl.
  assert (Hwl : requested_wall "sphere" arr = Some wl) by reflexivity.
  assert (Hn : 4 = Z.of_nat (length arr)) by reflexivity.
  assert (Hr : ltb zero (radius wl) = true \/ is_nan (radius wl) = true)
    by (right; reflexivity).
  split; [auto|].
  exact (proj1 (wall_radius_accepted con "sphere" arr 4 0 Sample.world0 wl Hwl Hn) Hr).
Defined.

Lemma verbose_reads_every_parameter_witness :
  let con := voro.container_new zero (Sample.d 4) zero (Sample.d 4) zero (Sample.d 4)
               1 1 1 false false false 8 in
  (1 <> 0 /\ Z.of_nat (length (@nil double)) < 3)
  /\ add_walls con "plane" [] 3 1 Sample.world0 = Crashed
  /\ add_walls con "plane" [] 3 0 Sample.world0 = Done con Sample.world0.
Proof.
  intros con.
  assert (Hv : 1 <> 0) by discriminate.
  assert (Hn : Z.of_nat (length (@nil double)) < 3) by (cbn; lia).
  split; [auto|]. split; [|reflexivity].
  exact (verbose_reads_every_parameter con "plane" [] 3 1 Sample.world0 Hv Hn).
Defined.

Lemma verbose_changes_nothing_witness :
  let P := Sample.platform in
  let E := Sample.scripted Sample.three_cells in
  let a := Sample.call_args 1 3 3 1 "sphere"
             [Sample.d 2; Sample.d 2; Sample.d 2; Sample.d 1] in
  n_wall_args a = Z.of_nat (length (wall_args_arr a))
  /\ hyperion_voropp_wrap Sample.heap0 (with_verbose 1 a) Sample.world0
     = hyperion_voropp_wrap Sample.heap0 a Sample.world0.
Proof.
  intros P E a. split; [reflexivity|].
  exact (verbose_changes_nothing Sample.heap0 a Sample.world0 1 eq_refl).
Defined.

(** ** When the population is defined *)

Lemma point_at_in_range (pts : list double) (i : Z) :
  0 <= i -> i * 3 + 2 <= INT_MAX -> i * 3 + 2 < Z.of_nat (length pts) ->
  exists x y z, point_at pts i = Ok (x, y, z).
Proof.
  intros H0 Hmax Hlen. unfold point_at.
  assert (Hmin : INT_MIN <= 0) by (unfold INT_MIN; lia).
  rewrite (checked_in_range (i * 3)) by lia. cbn [defined rbind].
  destruct (read_in_range pts (i * 3)) as (x & -> & _); [lia|]. cbn [rbind].
  rewrite (checked_in_range (i * 3 + 1)) by lia. cbn [defined rbind].
  destruct (read_in_range pts (i * 3 + 1)) as (y & -> & _); [lia|]. cbn [rbind].
  rewrite (checked_in_range (i * 3 + 2)) by lia. cbn [defined rbind].
  destruct (read_in_range pts (i * 3 + 2)) as (z & -> & _); [lia|]. cbn [rbind].
  exists x, y, z. reflexivity.
Qed.

Lemma foreach_defined {A S} (l : list A) (body : A -> S -> result S) (s : S) :
  (forall x s1, x ∈ l -> exists s2, body x s1 = Ok s2) ->
  exists s', foreach l body s = Ok s'.
Proof.
  revert s. induction l as [|x l IH]; intros s H; [exists s; reflexivity|].
  cbn [foreach]. destruct (H x s (list_elem_of_here _ _)) as [s1 ->]. cbn [rbind].
  apply IH. intros y s2 Hy. apply H. apply list_elem_of_further. exact Hy.
Qed.

(** X8. The population loop is defined exactly when [nsites <= 0], or
    [points] holds the [3 * nsites] coordinates it reads and the largest
    index [3 * nsites - 1] fits an [int]; otherwise its behaviour is
    undefined (it never throws). *)
Theorem populate_defined (a : args) (con : voro.container) :
  let enough := nsites a <= 0
                \/ (nsites a * 3 <= Z.of_nat (length (points a))
                    /\ nsites a * 3 - 1 <= INT_MAX) in
  ((exists r, populate a con = Ok r) <-> enough)
  /\ (~ enough -> populate a con = Undefined).
Proof.
  cbv zeta.
  assert (Hiff : (exists r, populate a con = Ok r)
                 <-> nsites a <= 0
                     \/ (nsites a * 3 <= Z.of_nat (length (points a))
                         /\ nsites a * 3 - 1 <= INT_MAX)).
  { split.
    - intros [[con' po'] H]. unfold populate in H.
      destruct (Z.leb_spec (nsites a) 0) as [Hle|Hpos]; [left; exact Hle|right].
      assert (Hin : nsites a - 1 ∈ seqZ 0 (nsites a)) by (apply elem_of_seqZ; lia).
      destruct (foreach_Ok_each _ _ _ _ _ H Hin) as ([c1 p1] & [c2 p2] & Hb).
      apply populate_body_Ok in Hb as (p & Hid & Hpos' & _).
      destruct Hpos' as (_ & Hmax & _ & _ & Hz). rewrite Hid in Hmax, Hz.
      apply lookup_lt_Some in Hz. lia.
    - intros Hen. unfold populate. apply foreach_defined.
      intros i [c po] Hi. apply elem_of_seqZ in Hi. unfold populate_body.
      destruct Hen as [Hle|[Hlen Hmax]]; [lia|].
      destruct (point_at_in_range (points a) i) as (x & y & z & ->); [lia..|].
      destruct (_ && _); cbn [rbind]; eauto. }
  split; [exact Hiff|]. intros Hno.
  destruct (populate a con) as [r|what|] eqn:H; [| |reflexivity].
  - exfalso. apply Hno, Hiff. exists r. reflexivity.
  - exfalso. exact (populate_no_throw a con what H).
Qed.

(** ** The sizes of the arrays handed over *)

Lemma foreach_invariant {A S} (I : S -> Prop) (l : list A) (body : A -> S -> result S)
    (s s' : S) :
  (forall x s1 s2, body x s1 = Ok s2 -> I s1 -> I s2) ->
  foreach l body s = Ok s' -> I s -> I s'.
Proof.
  intros Hb. revert s. induction l as [|x l IH]; intros s H Hs.
  - injection H as <-. exact Hs.
  - cbn [foreach] in H. bind_ok H s1 H1. apply (IH s1 H). eapply Hb; eauto.
Qed.

Lemma fill_Ok {A} (buf buf' : list A) (first last : Z) (v : A) :
  fill buf first last v = Ok buf' -> length buf' = length buf.
Proof.
  unfold fill.
  destruct (Z.leb_spec 0 first), (Z.leb_spec first last),
    (Z.leb_spec last (Z.of_nat (length buf))); cbn; try discriminate.
  intros [= <-]. rewrite !length_app, length_take, length_replicate, length_drop. lia.
Qed.

Lemma copy_to_length {A} (buf buf' src : list A) (off : Z) :
  copy_to buf off src = Ok buf' -> length buf' = length buf.
Proof.
  intros H. apply copy_to_Ok in H as (H0 & Hle & ->).
  rewrite !length_app, length_take, length_drop. lia.
Qed.

Lemma pack_length {T} (rows : list (list T)) (ncells width : Z) (pad : T)
    (buf buf' : list T) :
  pack rows ncells width pad buf = Ok buf' -> length buf' = length buf.
Proof.
  unfold pack. intros H.
  apply (foreach_invariant (fun b => length b = length buf) _ _ _ _) in H;
    [exact H| |reflexivity].
  intros idx b1 b2 Hb Hlen. unfold pack_body in Hb.
  bind_ok Hb off Hoff. bind_ok Hb row Hrow. bind_ok Hb b Hc.
  apply fill_Ok in Hb. apply copy_to_length in Hc. congruence.
Qed.

Section Sizes.
Context {P : Platform} {E : voro.engine}.

Lemma cell_loop_lengths (a : args) (con : voro.container) (po : voro.particle_order)
    (s s' : cells) :
  cell_loop a con po s = Ok s' ->
  length (n_list s') = length (n_list s)
  /\ length (vols s') = length (vols s)
  /\ length (bb_m s') = length (bb_m s)
  /\ length (bb_M s') = length (bb_M s)
  /\ length (vertices_list s') = length (vertices_list s).
Proof.
  unfold cell_loop. intros H.
  apply (foreach_invariant
           (fun t => length (n_list t) = length (n_list s)
                     /\ length (vols t) = length (vols s)
                     /\ length (bb_m t) = length (bb_m s)
                     /\ length (bb_M t) = length (bb_M s)
                     /\ length (vertices_list t) = length (vertices_list s))
           _ _ _ _) in H; [exact H| |auto 6].
  intros p s1 s2 Hb (H1 & H2 & H3 & H4 & H5).
  apply cell_body_Ok in Hb as (c & mn & mx & Hb). cbv zeta in Hb.
  destruct Hb as (_ & _ & _ & Hi & _ & _ & Hm & HM & -> & -> & -> & _ & -> & ->).
  rewrite !length_insert, !length_app, !length_take, !length_drop, !list3_length.
  repeat split; try lia.
  destruct (with_vertices a =? 0); [exact H5|]. rewrite length_insert. exact H5.
Qed.

(** X9. Whenever the call returns [NULL], whatever the selection, at
    least one cell was asked for and the arrays handed over have the sizes
    the caller computes from [ncells = end - start] and the two widths:
    [ncells] volumes, [3 * ncells] doubles in each bounding-box array,
    [ncells * max_nn] neighbour slots and, when vertices were requested,
    [ncells * max_nv] vertex slots; without them [max_nv] is 0 and the
    vertex pointer is left alone. *)
Theorem buffer_sizes (h : heap) (a : args) (w w' : world) :
  hyperion_voropp_wrap h a w = Returned NULL w' ->
  let n := Z.to_nat (end_ a - start a) in
  1 <= end_ a - start a <= INT_MAX
  /\ 0 <= max_nn (out w') <= INT_MAX
  /\ length (volumes (out w')) = n
  /\ length (bb_min (out w')) = (n * 3)%nat
  /\ length (bb_max (out w')) = (n * 3)%nat
  /\ length (neighbours (out w')) = (n * Z.to_nat (max_nn (out w')))%nat
  /\ (with_vertices a <> 0 ->
      0 <= max_nv (out w') <= INT_MAX
      /\ length (vertices (out w')) = (n * Z.to_nat (max_nv (out w')))%nat)
  /\ (with_vertices a = 0 ->
      max_nv (out w') = 0 /\ vertices (out w') = vertices (out w)).
Proof.
  intros H. apply wrap_NULL in H.
  apply try_block_Done in H
    as (nx & ny & nz & con0 & po & con & w1 & cs & mnn & neighs & mnv & verts & H).
  cbv zeta in H.
  destruct H as (_ & Hn & _ & _ & Hloop & Hmnn & Hpack & Hv & _ & Hout).
  apply cell_loop_lengths in Hloop as (Hnl & Hvo & Hbm & HbM & Hvl).
  unfold initial_cells in Hnl, Hvo, Hbm, HbM, Hvl.
  cbn [n_list vols bb_m bb_M vertices_list] in Hnl, Hvo, Hbm, HbM, Hvl.
  rewrite length_replicate in Hnl. rewrite malloc_length in Hvo, Hbm, HbM.
  apply max_size_Ok in Hmnn as (width & -> & Hwr & (row & Hrow & _) & _).
  apply pack_length in Hpack. rewrite malloc_length in Hpack.
  assert (Hne : 1 <= end_ a - start a).
  { destruct (n_list cs) as [|r l]; [inversion Hrow|]. cbn in Hnl. lia. }
  rewrite Hout. cbn [max_nn volumes bb_min bb_max neighbours vertices max_nv].
  rewrite Nat2Z.id.
  split; [lia|]. split; [lia|]. split; [exact Hvo|].
  split; [rewrite Hbm; lia|]. split; [rewrite HbM; lia|].
  split; [rewrite Hpack; nia|].
  destruct Hv as [(Hwv & -> & ->)|(Hwv & Hmnv & Hpv)].
  - split; [intros Hc; contradiction|]. intros _. auto.
  - split; [|intros Hc; contradiction]. intros _.
    apply max_size_Ok in Hmnv as (vwidth & -> & Hvr & _).
    apply pack_length in Hpv. rewrite malloc_length in Hpv.
    rewrite Nat2Z.id. split; [lia|]. rewrite Hpv. nia.
Qed.

End Sizes.

Lemma buffer_sizes_witness :
  let P := Sample.platform in
  let E := Sample.scripted Sample.three_cells in
  let a := Sample.call_args 0 2 1 0 EmptyString [] in
  exists w',
    hyperion_voropp_wrap Sample.heap0 a Sample.world0 = Returned NULL w'
    /\ max_nn (out w') = 4
    /\ length (volumes (out w')) = 2%nat
    /\ length (bb_min (out w')) = 6%nat
    /\ length (bb_max (out w')) = 6%nat
    /\ length (neighbours (out w')) = 8%nat.
Proof.
  intros P E a.
  destruct (hyperion_voropp_wrap Sample.heap0 a Sample.world0) as [[|] w'|] eqn:Hrun;
    [|vm_compute in Hrun; discriminate Hrun..].
  exists w'. split; [reflexivity|].
  pose proof (@buffer_sizes P E Sample.heap0 a Sample.world0 w' Hrun) as H.
  cbv zeta in H. destruct H as (_ & _ & Hv & Hm & HM & Hn & _).
  assert (Hmnn : max_nn (out w') = 4).
  { vm_compute in Hrun. injection Hrun as <-. reflexivity. }
  rewrite Hmnn in Hn. split; [exact Hmnn|].
  split; [exact Hv|]. split; [exact Hm|]. split; [exact HM|exact Hn].
Defined.

(** ** The corners of the bounding box *)

Lemma get3_min3 (m t : arr3) (j : Z) :
  get3 (min3 m t) j = dmin (get3 m j) (get3 t j).
Proof.
  destruct m as [[m0 m1] m2], t as [[t0 t1] t2]. unfold min3, get3.
  destruct (j =? 0); [reflexivity|]. destruct (j =? 1); reflexivity.
Qed.

Lemma get3_max3 (m t : arr3) (j : Z) :
  get3 (max3 m t) j = dmax (get3 m j) (get3 t j).
Proof.
  destruct m as [[m0 m1] m2], t as [[t0 t1] t2]. unfold max3, get3.
  destruct (j =? 0); [reflexivity|]. destruct (j =? 1); reflexivity.
Qed.

Lemma fold_min_max_attained (ts : list arr3) (mn0 mx0 mn mx : arr3) (j : Z) :
  fold_left (fun mm t => (min3 mm.1 t, max3 mm.2 t)) ts (mn0, mx0) = (mn, mx) ->
  (get3 mn j = get3 mn0 j \/ exists t, t ∈ ts /\ get3 mn j = get3 t j)
  /\ (get3 mx j = get3 mx0 j \/ exists t, t ∈ ts /\ get3 mx j = get3 t j).
Proof.
  revert mn0 mx0. induction ts as [|t ts IH]; intros mn0 mx0 H.
  - injection H as <- <-. auto.
  - cbn [fold_left fst snd] in H. apply IH in H as [Hmn Hmx]. split.
    + destruct Hmn as [Hmn|(t' & Ht' & Hmn)].
      * rewrite get3_min3 in Hmn.
        destruct (dmin_cases (get3 mn0 j) (get3 t j)) as [Hd|Hd];
          rewrite Hd in Hmn; [left; exact Hmn|].
        right. exists t. split; [apply list_elem_of_here|exact Hmn].
      * right. exists t'. split; [apply list_elem_of_further; exact Ht'|exact Hmn].
    + destruct Hmx as [Hmx|(t' & Ht' & Hmx)].
      * rewrite get3_max3 in Hmx.
        destruct (dmax_cases (get3 mx0 j) (get3 t j)) as [Hd|Hd];
          rewrite Hd in Hmx; [left; exact Hmx|].
        right. exists t. split; [apply list_elem_of_here|exact Hmx].
      * right. exists t'. split; [apply list_elem_of_further; exact Ht'|exact Hmx].
Qed.

Lemma triplet_coordinate (v : list double) (t : arr3) (j : Z) :
  t ∈ triplets v -> 0 <= j < 3 ->
  exists i, 0 <= i < Z.of_nat (length v) / 3
    /\ v !! Z.to_nat (i * 3 + j) = Some (get3 t j).
Proof.
  intros Ht Hj. apply list_elem_of_lookup_1 in Ht as [i Hi].
  exists (Z.of_nat i). split.
  - apply lookup_lt_Some in Hi. rewrite <- triplets_length. lia.
  - pose proof (triplets_lookup v i t Hi (Z.to_nat j)) as Hl.
    rewrite Z2Nat.id in Hl by lia.
    replace (Z.to_nat (Z.of_nat i * 3 + j)) with (3 * i + Z.to_nat j)%nat by lia.
    apply Hl. lia.
Qed.

(** X10. The bounding box is tight: on each axis the minimum and the
    maximum the loop computes are coordinates of vertices of the cell on
    that axis, NaN or not. *)
Theorem bounding_box_attained (v : list double) (mn mx : arr3) :
  bounding_box v = Ok (mn, mx) ->
  forall j, 0 <= j < 3 ->
    (exists i, 0 <= i < Z.of_nat (length v) / 3
       /\ v !! Z.to_nat (i * 3 + j) = Some (get3 mn j))
    /\ (exists i, 0 <= i < Z.of_nat (length v) / 3
          /\ v !! Z.to_nat (i * 3 + j) = Some (get3 mx j)).
Proof.
  intros H j Hj. rewrite bounding_box_fold_eq in H. apply defined_Ok in H.
  unfold bounding_box_fold in H.
  destruct (triplets v) as [|t ts] eqn:Hts; [discriminate|]. injection H as H.
  destruct (fold_min_max_attained ts t t mn mx j H) as [Hmn Hmx].
  assert (Hin : forall t', t' = t \/ t' ∈ ts -> t' ∈ triplets v).
  { intros t' [->|Ht']; rewrite Hts;
      [apply list_elem_of_here|apply list_elem_of_further; exact Ht']. }
  split.
  - destruct Hmn as [Hmn|(t' & Ht' & Hmn)]; rewrite Hmn;
      apply triplet_coordinate; auto.
  - destruct Hmx as [Hmx|(t' & Ht' & Hmx)]; rewrite Hmx;
      apply triplet_coordinate; auto.
Qed.

Lemma bounding_box_attained_witness :
  let v := [Sample.d 1; Sample.d 3; Sample.d 2;  Sample.d 3; Sample.d 1; Sample.d 2;
            Sample.d 2; Sample.d 2; Sample.d 0] in
  let mn := (Sample.d 1, Sample.d 1, Sample.d 0) in
  let mx := (Sample.d 3, Sample.d 3, Sample.d 2) in
  bounding_box v = Ok (mn, mx)
  /\ forall j, 0 <= j < 3 ->
       (exists i, 0 <= i < Z.of_nat (length v) / 3
          /\ v !! Z.to_nat (i * 3 + j) = Some (get3 mn j))
       /\ (exists i, 0 <= i < Z.of_nat (length v) / 3
             /\ v !! Z.to_nat (i * 3 + j) = Some (get3 mx j)).
Proof.
  intros v mn mx.
  assert (H : bounding_box v = Ok (mn, mx)) by (vm_compute; reflexivity).
  split; [exact H|]. exact (bounding_box_attained v mn mx H).
Defined.

Lemma ltb_nan_r (x : double) : ltb x nan = false.
Proof. destruct x as [[|]|[|]| |[|] m e]; reflexivity. Qed.

Lemma ltb_nan_l (x : double) : ltb nan x = false.
Proof. destruct x as [[|]|[|]| |[|] m e]; reflexivity. Qed.

Lemma is_nan_eq (x : double) : is_nan x = true -> x = nan.
Proof. destruct x; try discriminate. reflexivity. Qed.

Lemma fold_min_max_nan (ts : list arr3) (mn0 mx0 mn mx : arr3) (j : Z) :
  fold_left (fun mm t => (min3 mm.1 t, max3 mm.2 t)) ts (mn0, mx0) = (mn, mx) ->
  (get3 mn0 j = nan -> get3 mn j = nan) /\ (get3 mx0 j = nan -> get3 mx j = nan).
Proof.
  revert mn0 mx0. induction ts as [|t ts IH]; intros mn0 mx0 H.
  - injection H as <- <-. auto.
  - cbn [fold_left fst snd] in H. apply IH in H as [Hmn Hmx]. split; intros H0.
    + apply Hmn. rewrite get3_min3, H0. unfold dmin. rewrite ltb_nan_r. reflexivity.
    + apply Hmx. rewrite get3_max3, H0. unfold dmax. rewrite ltb_nan_l. reflexivity.
Qed.

(** X11. How the bounding-box loop treats a NaN: a NaN coordinate of the
    first vertex stays as the minimum and the maximum of its axis whatever
    the other vertices are, and a NaN coordinate of a later vertex leaves
    the minimum and the maximum as they were. *)
Theorem bounding_box_nan (v : list double) (mn mx : arr3) :
  bounding_box v = Ok (mn, mx) ->
  (forall j x, 0 <= j < 3 -> v !! Z.to_nat j = Some x -> is_nan x = true ->
     is_nan (get3 mn j) = true /\ is_nan (get3 mx j) = true)
  /\ (forall i j x mm, read v (i * 3 + j) = Ok x -> is_nan x = true ->
        bb_body v i j mm = Ok mm).
Proof.
  intros H. split.
  - intros j x Hj Hx Hnan. apply is_nan_eq in Hnan. subst x.
    rewrite bounding_box_fold_eq in H. apply defined_Ok in H.
    unfold bounding_box_fold in H.
    destruct (triplets v) as [|t ts] eqn:Hts; [discriminate|]. injection H as H.
    assert (Ht : get3 t j = nan).
    { assert (Hl : triplets v !! 0%nat = Some t) by (rewrite Hts; reflexivity).
      assert (Hj3 : (Z.to_nat j < 3)%nat) by lia.
      pose proof (triplets_lookup v 0 t Hl (Z.to_nat j) Hj3) as Hv.
      rewrite Z2Nat.id in Hv by lia. cbn [Nat.mul Nat.add] in Hv.
      rewrite Hx in Hv. injection Hv as <-. reflexivity. }
    destruct (fold_min_max_nan ts t t mn mx j H) as [Hmn Hmx].
    rewrite (Hmn Ht), (Hmx Ht). auto.
  - intros i j x [mn' mx'] Hr Hnan. apply is_nan_eq in Hnan. subst x.
    unfold bb_body. rewrite Hr. cbn [rbind].
    rewrite ltb_nan_l, ltb_nan_r. reflexivity.
Qed.

Lemma bounding_box_nan_witness :
  let v := [nan; Sample.d 3; Sample.d 2;  Sample.d 3; Sample.d 1; nan] in
  bounding_box v = Ok ((nan, Sample.d 1, Sample.d 2), (nan, Sample.d 3, Sample.d 2))
  /\ (forall j x, 0 <= j < 3 -> v !! Z.to_nat j = Some x -> is_nan x = true ->
        is_nan (get3 (nan, Sample.d 1, Sample.d 2) j) = true
        /\ is_nan (get3 (nan, Sample.d 3, Sample.d 2) j) = true)
  /\ (forall i j x mm, read v (i * 3 + j) = Ok x -> is_nan x = true ->
        bb_body v i j mm = Ok mm).
Proof.
  intros v.
  assert (H : bounding_box v
              = Ok ((nan, Sample.d 1, Sample.d 2), (nan, Sample.d 3, Sample.d 2)))
    by (vm_compute; reflexivity).
  split; [exact H|]. exact (bounding_box_nan v _ _ H).
Defined.

(** ** From the cells to the outcome of the call *)

Lemma map_result_defined {A B} (f : A -> result B) (l : list A) :
  (forall x, x ∈ l -> exists y, f x = Ok y) -> exists ys, map_result f l = Ok ys.
Proof.
  induction l as [|x l IH]; intros H; [exists []; reflexivity|].
  cbn [map_result]. destruct (H x (list_elem_of_here _ _)) as [y ->]. cbn [rbind].
  destruct IH as [ys ->].
  - intros z Hz. apply H. apply list_elem_of_further. exact Hz.
  - exists (y :: ys). reflexivity.
Qed.

Lemma map_result_first_Throw {A B} (f : A -> result B) (l1 l2 : list A) (x : A)
    (what : string) :
  (forall y, y ∈ l1 -> exists r, f y = Ok r) -> f x = Throw what ->
  map_result f (l1 ++ x :: l2) = Throw what.
Proof.
  intros H1 Hx. induction l1 as [|y l1 IH]; cbn [app map_result].
  - rewrite Hx. reflexivity.
  - destruct (H1 y (list_elem_of_here _ _)) as [r ->]. cbn [rbind].
    rewrite IH; [reflexivity|].
    intros z Hz. apply H1. apply list_elem_of_further. exact Hz.
Qed.

Lemma bounding_box_defined (v : list double) :
  (3 <= length v)%nat -> exists mn mx, bounding_box v = Ok (mn, mx).
Proof.
  intros H. rewrite bounding_box_fold_eq. unfold bounding_box_fold.
  destruct v as [|t0 [|t1 [|t2 v]]]; cbn in H; try lia.
  cbn [triplets]. destruct (fold_left _ _ _) as [mn mx]. exists mn, mx. reflexivity.
Qed.

Section Outcome.
Context {P : Platform} {E : voro.engine}.

Lemma cell_of_defined (con : voro.container) (p : voro.particle)
    (c : voro.voronoicell_neighbor) :
  voro.compute_cell con p = inr c ->
  (3 <= length (voro.vertices c (voro.p_x p) (voro.p_y p) (voro.p_z p)))%nat ->
  exists r, cell_of con p = Ok r
    /\ cr_neighbors r = voro.neighbors c
    /\ cr_vertices r = voro.vertices c (voro.p_x p) (voro.p_y p) (voro.p_z p).
Proof.
  intros Hc Hv. unfold cell_of. rewrite Hc. cbn [rbind].
  destruct (bounding_box_defined _ Hv) as (mn & mx & ->). cbn [rbind].
  eexists. split; [reflexivity|]. auto.
Qed.

(** The loop on a selection inside the particle set, from the stages
    before it. *)
Lemma cell_loop_selected (h : heap) (a : args) (nx ny nz : Z)
    (con0 con : voro.container) (po : voro.particle_order) :
  0 <= start a -> end_ a <= nsites a -> 0 <= end_ a - start a ->
  populate a (voro.container_new (xmin a) (xmax a) (ymin a) (ymax a)
                (zmin a) (zmax a) nx ny nz false false false 8) = Ok (con0, po) ->
  end_ a - start a <= INT_MAX
  /\ length po = Z.to_nat (end_ a - start a)
  /\ cell_loop a con po (initial_cells h a (end_ a - start a))
     = do rs <- map_result (cell_of con) po; Ok (cells_full a rs).
Proof.
  intros Hs He Hn Hpop.
  destruct (populate_valid a _ con0 po (container_new_particles _ _ _ _ _ _ _ _ _ _ _ _ _)
              Hs He Hn Hpop) as (_ & _ & _ & Htag & H3 & _).
  split; [unfold INT_MAX in *; lia|]. split.
  - rewrite <- (length_fmap voro.p_id), Htag, length_seqZ. reflexivity.
  - set (n := Z.to_nat (end_ a - start a)).
    assert (Hnn : end_ a - start a = Z.of_nat n) by (unfold n; lia).
    rewrite Hnn in Htag, H3 |- *.
    apply cell_loop_initial; assumption.
Qed.

(** X12. On a selection inside the particle set the message returned is
    that of the first selected particle, in the order of the indices, on
    which the library throws: when the cells of the selected particles
    before it are computed and have a first vertex, the call returns the
    message of that exception; the outputs are untouched, and [wall_ptr]
    keeps the wall this call built. *)
Theorem engine_failure_reported (h : heap) (a : args) (w w1 : world) (nx ny nz : Z)
    (con0 con : voro.container) (l1 l2 : list voro.particle) (p : voro.particle)
    (what : string) :
  0 <= start a -> end_ a <= nsites a ->
  grid_resolution (nsites a) (xmin a) (xmax a) (ymin a) (ymax a) (zmin a) (zmax a)
    = Some (nx, ny, nz) ->
  populate a (voro.container_new (xmin a) (xmax a) (ymin a) (ymax a)
                (zmin a) (zmax a) nx ny nz false false false 8)
    = Ok (con0, l1 ++ p :: l2) ->
  add_walls con0 (wall_str a) (wall_args_arr a) (n_wall_args a) (verbose a) w
    = Done con w1 ->
  (forall q, q ∈ l1 ->
     exists c, voro.compute_cell con q = inr c
       /\ (3 <= length (voro.vertices c (voro.p_x q) (voro.p_y q) (voro.p_z q)))%nat) ->
  voro.compute_cell con p = inl what ->
  hyperion_voropp_wrap h a w
  = Returned error_message_c_str (set_error_message (what_message what) w1)
  /\ out w1 = out w.
Proof.
  intros Hs He Hg Hpop Hw Hl1 Hp.
  assert (Hn : 0 <= end_ a - start a).
  { assert (Hin : p ∈ l1 ++ p :: l2) by (apply elem_of_app; right; apply list_elem_of_here).
    pose proof (populate_tagged _ _ _ _ p Hpop Hin) as Ht. unfold tagged in Ht. lia. }
  destruct (cell_loop_selected h a nx ny nz con0 con _ Hs He Hn Hpop)
    as (Hmax & _ & Hloop).
  split.
  - unfold hyperion_voropp_wrap.
    rewrite (try_block_stages h a w nx ny nz con0 _ Hg (conj Hn Hmax) Hpop), Hw, Hloop.
    rewrite (map_result_first_Throw (cell_of con) l1 l2 p what); [reflexivity| |].
    + intros q Hq. destruct (Hl1 q Hq) as (c & Hc & Hv).
      destruct (cell_of_defined con q c Hc Hv) as (r & Hr & _). exists r. exact Hr.
    + unfold cell_of. rewrite Hp. reflexivity.
  - pose proof (add_walls_effect con0 (wall_str a) (wall_args_arr a) (n_wall_args a)
                  (verbose a) w) as Hef.
    rewrite Hw in Hef. destruct Hef as (Ho & _). exact Ho.
Qed.

End Outcome.

Lemma engine_failure_reported_witness :
  let P := Sample.platform in
  let E := Sample.scripted (take 2 Sample.three_cells) in
  let a := Sample.call_args 1 3 3 0 EmptyString [] in
  hyperion_voropp_wrap Sample.heap0 a Sample.world0
  = Returned error_message_c_str
      (set_error_message (what_message "no such cell") Sample.world0).
Proof.
  intros P E a.
  assert (H0 : 0 <= start a) by (cbn; lia).
  assert (H1 : end_ a <= nsites a) by (cbn; lia).
  assert (Hg : grid_resolution (nsites a) (xmin a) (xmax a) (ymin a) (ymax a)
                 (zmin a) (zmax a) = Some (1, 1, 1)) by (vm_compute; reflexivity).
  pose (p1 := {| voro.p_id := 1; voro.p_x := Sample.d 2; voro.p_y := Sample.d 2;
                 voro.p_z := Sample.d 2 |}).
  pose (p2 := {| voro.p_id := 2; voro.p_x := Sample.d 3; voro.p_y := Sample.d 3;
                 voro.p_z := Sample.d 3 |}).
  destruct (populate a (voro.container_new (xmin a) (xmax a) (ymin a) (ymax a)
                          (zmin a) (zmax a) 1 1 1 false false false 8))
    as [[con0 po]|what|] eqn:Hpop; [|vm_compute in Hpop; discriminate Hpop..].
  assert (Hpo : po = [p1] ++ p2 :: []).
  { vm_compute in Hpop. injection Hpop as _ <-. reflexivity. }
  rewrite Hpo in Hpop.
  assert (Hw : add_walls con0 (wall_str a) (wall_args_arr a) (n_wall_args a)
                 (verbose a) Sample.world0 = Done con0 Sample.world0) by reflexivity.
  assert (Hl1 : forall q, q ∈ [p1] ->
            exists c, voro.compute_cell con0 q = inr c
              /\ (3 <= length (voro.vertices c (voro.p_x q) (voro.p_y q)
                                 (voro.p_z q)))%nat).
  { intros q Hq. apply list_elem_of_singleton in Hq. subst q.
    eexists. split; [reflexivity|]. cbn. lia. }
  assert (Hp : voro.compute_cell con0 p2 = inl "no such cell"%string) by reflexivity.
  exact (proj1 (@engine_failure_reported P E Sample.heap0 a Sample.world0 Sample.world0
                  1 1 1 con0 con0 [p1] [] p2 _ H0 H1 Hg Hpop Hw Hl1 Hp)).
Defined.

(** ** The call on a cell without vertices *)

Lemma map_result_first_Undefined {A B} (f : A -> result B) (l1 l2 : list A) (x : A) :
  (forall y, y ∈ l1 -> exists r, f y = Ok r) -> f x = Undefined ->
  map_result f (l1 ++ x :: l2) = Undefined.
Proof.
  intros H1 Hx. induction l1 as [|y l1 IH]; cbn [app map_result].
  - rewrite Hx. reflexivity.
  - destruct (H1 y (list_elem_of_here _ _)) as [r ->]. cbn [rbind].
    rewrite IH; [reflexivity|].
    intros z Hz. apply H1. apply list_elem_of_further. exact Hz.
Qed.

Section Degenerate.
Context {P : Platform} {E : voro.engine}.

(** C6 (as amended). The wrapper has no check for a cell without vertices
    and raises no error for it. On a selection inside the particle set,
    when the cells of the selected particles visited before [p] are
    computed and have a first vertex triplet and the engine returns for
    [p] a cell without vertices, the call reads the first vertex triplet
    from the empty vector: its behaviour is undefined, so that nothing is
    guaranteed of what it returns or assigns. When a call with such a cell
    returns an error message, the error is an exception the engine threw
    on another selected particle, and no output is assigned. *)
Theorem zero_vertex_cell (h : heap) (a : args) (w w1 : world) (nx ny nz : Z)
    (con0 con : voro.container) (l1 l2 : list voro.particle) (p : voro.particle)
    (c : voro.voronoicell_neighbor) :
  0 <= start a -> end_ a <= nsites a ->
  grid_resolution (nsites a) (xmin a) (xmax a) (ymin a) (ymax a) (zmin a) (zmax a)
    = Some (nx, ny, nz) ->
  populate a (voro.container_new (xmin a) (xmax a) (ymin a) (ymax a)
                (zmin a) (zmax a) nx ny nz false false false 8)
    = Ok (con0, l1 ++ p :: l2) ->
  add_walls con0 (wall_str a) (wall_args_arr a) (n_wall_args a) (verbose a) w
    = Done con w1 ->
  voro.compute_cell con p = inr c ->
  voro.vertices c (voro.p_x p) (voro.p_y p) (voro.p_z p) = [] ->
  ((forall q, q ∈ l1 ->
      exists c', voro.compute_cell con q = inr c'
        /\ (3 <= length (voro.vertices c' (voro.p_x q) (voro.p_y q) (voro.p_z q)))%nat) ->
   hyperion_voropp_wrap h a w = UndefinedBehaviour)
  /\ (forall w', hyperion_voropp_wrap h a w = Returned error_message_c_str w' ->
        out w' = out w
        /\ exists q what,
             q ∈ l1 ++ p :: l2 /\ q <> p
             /\ voro.compute_cell con q = inl what
             /\ message error_message_c_str w' = Some (what_message what)).
Proof.
  intros Hs He Hg Hpop Hw Hc Hv.
  assert (Hin : p ∈ l1 ++ p :: l2) by (apply elem_of_app; right; apply list_elem_of_here).
  assert (Hn : 0 <= end_ a - start a).
  { pose proof (populate_tagged _ _ _ _ p Hpop Hin) as Ht. unfold tagged in Ht. lia. }
  split.
  - intros Hl1.
    destruct (cell_loop_selected h a nx ny nz con0 con _ Hs He Hn Hpop)
      as (Hmax & _ & Hloop).
    unfold hyperion_voropp_wrap.
    rewrite (try_block_stages h a w nx ny nz con0 _ Hg (conj Hn Hmax) Hpop), Hw, Hloop.
    rewrite (map_result_first_Undefined (cell_of con) l1 l2 p); [reflexivity| |].
    + intros q Hq. destruct (Hl1 q Hq) as (c' & Hc' & Hv').
      destruct (cell_of_defined con q c' Hc' Hv') as (r & Hr & _). exists r. exact Hr.
    + unfold cell_of. rewrite Hc. cbn [rbind]. rewrite Hv. reflexivity.
  - intros w' Hrun. unfold hyperion_voropp_wrap in Hrun.
    destruct (try_block h a w) as [u w2|what w2|] eqn:Htry; [discriminate| |discriminate].
    injection Hrun as <-.
    apply try_block_Thrown in Htry as (Hout & _ & Hsrc).
    split; [exact Hout|].
    destruct Hsrc as [(Hneg & _)
                     |[(nx' & ny' & nz' & con0' & po' & Hg' & Hpop' & Hw' & _)
                      |(nx' & ny' & nz' & con0' & po' & con' & q & Hg' & Hpop' & Hw'
                        & Hq & Hqc)]].
    + exfalso. lia.
    + exfalso. rewrite Hg in Hg'. injection Hg' as <- <- <-.
      rewrite Hpop in Hpop'. injection Hpop' as <- <-.
      rewrite Hw in Hw'. discriminate.
    + rewrite Hg in Hg'. injection Hg' as <- <- <-.
      rewrite Hpop in Hpop'. injection Hpop' as <- <-.
      rewrite Hw in Hw'. injection Hw' as <- <-.
      exists q, what. split; [exact Hq|]. split; [|auto].
      intros ->. rewrite Hc in Hqc. discriminate.
Qed.

End Degenerate.

Lemma zero_vertex_cell_witness :
  let P := Sample.platform in
  let E := Sample.scripted degenerate_cells in
  let a := Sample.call_args 0 2 2 1 EmptyString [] in
  let p0 := {| voro.p_id := 0; voro.p_x := Sample.d 1; voro.p_y := Sample.d 1;
               voro.p_z := Sample.d 1 |} in
  let p := {| voro.p_id := 1; voro.p_x := Sample.d 2; voro.p_y := Sample.d 2;
              voro.p_z := Sample.d 2 |} in
  (0 <= start a /\ end_ a <= nsites a
   /\ grid_resolution (nsites a) (xmin a) (xmax a) (ymin a) (ymax a) (zmin a) (zmax a)
      = Some (1, 1, 1)
   /\ (exists con0,
         populate a (voro.container_new (xmin a) (xmax a) (ymin a) (ymax a)
                       (zmin a) (zmax a) 1 1 1 false false false 8)
         = Ok (con0, [p0] ++ p :: [])
         /\ add_walls con0 (wall_str a) (wall_args_arr a) (n_wall_args a) (verbose a)
              Sample.world0 = Done con0 Sample.world0
         /\ voro.compute_cell con0 p = inr ([0; -2], Sample.d 0, [])))
  /\ hyperion_voropp_wrap Sample.heap0 a Sample.world0 = UndefinedBehaviour.
Proof.
  intros P E a p0 p.
  assert (H0 : 0 <= start a) by (cbn; lia).
  assert (H1 : end_ a <= nsites a) by (cbn; lia).
  assert (Hg : grid_resolution (nsites a) (xmin a) (xmax a) (ymin a) (ymax a)
                 (zmin a) (zmax a) = Some (1, 1, 1)) by (vm_compute; reflexivity).
  destruct (populate a (voro.container_new (xmin a) (xmax a) (ymin a) (ymax a)
                          (zmin a) (zmax a) 1 1 1 false false false 8))
    as [[con0 po]|what|] eqn:Hpop; [|vm_compute in Hpop; discriminate Hpop..].
  assert (Hpo : po = [p0] ++ p :: []).
  { vm_compute in Hpop. injection Hpop as _ <-. reflexivity. }
  subst po.
  assert (Hw : add_walls con0 (wall_str a) (wall_args_arr a) (n_wall_args a)
                 (verbose a) Sample.world0 = Done con0 Sample.world0) by reflexivity.
  assert (Hc : voro.compute_cell con0 p = inr ([0; -2], Sample.d 0, [])) by reflexivity.
  assert (Hv : voro.vertices ([0; -2], Sample.d 0, []) (voro.p_x p) (voro.p_y p)
                 (voro.p_z p) = []) by reflexivity.
  assert (Hl1 : forall q, q ∈ [p0] ->
            exists c', voro.compute_cell con0 q = inr c'
              /\ (3 <= length (voro.vertices c' (voro.p_x q) (voro.p_y q)
                                 (voro.p_z q)))%nat).
  { intros q Hq. apply list_elem_of_singleton in Hq. subst q.
    eexists. split; [reflexivity|]. cbn. lia. }
  pose proof (@zero_vertex_cell P E Sample.heap0 a Sample.world0 Sample.world0 1 1 1
                con0 con0 [p0] [] p _ H0 H1 Hg Hpop Hw Hc Hv) as Hthm.
  split.
  - split; [exact H0|]. split; [exact H1|]. split; [exact Hg|].
    exists con0. exact (conj eq_refl (conj Hw Hc)).
  - exact (proj1 Hthm Hl1).
Defined.

(** ** When the call succeeds *)

Lemma max_size_defined {T} (v : list (list T)) :
  v <> [] -> (forall row, row ∈ v -> Z.of_nat (length row) <= INT_MAX) ->
  exists width, max_size v = Ok (Z.of_nat width) /\ widest width v.
Proof.
  intros Hne Hfit.
  assert (H : exists m, max_size v = Ok m).
  { destruct v as [|x l]; [contradiction|]. unfold max_size, max_element.
    cbn [defined rbind].
    remember (fold_left _ l x) as y eqn:Hy. symmetry in Hy.
    apply fold_largest in Hy as (Hin & _).
    assert (Hyv : y ∈ x :: l).
    { destruct Hin as [->|Hin];
        [apply list_elem_of_here|apply list_elem_of_further; exact Hin]. }
    rewrite checked_in_range; [eexists; reflexivity|].
    pose proof (Hfit y Hyv). unfold INT_MIN. lia. }
  destruct H as [m H]. pose proof H as H'.
  apply max_size_Ok in H' as (width & -> & _ & Hw).
  exists width. auto.
Qed.

Lemma offsets_fit_bound (width n : nat) :
  Z.of_nat width * (Z.of_nat n - 1) <= INT_MAX -> offsets_fit width n = true.
Proof.
  intros H. unfold offsets_fit. apply forallb_forall. intros idx Hidx.
  apply list_elem_of_In, elem_of_seqZ in Hidx. apply int_range_spec.
  unfold INT_MIN. split; [nia|]. 
  assert (Z.of_nat width * idx <= Z.of_nat width * (Z.of_nat n - 1)) by nia. lia.
Qed.

Lemma packing_full (h : heap) (a : args) (rs : list cell_result) (w1 : world) :
  Z.of_nat (length rs) = end_ a - start a ->
  rs <> [] ->
  (forall r, r ∈ rs ->
     Z.of_nat (length (cr_neighbors r)) * (end_ a - start a) <= INT_MAX) ->
  (with_vertices a <> 0 ->
   forall r, r ∈ rs ->
     Z.of_nat (length (cr_vertices r)) * (end_ a - start a) <= INT_MAX) ->
  exists w', packing h a (cells_full a rs) w1 = Done tt w' /\ globals w' = globals w1.
Proof.
  intros Hlen Hne Hnb Hvt.
  assert (Hpos : (1 <= length rs)%nat) by (destruct rs; [contradiction|cbn; lia]).
  assert (Hrows : forall {T} (f : cell_result -> list T),
            (forall r, r ∈ rs -> Z.of_nat (length (f r)) * (end_ a - start a) <= INT_MAX) ->
            exists width,
              max_size (f <$> rs) = Ok (Z.of_nat width)
              /\ widest width (f <$> rs)
              /\ offsets_fit width (length (f <$> rs)) = true).
  { intros T f Hf.
    assert (Hb : forall row, row ∈ f <$> rs ->
              Z.of_nat (length row) * (end_ a - start a) <= INT_MAX).
    { intros row Hrow. apply list_elem_of_fmap in Hrow as (r & -> & Hr). auto. }
    destruct (max_size_defined (f <$> rs)) as (width & Hm & Hw).
    - destruct rs; [contradiction|discriminate].
    - intros row Hrow. pose proof (Hb row Hrow). nia.
    - exists width. split; [exact Hm|]. split; [exact Hw|].
      apply offsets_fit_bound. rewrite length_fmap.
      destruct Hw as [(row & Hrow & <-) _]. pose proof (Hb row Hrow). nia. }
  unfold packing. cbn [n_list vols bb_m bb_M vertices_list cells_full].
  destruct (Hrows _ cr_neighbors Hnb) as (width & Hm & Hw & Hfit).
  rewrite mbind_pure, Hm. unfold assign_max_nn. rewrite mbind_update_out, mbind_pure.
  rewrite <- Hlen.
  replace (Z.of_nat (length rs)) with (Z.of_nat (length (cr_neighbors <$> rs)))
    by (rewrite length_fmap; reflexivity).
  rewrite pack_padded;
    [|apply Hw|rewrite malloc_length, !length_fmap; nia].
  rewrite Hfit.
  destruct (with_vertices a =? 0) eqn:Hwv.
  - eexists. split; [reflexivity|reflexivity].
  - apply Z.eqb_neq in Hwv.
    destruct (Hrows _ cr_vertices (Hvt Hwv)) as (vwidth & Hmv & Hvw & Hvfit).
    rewrite (mbind_unfold (mbind _ _)), mbind_pure, Hmv.
    unfold assign_max_nv. rewrite mbind_update_out, mbind_pure.
    rewrite length_fmap.
    replace (Z.of_nat (length rs)) with (Z.of_nat (length (cr_vertices <$> rs)))
      by (rewrite length_fmap; reflexivity).
    rewrite pack_padded;
      [|apply Hvw|rewrite malloc_length, !length_fmap; nia].
    rewrite Hvfit.
    eexists. split; [reflexivity|reflexivity].
Qed.

Section Succeeds.
Context {P : Platform} {E : voro.engine}.

(** X13. Conditions under which the call returns [NULL]: a selection
    with [0 <= start < end <= nsites], a defined grid sizing and
    population, a wall that is not refused, and for every selected
    particle a cell that the library computes, with at least one vertex
    and with neighbour and vertex lists whose rows of the packed arrays
    can be indexed by an [int]. *)
Theorem call_succeeds (h : heap) (a : args) (w : world) (nx ny nz : Z)
    (con0 : voro.container) (po : voro.particle_order) :
  0 <= start a -> start a < end_ a -> end_ a <= nsites a ->
  n_wall_args a = Z.of_nat (length (wall_args_arr a)) ->
  ~ bad_wall (wall_str a) (wall_args_arr a) (n_wall_args a) ->
  grid_resolution (nsites a) (xmin a) (xmax a) (ymin a) (ymax a) (zmin a) (zmax a)
    = Some (nx, ny, nz) ->
  populate a (voro.container_new (xmin a) (xmax a) (ymin a) (ymax a)
                (zmin a) (zmax a) nx ny nz false false false 8) = Ok (con0, po) ->
  (forall p, p ∈ po ->
     exists c,
       let v := voro.vertices c (voro.p_x p) (voro.p_y p) (voro.p_z p) in
       voro.compute_cell (attach (requested_wall (wall_str a) (wall_args_arr a)) con0) p
         = inr c
       /\ (3 <= length v)%nat
       /\ Z.of_nat (length (voro.neighbors c)) * (end_ a - start a) <= INT_MAX
       /\ (with_vertices a <> 0 ->
           Z.of_nat (length v) * (end_ a - start a) <= INT_MAX)) ->
  exists w', hyperion_voropp_wrap h a w = Returned NULL w'.
Proof.
  intros Hs Hlt He Hnw Hbad Hg Hpop Hcells.
  assert (Hn : 0 <= end_ a - start a) by lia.
  set (con := attach (requested_wall (wall_str a) (wall_args_arr a)) con0) in *.
  destruct (cell_loop_selected h a nx ny nz con0 con po Hs He Hn Hpop)
    as (Hmax & Hpolen & Hloop).
  destruct (add_walls_validation con0 (wall_str a) (wall_args_arr a) (n_wall_args a)
              (verbose a) w Hnw) as [(Hb & _)|(_ & Hw)]; [contradiction|].
  fold con in Hw.
  destruct (map_result_defined (cell_of con) po) as [rs Hrs].
  { intros p Hp. destruct (Hcells p Hp) as (c & Hc & Hv & _).
    destruct (cell_of_defined con p c Hc Hv) as (r & Hr & _). exists r. exact Hr. }
  pose proof (map_result_length _ _ _ Hrs) as Hlen.
  assert (Hr : forall r, r ∈ rs ->
            exists p c, p ∈ po /\ voro.compute_cell con p = inr c
              /\ cr_neighbors r = voro.neighbors c
              /\ cr_vertices r
                 = voro.vertices c (voro.p_x p) (voro.p_y p) (voro.p_z p)).
  { intros r Hin. apply list_elem_of_lookup_1 in Hin as [i Hi].
    destruct (lookup_lt_is_Some_2 po i) as [p Hp];
      [apply lookup_lt_Some in Hi; lia|].
    destruct (map_result_lookup _ _ _ _ _ Hrs Hp) as (r' & Hr' & Hf).
    rewrite Hi in Hr'. injection Hr' as <-.
    apply cell_of_Ok in Hf as (c & Hc & Hnb & _ & Hvt & _).
    exists p, c. split; [eapply list_elem_of_lookup_2; exact Hp|auto]. }
  destruct (packing_full h a rs (keep_wall (requested_wall (wall_str a) (wall_args_arr a)) w))
    as (w' & Hpk & _).
  - lia.
  - destruct rs; [cbn in Hlen; lia|discriminate].
  - intros r Hin. destruct (Hr r Hin) as (p & c & Hp & Hc & -> & _).
    destruct (Hcells p Hp) as (c' & Hc' & _ & Hnb & _).
    fold con in Hc'. rewrite Hc in Hc'. injection Hc' as <-. exact Hnb.
  - intros Hwv r Hin. destruct (Hr r Hin) as (p & c & Hp & Hc & _ & ->).
    destruct (Hcells p Hp) as (c' & Hc' & _ & _ & Hvt).
    fold con in Hc'. rewrite Hc in Hc'. injection Hc' as <-. exact (Hvt Hwv).
  - exists w'. unfold hyperion_voropp_wrap.
    rewrite (try_block_stages h a w nx ny nz con0 po Hg (conj Hn Hmax) Hpop), Hw, Hloop,
      Hrs.
    cbn [rbind]. rewrite Hpk. reflexivity.
Qed.

End Succeeds.

Lemma call_succeeds_witness :
  let P := Sample.platform in
  let E := Sample.scripted Sample.three_cells in
  let a := Sample.call_args 0 3 3 1 "sphere"
             [Sample.d 2; Sample.d 2; Sample.d 2; Sample.d 9] in
  exists w', hyperion_voropp_wrap Sample.heap0 a Sample.world0 = Returned NULL w'.
Proof.
  intros P E a.
  assert (H0 : 0 <= start a) by (cbn; lia).
  assert (H1 : start a < end_ a) by (cbn; lia).
  assert (H2 : end_ a <= nsites a) by (cbn; lia).
  assert (Hnw : n_wall_args a = Z.of_nat (length (wall_args_arr a))) by reflexivity.
  assert (Hbad : ~ bad_wall (wall_str a) (wall_args_arr a) (n_wall_args a)).
  { intros [(_ & [Hb|(r & Hl & Hb)])|(Hb & _)];
      [apply Hb; reflexivity| |discriminate Hb].
    cbn in Hl. injection Hl as <-. vm_compute in Hb. discriminate Hb. }
  assert (Hg : grid_resolution (nsites a) (xmin a) (xmax a) (ymin a) (ymax a)
                 (zmin a) (zmax a) = Some (1, 1, 1)) by (vm_compute; reflexivity).
  destruct (populate a (voro.container_new (xmin a) (xmax a) (ymin a) (ymax a)
                          (zmin a) (zmax a) 1 1 1 false false false 8))
    as [[con0 po]|what|] eqn:Hpop; [|vm_compute in Hpop; discriminate Hpop..].
  apply (@call_succeeds P E Sample.heap0 a Sample.world0 1 1 1 con0 po
           H0 H1 H2 Hnw Hbad Hg Hpop).
  vm_compute in Hpop. injection Hpop as _ <-.
  intros p Hp.
  repeat (apply elem_of_cons in Hp as [->|Hp];
          [eexists; cbv zeta; split; [reflexivity|];
           split; [cbn; lia|]; split; [cbn; unfold INT_MAX; lia|];
           intros _; cbn; unfold INT_MAX; lia|]).
  apply elem_of_nil in Hp. contradiction.
Defined.

(** * The blocks the wrapper allocates *)

(** ** [std_malloc] and [std_free] *)

Lemma std_malloc_fresh (m : blocks) (b : nat) :
  (std_malloc m).1 = Some b -> b ∉ m.
Proof.
  unfold std_malloc. cbn. intros [= <-] Hin.
  apply max_list_elem_of_le in Hin. lia.
Qed.

Lemma filter_other (b : nat) (m : blocks) :
  b ∉ m -> filter (fun b' => b' <> b) m = m.
Proof.
  induction m as [|x m IH]; intros H; [reflexivity|].
  apply not_elem_of_cons in H as [Hx Hm].
  rewrite filter_cons_True by congruence. rewrite IH by exact Hm. reflexivity.
Qed.

Lemma std_free_last (b : nat) (m : blocks) :
  b ∉ m -> std_free b (b :: m) = Some m.
Proof.
  intros H. unfold std_free.
  destruct (decide (b ∈ b :: m)) as [_|Hn];
    [|exfalso; apply Hn; apply list_elem_of_here].
  rewrite filter_cons_False by (intros Hb; apply Hb; reflexivity).
  rewrite filter_other by exact H. reflexivity.
Qed.

Lemma std_malloc_free (m : blocks) :
  match std_malloc m with
  | (Some b, m') => std_free b m' = Some m
  | (None, _) => False
  end.
Proof. unfold std_malloc. apply std_free_last. apply std_malloc_fresh. reflexivity. Qed.

(** X14. A [ptr_raii] owns the block it was constructed on until
    [release()] is called: destroyed, it gives the block back (the
    allocated blocks are those before the [malloc]); after [release()],
    which returns the pointer, it holds null, its destructor frees
    nothing and a second [release()] returns null. *)
Theorem ptr_raii_owns (m : blocks) :
  let ptr := (std_malloc m).1 in
  let m' := (std_malloc m).2 in
  let p := ptr_raii_new ptr in
  ptr <> None
  /\ get p = ptr
  /\ ptr_raii_delete p m' = Some m
  /\ (release p).1 = ptr
  /\ get (release p).2 = None
  /\ ptr_raii_delete (release p).2 m' = Some m'
  /\ (release (release p).2).1 = None.
Proof.
  cbv zeta. pose proof (std_malloc_free m) as H.
  unfold std_malloc in *. cbn [fst snd] in *.
  unfold ptr_raii_new, ptr_raii_delete, release, get. cbn [m_ptr fst snd].
  repeat split; [discriminate|exact H].
Qed.

(** ** The [try] block with its [ptr_raii] objects *)

Lemma obind_lift_pure {A B} (r : result A) (k : A -> MO B) (s : ostate) :
  obind (lift (pure r)) k s
  = match r with
    | Ok a => k a s
    | Throw what => OThrown what s
    | Undefined => OCrashed
    end.
Proof. destruct s, r; reflexivity. Qed.

Lemma obind_lift {A B} (c : M A) (k : A -> MO B) (s : ostate) :
  obind (lift c) k s
  = match c (o_world s) with
    | Done a w' => k a (with_world w' s)
    | Thrown what w' => OThrown what (with_world w' s)
    | Crashed => OCrashed
    end.
Proof. unfold obind, lift. destruct (c (o_world s)); reflexivity. Qed.

Lemma obind_construct {B} (x : local) (k : unit -> MO B) (s : ostate) :
  obind (construct x) k s
  = k tt {| o_world := o_world s; allocated := (std_malloc (allocated s)).2;
            scope := (x, ptr_raii_new (std_malloc (allocated s)).1) :: scope s;
            caller := caller s |}.
Proof. reflexivity. Qed.

Section OwnedSpec.
Context {P : Platform} {E : voro.engine}.

(** The state in which the [try] block with its objects ends, from what
    the [try] block does. *)
Lemma try_block_owned_spec (h : heap) (a : args) (w : world) (m : blocks) (c : handed) :
  try_block_owned h a {| o_world := w; allocated := m; scope := []; caller := c |}
  = match try_block h a w with
    | Done u w' =>
        ODone u
          {| o_world := w';
             allocated := after_mallocs (if with_vertices a =? 0 then 4 else 5) m;
             scope := [(neighs_, {| m_ptr := None |}); (bb_M_, {| m_ptr := None |});
                       (bb_m_, {| m_ptr := None |}); (vols_, {| m_ptr := None |})];
             caller := {| neighbours_ptr := next_malloc 3 m;
                          volumes_ptr := next_malloc 0 m;
                          bb_min_ptr := next_malloc 1 m;
                          bb_max_ptr := next_malloc 2 m;
                          vertices_ptr := if with_vertices a =? 0 then vertices_ptr c
                                          else next_malloc 4 m |} |}
    | Thrown what w' =>
        OThrown what
          (if end_ a - start a <? 0
           then {| o_world := w'; allocated := m; scope := []; caller := c |}
           else {| o_world := w'; allocated := after_mallocs 3 m;
                   scope := [(bb_M_, ptr_raii_new (next_malloc 2 m));
                             (bb_m_, ptr_raii_new (next_malloc 1 m));
                             (vols_, ptr_raii_new (next_malloc 0 m))];
                   caller := c |})
    | Crashed => OCrashed
    end.
Proof.
  unfold try_block_owned, try_block.
  rewrite obind_lift_pure, mbind_pure.
  destruct (grid_resolution _ _ _ _ _ _ _) as [[[nx ny] nz]|];
    cbn [defined]; [|reflexivity].
  rewrite obind_lift_pure, mbind_pure.
  destruct (checked (end_ a - start a)) as [ncells|] eqn:Hnc;
    cbn [defined]; [|reflexivity].
  apply checked_Some in Hnc as [-> _].
  rewrite obind_lift_pure, mbind_pure. unfold vector_n at 1 3.
  destruct (Z.ltb_spec (end_ a - start a) 0) as [Hneg|Hpos]; [reflexivity|].
  rewrite obind_lift_pure, mbind_pure.
  destruct (if with_vertices a =? 0 then Ok [] else _) as [vl0|what|] eqn:Hvl.
  2:{ exfalso. revert Hvl. unfold vector_n. destruct (with_vertices a =? 0);
        [discriminate|]. destruct (Z.ltb_spec (end_ a - start a) 0); [lia|discriminate]. }
  2:{ reflexivity. }
  rewrite !obind_construct. cbn [o_world allocated scope caller].
  rewrite obind_lift_pure, mbind_pure.
  destruct (populate a _) as [[con0 po]|what|] eqn:Hpop; [| |reflexivity].
  2:{ exfalso. exact (populate_no_throw _ _ _ Hpop). }
  rewrite obind_lift, (mbind_unfold (add_walls _ _ _ _ _)). cbn [o_world].
  destruct (add_walls con0 _ _ _ _ w) as [con w1|what w1|]; [|reflexivity..].
  unfold with_world. cbn [o_world allocated scope caller].
  rewrite obind_lift_pure, mbind_pure.
  destruct (cell_loop a con po _) as [cs|what|]; [|reflexivity..].
  rewrite obind_lift_pure, mbind_pure.
  destruct (max_size (n_list cs)) as [mnn|what|] eqn:Hmnn; [| |reflexivity].
  2:{ exfalso. exact (max_size_no_throw _ _ Hmnn). }
  rewrite obind_lift. unfold assign_max_nn at 1 2. rewrite mbind_update_out.
  cbn [update_out o_world]. unfold with_world. cbn [o_world allocated scope caller].
  rewrite obind_construct. cbn [o_world allocated scope caller].
  rewrite obind_lift_pure, mbind_pure.
  destruct (pack (n_list cs) _ mnn (-10) _) as [neighs|what|] eqn:Hpack;
    [| |reflexivity].
  2:{ exfalso. exact (pack_no_throw _ _ _ _ _ _ Hpack). }
  destruct (with_vertices a =? 0) eqn:Hwv.
  - reflexivity.
  - unfold obind at 1. rewrite obind_lift_pure.
    rewrite (mbind_unfold (mbind _ _)), mbind_pure.
    destruct (max_size (vertices_list cs)) as [mnv|what|] eqn:Hmnv; [| |reflexivity].
    2:{ exfalso. exact (max_size_no_throw _ _ Hmnv). }
    rewrite obind_lift. unfold assign_max_nv at 1 2. rewrite mbind_update_out.
    cbn [update_out o_world]. unfold with_world. cbn [o_world allocated scope caller].
    rewrite obind_construct. cbn [o_world allocated scope caller].
    rewrite obind_lift_pure, mbind_pure.
    destruct (pack (vertices_list cs) _ mnv nan _) as [verts|what|] eqn:Hpv;
      [| |reflexivity].
    2:{ exfalso. exact (pack_no_throw _ _ _ _ _ _ Hpv). }
    reflexivity.
Qed.

End OwnedSpec.

Lemma after_mallocs_5 (m : blocks) :
  exists b1 b2 b3 b4 b5 : nat,
    next_malloc 0 m = Some b1 /\ next_malloc 1 m = Some b2
    /\ next_malloc 2 m = Some b3 /\ next_malloc 3 m = Some b4
    /\ next_malloc 4 m = Some b5
    /\ after_mallocs 3 m = [b3; b2; b1] ++ m
    /\ after_mallocs 4 m = [b4; b3; b2; b1] ++ m
    /\ after_mallocs 5 m = [b5; b4; b3; b2; b1] ++ m
    /\ (max_list m < b1 < b2)%nat /\ (b2 < b3 < b4)%nat /\ (b4 < b5)%nat.
Proof.
  unfold next_malloc, after_mallocs, std_malloc. cbn [fst snd max_list app].
  eexists _, _, _, _, _.
  repeat (split; [reflexivity|]). unfold id. lia.
Qed.

Lemma unwind_three (m : blocks) (b1 b2 b3 : nat) (x1 x2 x3 : local) :
  (max_list m < b1 < b2)%nat -> (b2 < b3)%nat ->
  unwind [(x3, ptr_raii_new (Some b3)); (x2, ptr_raii_new (Some b2));
          (x1, ptr_raii_new (Some b1))] ([b3; b2; b1] ++ m) = Some m.
Proof.
  intros H1 H2.
  assert (Hm : forall b, (max_list m < b)%nat -> b ∉ m).
  { intros b Hb Hin. apply max_list_elem_of_le in Hin. lia. }
  cbn [unwind ptr_raii_delete ptr_raii_new m_ptr app].
  rewrite std_free_last.
  2:{ rewrite !not_elem_of_cons. repeat split; try lia. apply Hm. lia. }
  rewrite std_free_last.
  2:{ rewrite !not_elem_of_cons. repeat split; try lia. apply Hm. lia. }
  rewrite std_free_last by (apply Hm; lia). reflexivity.
Qed.

Section Ownership.
Context {P : Platform} {E : voro.engine}.

(** What the call with its objects leaves, from what the call does. *)
Lemma wrap_owned_spec (h : heap) (a : args) (w : world) (m : blocks) (c : handed) :
  hyperion_voropp_wrap_owned h a w m c
  = match hyperion_voropp_wrap h a w with
    | Returned NULL w' =>
        OReturned NULL w' (after_mallocs (if with_vertices a =? 0 then 4 else 5) m)
          {| neighbours_ptr := next_malloc 3 m;
             volumes_ptr := next_malloc 0 m;
             bb_min_ptr := next_malloc 1 m;
             bb_max_ptr := next_malloc 2 m;
             vertices_ptr := if with_vertices a =? 0 then vertices_ptr c
                             else next_malloc 4 m |}
    | Returned error_message_c_str w' => OReturned error_message_c_str w' m c
    | UndefinedBehaviour => OUndefined
    end.
Proof.
  unfold hyperion_voropp_wrap_owned, hyperion_voropp_wrap.
  rewrite try_block_owned_spec.
  destruct (try_block h a w) as [u w'|what w'|]; [reflexivity| |reflexivity].
  destruct (end_ a - start a <? 0); [reflexivity|].
  cbn [scope allocated o_world caller].
  destruct (after_mallocs_5 m)
    as (b1 & b2 & b3 & b4 & b5 & -> & -> & -> & _ & _ & -> & _ & _ & H12 & H34 & _).
  rewrite unwind_three by lia. reflexivity.
Qed.

(** X15. The destructors of the [ptr_raii] objects never free a block
    that is not allocated, and no block twice: with its objects the call
    returns the same value and leaves the same world, and its behaviour is
    undefined only if it is without them. *)
Theorem destructors_are_safe (h : heap) (a : args) (w : world) (m : blocks) (c : handed) :
  match hyperion_voropp_wrap_owned h a w m c with
  | OReturned r w' _ _ => hyperion_voropp_wrap h a w = Returned r w'
  | OUndefined => hyperion_voropp_wrap h a w = UndefinedBehaviour
  end.
Proof.
  rewrite wrap_owned_spec.
  destruct (hyperion_voropp_wrap h a w) as [[|] w'|]; reflexivity.
Qed.

(** X16. A call that returns the error message leaks nothing: every
    block it obtained from [malloc] has been freed when it returns (the
    allocated blocks are those found), and the caller's pointers are
    untouched. *)
Theorem failure_frees_every_block (h : heap) (a : args) (w w' : world)
    (m m' : blocks) (c c' : handed) :
  hyperion_voropp_wrap_owned h a w m c = OReturned error_message_c_str w' m' c' ->
  m' = m /\ c' = c.
Proof.
  rewrite wrap_owned_spec.
  destruct (hyperion_voropp_wrap h a w) as [[|] w1|]; try discriminate.
  intros [= _ <- <-]. auto.
Qed.

(** X17. A call that returns [NULL] frees nothing and hands over what it
    allocated: the blocks of the volumes, of the two bounding-box arrays
    and of the neighbours, and the block of the vertices when they were
    requested, are new, pairwise distinct, still allocated, and they are
    what the caller's pointers point to; without vertices [*vertices] is
    left alone. *)
Theorem success_hands_over_blocks (h : heap) (a : args) (w w' : world)
    (m m' : blocks) (c c' : handed) :
  hyperion_voropp_wrap_owned h a w m c = OReturned NULL w' m' c' ->
  exists (bv bm bM bn : nat) (new : list nat),
    volumes_ptr c' = Some bv /\ bb_min_ptr c' = Some bm
    /\ bb_max_ptr c' = Some bM /\ neighbours_ptr c' = Some bn
    /\ (if with_vertices a =? 0
        then vertices_ptr c' = vertices_ptr c /\ new = [bn; bM; bm; bv]
        else exists bx, vertices_ptr c' = Some bx /\ new = [bx; bn; bM; bm; bv])
    /\ m' = new ++ m
    /\ NoDup new
    /\ forall b, b ∈ new -> b ∉ m.
Proof.
  rewrite wrap_owned_spec.
  destruct (hyperion_voropp_wrap h a w) as [[|] w1|]; try discriminate.
  intros [= _ <- <-].
  destruct (after_mallocs_5 m)
    as (b1 & b2 & b3 & b4 & b5 & -> & -> & -> & -> & -> & _ & H4 & H5 & H12 & H34 & H45).
  assert (Hm : forall b, (max_list m < b)%nat -> b ∉ m).
  { intros b Hb Hin. apply max_list_elem_of_le in Hin. lia. }
  cbn [volumes_ptr bb_min_ptr bb_max_ptr neighbours_ptr vertices_ptr].
  destruct (with_vertices a =? 0).
  - exists b1, b2, b3, b4, [b4; b3; b2; b1].
    repeat (split; [reflexivity|]). split; [auto|]. split; [exact H4|]. split.
    + repeat (apply NoDup_cons; split;
              [rewrite ?not_elem_of_cons; repeat split; try lia; apply not_elem_of_nil|]).
      apply NoDup_nil_2.
    + intros b Hb. apply Hm.
      repeat (apply elem_of_cons in Hb as [->|Hb]; [lia|]).
      apply elem_of_nil in Hb. contradiction.
  - exists b1, b2, b3, b4, [b5; b4; b3; b2; b1].
    repeat (split; [reflexivity|]). split; [exists b5; auto|]. split; [exact H5|]. split.
    + repeat (apply NoDup_cons; split;
              [rewrite ?not_elem_of_cons; repeat split; try lia; apply not_elem_of_nil|]).
      apply NoDup_nil_2.
    + intros b Hb. apply Hm.
      repeat (apply elem_of_cons in Hb as [->|Hb]; [lia|]).
      apply elem_of_nil in Hb. contradiction.
Qed.

End Ownership.

Lemma failure_frees_every_block_witness :
  let P := Sample.platform in
  let E := Sample.scripted (take 2 Sample.three_cells) in
  let a := Sample.call_args 1 3 3 1 EmptyString [] in
  exists w',
    hyperion_voropp_wrap_owned Sample.heap0 a Sample.world0 [7%nat; 3%nat] no_pointers
    = OReturned error_message_c_str w' [7%nat; 3%nat] no_pointers.
Proof.
  intros P E a.
  destruct (hyperion_voropp_wrap_owned Sample.heap0 a Sample.world0 [7%nat; 3%nat]
              no_pointers) as [[|] w' m' c'|] eqn:Hrun;
    [vm_compute in Hrun; discriminate Hrun| |vm_compute in Hrun; discriminate Hrun].
  exists w'.
  destruct (@failure_frees_every_block P E Sample.heap0 a Sample.world0 w'
              [7%nat; 3%nat] m' no_pointers c' Hrun) as [-> ->].
  reflexivity.
Defined.

Lemma success_hands_over_blocks_witness :
  let P := Sample.platform in
  let E := Sample.scripted Sample.three_cells in
  let a := Sample.call_args 1 3 3 1 EmptyString [] in
  exists w' m' c',
    hyperion_voropp_wrap_owned Sample.heap0 a Sample.world0 [7%nat; 3%nat] no_pointers
    = OReturned NULL w' m' c'
    /\ m' = [12; 11; 10; 9; 8; 7; 3]%nat
    /\ exists (bv bm bM bn : nat) (new : list nat),
         volumes_ptr c' = Some bv /\ bb_min_ptr c' = Some bm
         /\ bb_max_ptr c' = Some bM /\ neighbours_ptr c' = Some bn
         /\ (if with_vertices a =? 0
             then vertices_ptr c' = vertices_ptr no_pointers /\ new = [bn; bM; bm; bv]
             else exists bx, vertices_ptr c' = Some bx /\ new = [bx; bn; bM; bm; bv])
         /\ m' = new ++ [7%nat; 3%nat]
         /\ NoDup new
         /\ forall b, b ∈ new -> b ∉ [7%nat; 3%nat].
Proof.
  intros P E a.
  destruct (hyperion_voropp_wrap_owned Sample.heap0 a Sample.world0 [7%nat; 3%nat]
              no_pointers) as [[|] w' m' c'|] eqn:Hrun;
    [|vm_compute in Hrun; discriminate Hrun..].
  exists w', m', c'. split; [reflexivity|].
  pose proof (@success_hands_over_blocks P E Sample.heap0 a Sample.world0 w'
                [7%nat; 3%nat] m' no_pointers c' Hrun) as H.
  split; [|exact H].
  vm_compute in Hrun. injection Hrun as _ <- _. reflexivity.
Defined.

(** * What the result of a cell depends on *)

Lemma populate_body_container (a a' : args) (i : Z) (con con1 con2 : voro.container)
    (po po' po1 po2 : voro.particle_order) :
  points a' = points a ->
  populate_body a i (con, po) = Ok (con1, po1) ->
  populate_body a' i (con, po') = Ok (con2, po2) ->
  con2 = con1.
Proof.
  intros Hpts H1 H2. unfold populate_body in H1, H2. rewrite Hpts in H2.
  destruct (point_at (points a) i) as [[[x y] z]| |];
    [|destruct (_ && _) in H1; discriminate H1..].
  destruct (_ && _) in H1; destruct (_ && _) in H2; cbn [rbind] in H1, H2;
    unfold voro.put_ordered, voro.put in H1, H2;
    injection H1 as <- _; injection H2 as <- _; reflexivity.
Qed.

Lemma populate_foreach_container (a a' : args) (l : list Z) (con con1 con2 : voro.container)
    (po po' po1 po2 : voro.particle_order) :
  points a' = points a ->
  foreach l (populate_body a) (con, po) = Ok (con1, po1) ->
  foreach l (populate_body a') (con, po') = Ok (con2, po2) ->
  con2 = con1.
Proof.
  intros Hpts. revert con po po'.
  induction l as [|i l IH]; intros con po po' H1 H2.
  - injection H1 as <- _. injection H2 as <- _. reflexivity.
  - cbn [foreach] in H1, H2.
    bind_ok H1 s1 Hb1. bind_ok H2 s2 Hb2. destruct s1 as [c1 p1], s2 as [c2 p2].
    pose proof (populate_body_container a a' i con c1 c2 po po' p1 p2 Hpts Hb1 Hb2).
    subst c2. exact (IH c1 p1 p2 H1 H2).
Qed.

Lemma positioned_unique (a : args) (p q : voro.particle) :
  positioned a p -> positioned a q -> voro.p_id p = voro.p_id q -> p = q.
Proof.
  destruct p as [i x y z], q as [i' x' y' z']. unfold positioned. cbn.
  intros (_ & _ & Hx & Hy & Hz) (_ & _ & Hx' & Hy' & Hz') <-.
  rewrite Hx in Hx'. rewrite Hy in Hy'. rewrite Hz in Hz'.
  injection Hx' as <-. injection Hy' as <-. injection Hz' as <-. reflexivity.
Qed.

Lemma widest_unique {T} (m1 m2 : nat) (rows : list (list T)) :
  widest m1 rows -> widest m2 rows -> m1 = m2.
Proof.
  intros [(r1 & Hr1 & <-) Hle1] [(r2 & Hr2 & <-) Hle2].
  pose proof (Hle1 r2 Hr2). pose proof (Hle2 r1 Hr1). lia.
Qed.

Section Dependence.
Context {P : Platform} {E : voro.engine}.

(** The slots of a selected particle after a call that returns [NULL],
    for a selection inside the particle set. *)
Lemma selected_cell (h : heap) (a : args) (w w' : world) (i : Z) :
  0 <= start a -> end_ a <= nsites a ->
  hyperion_voropp_wrap h a w = Returned NULL w' ->
  start a <= i < end_ a ->
  exists nx ny nz con0 po con w1 p r (mnn mnv : nat),
    let idx := Z.to_nat (i - start a) in
    grid_resolution (nsites a) (xmin a) (xmax a) (ymin a) (ymax a) (zmin a) (zmax a)
      = Some (nx, ny, nz)
    /\ populate a (voro.container_new (xmin a) (xmax a) (ymin a) (ymax a)
                     (zmin a) (zmax a) nx ny nz false false false 8) = Ok (con0, po)
    /\ add_walls con0 (wall_str a) (wall_args_arr a) (n_wall_args a) (verbose a) w
       = Done con w1
    /\ voro.p_id p = i /\ positioned a p
    /\ cell_of con p = Ok r
    /\ max_nn (out w') = Z.of_nat mnn
    /\ (length (cr_neighbors r) <= mnn)%nat
    /\ volumes (out w') !! idx = Some (cr_volume r)
    /\ (forall j, (j < 3)%nat ->
          bb_min (out w') !! (idx * 3 + j)%nat = Some (get3 (cr_min r) (Z.of_nat j))
          /\ bb_max (out w') !! (idx * 3 + j)%nat = Some (get3 (cr_max r) (Z.of_nat j)))
    /\ (forall k, (k < mnn)%nat ->
          neighbours (out w') !! (idx * mnn + k)%nat
          = pad_row mnn (-10) (cr_neighbors r) !! k)
    /\ (with_vertices a <> 0 ->
        max_nv (out w') = Z.of_nat mnv
        /\ (length (cr_vertices r) <= mnv)%nat
        /\ forall k, (k < mnv)%nat ->
             vertices (out w') !! (idx * mnv + k)%nat
             = pad_row mnv nan (cr_vertices r) !! k).
Proof.
  intros Hs He H Hi. apply wrap_NULL in H.
  apply (successful_call h a w w' tt Hs He) in H
    as (nx & ny & nz & con0 & con & w1 & rs & mnn & mnv & H).
  cbv zeta in H.
  destruct H as (Hg & Hn & Hpop & Hids & Hpos & Htag & Hw & Hrs & Hlen & Hwid & Hvwid
                 & _ & Hout).
  set (po := filter (tagged a) (voro.particles con0)) in *.
  set (idx := Z.to_nat (i - start a)).
  assert (Hpid : (voro.p_id <$> po) !! idx = Some i).
  { rewrite Htag. rewrite (lookup_seqZ (start a) (end_ a - start a) idx i).
    unfold idx. lia. }
  rewrite list_lookup_fmap in Hpid.
  destruct (po !! idx) as [p|] eqn:Hp; [|discriminate]. injection Hpid as Hpid.
  destruct (map_result_lookup _ _ _ _ _ Hrs Hp) as (r & Hr & Hcell).
  assert (Hpp : positioned a p).
  { assert (Hin : p ∈ voro.particles con0).
    { apply list_elem_of_lookup_2 in Hp. unfold po in Hp.
      apply list_elem_of_filter in Hp as [_ Hp]. exact Hp. }
    rewrite Forall_forall in Hpos. apply Hpos. exact Hin. }
  assert (Hblocks : forall {T} (width : nat) (pad : T) (f : cell_result -> list T),
            widest width (f <$> rs) ->
            (length (f r) <= width)%nat
            /\ forall k, (k < width)%nat ->
                 padded width pad (f <$> rs) !! (idx * width + k)%nat
                 = pad_row width pad (f r) !! k).
  { intros T width pad f [_ Hle].
    assert (Hrow : (f <$> rs) !! idx = Some (f r))
      by (rewrite list_lookup_fmap, Hr; reflexivity).
    assert (Hfr : (length (f r) <= width)%nat).
    { apply Hle. eapply list_elem_of_lookup_2. exact Hrow. }
    split; [exact Hfr|]. intros k Hk.
    destruct (padded_lookup width pad (f <$> rs) idx (f r) Hle Hrow) as [Hin Hpad].
    unfold pad_row. destruct (Nat.lt_ge_cases k (length (f r))) as [Hlt|Hge].
    - rewrite Hin by exact Hlt. rewrite lookup_app_l by exact Hlt. reflexivity.
    - rewrite Hpad by lia. rewrite lookup_app_r by exact Hge.
      symmetry. apply lookup_replicate_2. lia. }
  exists nx, ny, nz, con0, po, con, w1, p, r, mnn, mnv. cbv zeta. fold idx.
  rewrite Hout. cbn [max_nn volumes bb_min bb_max neighbours vertices max_nv].
  destruct (Hblocks _ mnn (-10) cr_neighbors Hwid) as [Hnl Hnrow].
  split; [exact Hg|]. split; [exact Hpop|]. split; [exact Hw|].
  split; [exact Hpid|]. split; [exact Hpp|]. split; [exact Hcell|].
  split; [reflexivity|]. split; [exact Hnl|].
  split; [rewrite list_lookup_fmap, Hr; reflexivity|].
  split.
  { intros j Hj. split; apply list3_blocks_lookup; assumption. }
  split; [exact Hnrow|].
  intros Hwv. apply Z.eqb_neq in Hwv as Hwv'. rewrite Hwv'.
  destruct (Hblocks _ mnv nan cr_vertices (Hvwid Hwv)) as [Hvl Hvrow].
  auto.
Qed.

End Dependence.

Section Independence.
Context {P : Platform} {E : voro.engine}.

(** The cell of a particle selected by two calls that differ only in
    their selection. *)
Lemma same_cell (a : args) (s e : Z) (w w2 w1 w1' : world) (nx ny nz nx' ny' nz' : Z)
    (con0 con0' con con' : voro.container) (po po' : voro.particle_order)
    (p p' : voro.particle) (r r' : cell_result) :
  let a' := with_selection s e a in
  grid_resolution (nsites a) (xmin a) (xmax a) (ymin a) (ymax a) (zmin a) (zmax a)
    = Some (nx, ny, nz) ->
  grid_resolution (nsites a') (xmin a') (xmax a') (ymin a') (ymax a') (zmin a') (zmax a')
    = Some (nx', ny', nz') ->
  populate a (voro.container_new (xmin a) (xmax a) (ymin a) (ymax a)
                (zmin a) (zmax a) nx ny nz false false false 8) = Ok (con0, po) ->
  populate a' (voro.container_new (xmin a') (xmax a') (ymin a') (ymax a')
                 (zmin a') (zmax a') nx' ny' nz' false false false 8) = Ok (con0', po') ->
  add_walls con0 (wall_str a) (wall_args_arr a) (n_wall_args a) (verbose a) w
    = Done con w1 ->
  add_walls con0' (wall_str a') (wall_args_arr a') (n_wall_args a') (verbose a') w2
    = Done con' w1' ->
  positioned a p -> positioned a' p' -> voro.p_id p = voro.p_id p' ->
  cell_of con p = Ok r -> cell_of con' p' = Ok r' ->
  r' = r.
Proof.
  intros a' Hg Hg' Hpop Hpop' Hw Hw' Hp Hp' Hid Hr Hr'.
  cbn [a' with_selection nsites xmin xmax ymin ymax zmin zmax wall_str wall_args_arr
       n_wall_args verbose] in Hg', Hpop', Hw'.
  rewrite Hg in Hg'. injection Hg' as <- <- <-.
  assert (Hc0 : con0' = con0).
  { unfold populate in Hpop, Hpop'. cbn [a' with_selection nsites] in Hpop'.
    exact (populate_foreach_container a a' _ _ _ _ _ _ _ _ eq_refl Hpop Hpop'). }
  subst con0'.
  destruct (add_walls_world con0 (wall_str a) (wall_args_arr a) (n_wall_args a)
              (verbose a)) as [res Hres].
  rewrite Hres in Hw, Hw'.
  assert (Hc : con' = con).
  { destruct res as [[wl|]|what|]; try discriminate Hw;
      injection Hw as <- _; injection Hw' as <- _; reflexivity. }
  subst con'.
  assert (Hpp : p' = p).
  { apply (positioned_unique a); [exact Hp'|exact Hp|symmetry; exact Hid]. }
  subst p'. rewrite Hr in Hr'. injection Hr' as <-. reflexivity.
Qed.

(** X18. The result of a cell does not depend on the selection it is
    computed in: when two calls that differ only in [start] and [end],
    both inside the particle set, return [NULL], a particle selected by
    both has the same volume and the same bounding box in both outputs,
    and its neighbour rows agree slot by slot up to the smaller of the two
    widths. *)
Theorem selection_independent (h h' : heap) (a : args) (s e : Z) (w w' u u' : world)
    (i : Z) :
  let a' := with_selection s e a in
  0 <= start a -> end_ a <= nsites a ->
  0 <= s -> e <= nsites a ->
  hyperion_voropp_wrap h a w = Returned NULL u ->
  hyperion_voropp_wrap h' a' w' = Returned NULL u' ->
  start a <= i < end_ a -> s <= i < e ->
  let idx := Z.to_nat (i - start a) in
  let idx' := Z.to_nat (i - s) in
  let mnn := Z.to_nat (max_nn (out u)) in
  let mnn' := Z.to_nat (max_nn (out u')) in
  (exists v, volumes (out u) !! idx = Some v /\ volumes (out u') !! idx' = Some v)
  /\ (forall j, (j < 3)%nat ->
        exists lo hi,
          bb_min (out u) !! (idx * 3 + j)%nat = Some lo
          /\ bb_min (out u') !! (idx' * 3 + j)%nat = Some lo
          /\ bb_max (out u) !! (idx * 3 + j)%nat = Some hi
          /\ bb_max (out u') !! (idx' * 3 + j)%nat = Some hi)
  /\ (forall k, (k < mnn)%nat -> (k < mnn')%nat ->
        exists n,
          neighbours (out u) !! (idx * mnn + k)%nat = Some n
          /\ neighbours (out u') !! (idx' * mnn' + k)%nat = Some n).
Proof.
  intros a' Hs He Hs' He' Hrun Hrun' Hi Hi' idx idx' mnn mnn'.
  destruct (selected_cell h a w u i Hs He Hrun Hi)
    as (nx & ny & nz & con0 & po & con & w1 & p & r & m & mv & H).
  destruct (selected_cell h' a' w' u' i Hs' He' Hrun' Hi')
    as (nx' & ny' & nz' & con0' & po' & con' & w1' & p' & r' & m' & mv' & H').
  cbv zeta in H, H'.
  destruct H as (Hg & Hpop & Hw & Hid & Hp & Hr & Hm & Hlen & Hv & Hbb & Hn & _).
  destruct H' as (Hg' & Hpop' & Hw' & Hid' & Hp' & Hr' & Hm' & Hlen' & Hv' & Hbb' & Hn' & _).
  assert (Heq : r' = r).
  { apply (same_cell a s e w w' w1 w1' nx ny nz nx' ny' nz' con0 con0' con con'
             po po' p p'); try assumption. congruence. }
  subst r'.
  change (start a') with s in Hv', Hbb', Hn'. fold idx in Hv, Hbb, Hn.
  fold idx' in Hv', Hbb', Hn'.
  assert (Hmm : mnn = m) by (unfold mnn; rewrite Hm; lia).
  assert (Hmm' : mnn' = m') by (unfold mnn'; rewrite Hm'; lia).
  rewrite Hmm, Hmm'. clear Hmm Hmm'.
  split; [exists (cr_volume r); auto|]. split.
  - intros j Hj. destruct (Hbb j Hj) as [Hlo Hhi]. destruct (Hbb' j Hj) as [Hlo' Hhi'].
    eexists _, _. eauto.
  - intros k Hk Hk'. rewrite (Hn k Hk), (Hn' k Hk'). unfold pad_row.
    destruct (Nat.lt_ge_cases k (length (cr_neighbors r))) as [Hlt|Hge].
    + rewrite !lookup_app_l by exact Hlt.
      destruct (lookup_lt_is_Some_2 (cr_neighbors r) k Hlt) as [n Hn0].
      exists n. auto.
    + rewrite !lookup_app_r by exact Hge. exists (-10).
      split; apply lookup_replicate_2; lia.
Qed.

(** X19. The vertex flag only adds the vertex channel: when two calls
    that differ only in [with_vertices], on a selection inside the
    particle set, return [NULL], they assign the same [max_nn] and the
    same neighbour, volume and bounding-box arrays. *)
Theorem vertex_flag_only_adds (h h' : heap) (a : args) (v : Z) (w w' u u' : world) :
  let a' := with_vertices_flag v a in
  0 <= start a -> end_ a <= nsites a ->
  hyperion_voropp_wrap h a w = Returned NULL u ->
  hyperion_voropp_wrap h' a' w' = Returned NULL u' ->
  max_nn (out u') = max_nn (out u)
  /\ neighbours (out u') = neighbours (out u)
  /\ volumes (out u') = volumes (out u)
  /\ bb_min (out u') = bb_min (out u)
  /\ bb_max (out u') = bb_max (out u).
Proof.
  intros a' Hs He Hrun Hrun'.
  apply wrap_NULL in Hrun, Hrun'.
  apply (successful_call h a w u tt Hs He) in Hrun
    as (nx & ny & nz & con0 & con & w1 & rs & mnn & mnv & H).
  apply (successful_call h' a' w' u' tt Hs He) in Hrun'
    as (nx' & ny' & nz' & con0' & con' & w1' & rs' & mnn' & mnv' & H').
  cbv zeta in H, H'.
  destruct H as (Hg & _ & Hpop & _ & _ & _ & Hw & Hrs & _ & Hwid & _ & _ & Hout).
  destruct H' as (Hg' & _ & Hpop' & _ & _ & _ & Hw' & Hrs' & _ & Hwid' & _ & _ & Hout').
  cbn [a' with_vertices_flag nsites xmin xmax ymin ymax zmin zmax wall_str
       wall_args_arr n_wall_args verbose] in Hg', Hpop', Hw'.
  rewrite Hg in Hg'. injection Hg' as <- <- <-.
  change (populate a') with (populate a) in Hpop'.
  change (tagged a') with (tagged a) in Hpop', Hrs'.
  rewrite Hpop in Hpop'. injection Hpop' as Hc0 _. subst con0'.
  destruct (add_walls_world con0 (wall_str a) (wall_args_arr a) (n_wall_args a)
              (verbose a)) as [res Hres].
  rewrite Hres in Hw, Hw'.
  assert (Hc : con' = con).
  { destruct res as [[wl|]|what|]; try discriminate Hw;
      injection Hw as <- _; injection Hw' as <- _; reflexivity. }
  subst con'.
  assert (Hrs2 : map_result (cell_of con) (filter (tagged a) (voro.particles con0))
                 = Ok rs') by exact Hrs'.
  rewrite Hrs in Hrs2. injection Hrs2 as <-.
  pose proof (widest_unique _ _ _ Hwid Hwid') as ->.
  rewrite Hout, Hout'. cbn. auto.
Qed.

End Independence.

Lemma selection_independent_witness :
  let P := Sample.platform in
  let E := Sample.scripted Sample.three_cells in
  let a := Sample.call_args 0 2 3 0 EmptyString [] in
  exists u u',
    hyperion_voropp_wrap Sample.heap0 a Sample.world0 = Returned NULL u
    /\ hyperion_voropp_wrap Sample.heap1 (with_selection 1 3 a) Sample.world0
       = Returned NULL u'
    /\ volumes (out u) = [Sample.d 8; Sample.d 16]
    /\ volumes (out u') = [Sample.d 16; Sample.d 40]
    /\ exists v, volumes (out u) !! Z.to_nat (1 - 0) = Some v
         /\ volumes (out u') !! Z.to_nat (1 - 1) = Some v.
Proof.
  intros P E a.
  destruct (hyperion_voropp_wrap Sample.heap0 a Sample.world0) as [[|] u|] eqn:Hrun;
    [|vm_compute in Hrun; discriminate Hrun..].
  destruct (hyperion_voropp_wrap Sample.heap1 (with_selection 1 3 a) Sample.world0)
    as [[|] u'|] eqn:Hrun'; [|vm_compute in Hrun'; discriminate Hrun'..].
  exists u, u'. split; [reflexivity|]. split; [reflexivity|].
  assert (H0 : 0 <= start a) by (cbn; lia).
  assert (H1 : end_ a <= nsites a) by (cbn; lia).
  assert (H2 : 0 <= 1) by lia.
  assert (H3 : 3 <= nsites a) by (cbn; lia).
  assert (Hi : start a <= 1 < end_ a) by (cbn; lia).
  assert (Hi' : 1 <= 1 < 3) by lia.
  pose proof (@selection_independent P E Sample.heap0 Sample.heap1 a 1 3 Sample.world0
                Sample.world0 u u' 1 H0 H1 H2 H3 Hrun Hrun' Hi Hi') as H.
  cbv zeta in H. destruct H as (Hv & _).
  split; [vm_compute in Hrun; injection Hrun as <-; reflexivity|].
  split; [vm_compute in Hrun'; injection Hrun' as <-; reflexivity|].
  exact Hv.
Defined.

Lemma vertex_flag_only_adds_witness :
  let P := Sample.platform in
  let E := Sample.scripted Sample.three_cells in
  let a := Sample.call_args 1 3 3 0 EmptyString [] in
  exists u u',
    hyperion_voropp_wrap Sample.heap0 a Sample.world0 = Returned NULL u
    /\ hyperion_voropp_wrap Sample.heap1 (with_vertices_flag 1 a) Sample.world0
       = Returned NULL u'
    /\ max_nv (out u) = 0 /\ max_nv (out u') = 9
    /\ max_nn (out u') = max_nn (out u)
    /\ neighbours (out u') = neighbours (out u)
    /\ volumes (out u') = volumes (out u)
    /\ bb_min (out u') = bb_min (out u)
    /\ bb_max (out u') = bb_max (out u).
Proof.
  intros P E a.
  destruct (hyperion_voropp_wrap Sample.heap0 a Sample.world0) as [[|] u|] eqn:Hrun;
    [|vm_compute in Hrun; discriminate Hrun..].
  destruct (hyperion_voropp_wrap Sample.heap1 (with_vertices_flag 1 a) Sample.world0)
    as [[|] u'|] eqn:Hrun'; [|vm_compute in Hrun'; discriminate Hrun'..].
  exists u, u'. split; [reflexivity|]. split; [reflexivity|].
  assert (H0 : 0 <= start a) by (cbn; lia).
  assert (H1 : end_ a <= nsites a) by (cbn; lia).
  pose proof (@vertex_flag_only_adds P E Sample.heap0 Sample.heap1 a 1 Sample.world0
                Sample.world0 u u' H0 H1 Hrun Hrun') as H.
  split; [vm_compute in Hrun; injection Hrun as <-; reflexivity|].
  split; [vm_compute in Hrun'; injection Hrun' as <-; reflexivity|].
  exact H.
Defined.
